(** * Configuration synthesis of the ingress controller

    A shallow embedding of [endpoints.go], [controller.go] and [main.go]:
    the endpoint resolver, the default upstream, the backend/server
    assembler, the location normaliser, the stream-service resolver and
    the final [getConfiguration], followed by the properties the
    specification states about them. *)

From Stdlib Require Import ZArith String Ascii List DecimalString DecimalZ.
From Stdlib Require Import Sorting.Sorted Permutation.
From stdpp Require Import base list gmap strings.
From stdpp Require sorting.
From Stdlib Require OrderedTypeEx.

Open Scope string_scope.
Open Scope list_scope.
Open Scope Z_scope.

(** ** Go runtime: panics

    A nil dereference, an index out of range or a lookup through a nil
    pointer aborts the goroutine.  [Go A] is a computation that either
    returns or panics. *)

Inductive Go (A : Type) : Type :=
| Ret (a : A)
| Panic.
Arguments Ret {A} a.
Arguments Panic {A}.

#[global] Instance Go_ret : MRet Go := fun A a => Ret a.
#[global] Instance Go_bind : MBind Go := fun A B f m =>
  match m with Ret a => f a | Panic => Panic end.

(** [*p] for a pointer [p]. *)
Definition deref {A} (p : option A) : Go A :=
  match p with Some a => Ret a | None => Panic end.

(** [for _, a := range l { s = f(s, a) }] where the body may panic. *)
Fixpoint foldGo {A S} (f : S -> A -> Go S) (l : list A) (s : S) : Go S :=
  match l with
  | [] => Ret s
  | a :: l' => s' ← f s a; foldGo f l' s'
  end.

Definition returns {A} (m : Go A) : Prop := exists a, m = Ret a.

(** ** Strings and numbers of the Go library *)

Definition beq_string (a b : string) : bool := bool_decide (a = b).

(** [strings.IndexByte(s, c) >= 0] *)
Fixpoint containsByte (c : ascii) (s : string) : bool :=
  match s with
  | EmptyString => false
  | String a s' => if Ascii.eqb a c then true else containsByte c s'
  end.

(** [strings.HasSuffix] *)
Fixpoint HasSuffix (s suffix : string) : bool :=
  if beq_string s suffix then true
  else match s with
       | EmptyString => false
       | String _ s' => HasSuffix s' suffix
       end.

(** [strings.TrimSuffix(s, suffix)] for a one-byte suffix. *)
Fixpoint TrimSuffix1 (s : string) (c : ascii) : string :=
  match s with
  | EmptyString => EmptyString
  | String a EmptyString => if Ascii.eqb a c then EmptyString else s
  | String a s' => String a (TrimSuffix1 s' c)
  end.

(** [strings.Split(s, sep)] for a one-byte separator: always at least one
    token, the empty string gives one empty token. *)
Fixpoint Split1 (sep : ascii) (s : string) : list string :=
  match s with
  | EmptyString => [EmptyString]
  | String a s' =>
      if Ascii.eqb a sep then EmptyString :: Split1 sep s'
      else match Split1 sep s' with
           | [] => [String a EmptyString]
           | t :: ts => String a t :: ts
           end
  end.

Definition lowerByte (a : ascii) : ascii :=
  let n := N_of_ascii a in
  if ((65 <=? n) && (n <=? 90))%N then ascii_of_N (n + 32) else a.

(** [strings.EqualFold] on ASCII text. *)
Fixpoint EqualFold (s t : string) : bool :=
  match s, t with
  | EmptyString, EmptyString => true
  | String a s', String b t' => Ascii.eqb (lowerByte a) (lowerByte b) && EqualFold s' t'
  | _, _ => false
  end.

(** [strconv.Itoa] and [fmt.Sprintf("%v", n)] for an integer. *)
Definition Itoa (z : Z) : string := NilZero.string_of_int (Z.to_int z).

Definition digitVal (a : ascii) : option Z :=
  let n := N_of_ascii a in
  if ((48 <=? n) && (n <=? 57))%N then Some (Z.of_N n - 48) else None.

Fixpoint parseDigits (acc : Z) (s : string) : option Z :=
  match s with
  | EmptyString => Some acc
  | String a s' =>
      match digitVal a with
      | Some d => parseDigits (10 * acc + d) s'
      | None => None
      end
  end.

Definition parseUnsigned (s : string) : option Z :=
  match s with
  | EmptyString => None
  | _ => parseDigits 0 s
  end.

Definition maxInt : Z := 9223372036854775807.
Definition minInt : Z := -9223372036854775808.

(** The decimal syntax [strconv.Atoi] accepts: an optional sign and at
    least one digit; [None] is a syntax error. *)
Definition parseInt (s : string) : option Z :=
  match s with
  | String "+" s' => parseUnsigned s'
  | String "-" s' => Z.opp <$> parseUnsigned s'
  | _ => parseUnsigned s
  end.

(** [strconv.Atoi] on a 64-bit platform; [None] is the error result, for
    a syntax error or a value out of the range of [int]. *)
Definition Atoi (s : string) : option Z :=
  match parseInt s with
  | Some v => if (minInt <=? v) && (v <=? maxInt) then Some v else None
  | None => None
  end.

(** The value [strconv.Atoi] returns next to its error: 0 for a syntax
    error, the nearest bound for a value out of range. *)
Definition AtoiValue (s : string) : Z :=
  match parseInt s with
  | Some v => Z.max minInt (Z.min maxInt v)
  | None => 0
  end.

(** [net.JoinHostPort]: a host holding a colon or a percent sign is put
    in brackets. *)
Definition JoinHostPort (host port : string) : string :=
  if containsByte ":" host || containsByte "%" host
  then "[" +:+ host +:+ "]:" +:+ port
  else host +:+ ":" +:+ port.

(** ** Kubernetes objects (the fields the code reads) *)

(** [intstr.IntOrString] *)
Inductive IntOrString :=
| FromInt (IntVal : Z)
| FromString (StrVal : string).

Definition isInt (v : IntOrString) : bool :=
  match v with FromInt _ => true | FromString _ => false end.

Definition IntVal (v : IntOrString) : Z :=
  match v with FromInt i => i | FromString _ => 0 end.

(** [IntOrString.IntValue]: a string value is converted with [Atoi], whose
    error is dropped. *)
Definition IntValue (v : IntOrString) : Z :=
  match v with
  | FromInt i => i
  | FromString s => AtoiValue s
  end.

(** [corev1.Protocol] is a string type. *)
Definition Protocol := string.
Definition ProtocolTCP : Protocol := "TCP".
Definition ProtocolUDP : Protocol := "UDP".

Record ServicePort := {
  sp_Name : string;
  sp_Protocol : Protocol;
  sp_Port : Z;
  sp_TargetPort : IntOrString;
}.

Definition ServiceTypeExternalName : string := "ExternalName".
Definition ServiceTrafficDistributionPreferClose : string := "PreferClose".

Record ServiceSpec := {
  Type_ : string;
  ExternalName : string;
  Ports : list ServicePort;
  TrafficDistribution : option string;
}.

Record Service := {
  svc_Namespace : string;
  svc_Name : string;
  Spec : ServiceSpec;
}.

Record ObjectReference := {
  ref_Kind : string;
  ref_Namespace : string;
  ref_Name : string;
}.

(** [discoveryv1.EndpointPort]: every field is a pointer. *)
Record EndpointPort := {
  ep_Name : option string;
  ep_Protocol : option Protocol;
  ep_Port : option Z;
}.

(** [discoveryv1.Endpoint]; [Hints] is a pointer to the list of zones,
    [Ready] the pointer [Conditions.Ready]. *)
Record SliceEndpoint := {
  Addresses : list string;
  Ready : option bool;
  Hints : option (list string);
  TargetRef : option ObjectReference;
}.

Record EndpointSlice := {
  eps_Ports : list EndpointPort;
  eps_Endpoints : list SliceEndpoint;
}.

(** [Endpoint] of types.go *)
Record Endpoint := {
  Address : string;
  Port : string;
  Target : option ObjectReference;
}.

Definition emptyZone : string := "".

(** [k8s.MetaNamespaceKey]: namespace/name, the bare name for an object
    without namespace. *)
Definition MetaNamespaceKey (namespace name : string) : string :=
  if beq_string namespace "" then name else namespace +:+ "/" +:+ name.

(** ** Library functions the resolver calls

    [net.ParseIP], [IP.IsLoopback] and [validation.IsDNS1123Subdomain]
    belong to the Go and apimachinery libraries; the development is
    parametric in them. *)

Record NetLib := {
  IP : Type;
  ParseIP : string -> option IP;
  IsLoopback : IP -> bool;
  IsDNS1123Subdomain : string -> list string;
}.

(** ** endpoints.go *)

Section Endpoints.
Context (L : NetLib).

(** Lines 61-88: the candidate target ports of one slice. *)
Definition slicePortsStep (port : ServicePort) (proto : Protocol)
    (ports : list Z) (epPort : EndpointPort) : Go (list Z) :=
  p ← deref (ep_Protocol epPort);
  if negb (beq_string p proto) then Ret ports
  else
    targetPort ←
      (if beq_string (sp_Name port) "" then deref (ep_Port epPort)
       else
         name ← deref (ep_Name epPort);
         if beq_string (sp_Name port) name then deref (ep_Port epPort)
         else Ret 0);
    let targetPort :=
      if (targetPort =? 0) && isInt (sp_TargetPort port)
      then IntVal (sp_TargetPort port) else targetPort in
    if targetPort =? 0 then Ret ports
    else Ret (ports ++ [targetPort]).

Definition slicePorts (port : ServicePort) (proto : Protocol)
    (eps : EndpointSlice) : Go (list Z) :=
  if (length (eps_Ports eps) =? 0)%nat && isInt (sp_TargetPort port)
  then Ret [IntVal (sp_TargetPort port)]
  else foldGo (slicePortsStep port proto) (eps_Ports eps) [].

Definition hintedFor (zone : string) (zones : list string) : bool :=
  existsb (beq_string zone) zones.

(** Lines 95-106 *)
Definition foundEndpointsForZone (zone : string) (eps : EndpointSlice) : bool :=
  existsb (fun ep => match Hints ep with
                     | None => false
                     | Some zs => hintedFor zone zs
                     end) (eps_Endpoints eps).

(** Lines 114-119 *)
Definition lacksHint (ep : SliceEndpoint) : bool :=
  match Hints ep with
  | None => true
  | Some zs => (length zs =? 0)%nat
  end.

(** Lines 89-123: the value of [useTopologyHints] for the slice at hand. *)
Definition useTopologyHints (useTrafficDistribution : bool)
    (zoneForHints : string) (eps : EndpointSlice) : bool :=
  if negb (beq_string zoneForHints emptyZone) then
    let u := true in
    let u := if useTrafficDistribution
             then (if negb (foundEndpointsForZone zoneForHints eps) then false else u)
             else u in
    if existsb lacksHint (eps_Endpoints eps) then false else u
  else false.

(** Lines 143-157: the state is [upsServers] and the map
    [processedUpstreamServers]. *)
Definition emitAddress (ep : SliceEndpoint) (epPort : Z)
    (st : list Endpoint * gset string) (epAddress : string)
    : list Endpoint * gset string :=
  let hostPort := JoinHostPort epAddress (Itoa epPort) in
  if bool_decide (hostPort ∈ st.2) then st
  else (st.1 ++ [{| Address := epAddress; Port := Itoa epPort; Target := TargetRef ep |}],
        {[hostPort]} ∪ st.2).

Definition emitEndpoint (ep : SliceEndpoint) (ports : list Z)
    (st : list Endpoint * gset string) : list Endpoint * gset string :=
  fold_left (fun st epPort => fold_left (emitAddress ep epPort) (Addresses ep) st) ports st.

Definition isNotReady (ep : SliceEndpoint) : bool :=
  match Ready ep with
  | Some false => true
  | _ => false
  end.

(** Lines 125-158 *)
Definition endpointStep (useHints : bool) (zoneForHints : string) (ports : list Z)
    (st : list Endpoint * gset string) (ep : SliceEndpoint)
    : Go (list Endpoint * gset string) :=
  if isNotReady ep then Ret st
  else
    epHasZone ← (if useHints
                 then zs ← deref (Hints ep); Ret (hintedFor zoneForHints zs)
                 else Ret false);
    if useHints && negb epHasZone then Ret st
    else Ret (emitEndpoint ep ports st).

(** Lines 60-159: one EndpointSlice. *)
Definition sliceStep (port : ServicePort) (proto : Protocol)
    (useTrafficDistribution : bool) (zoneForHints : string)
    (st : list Endpoint * gset string) (eps : EndpointSlice)
    : Go (list Endpoint * gset string) :=
  ports ← slicePorts port proto eps;
  foldGo (endpointStep (useTopologyHints useTrafficDistribution zoneForHints eps)
                       zoneForHints ports)
         (eps_Endpoints eps) st.

Definition isLocalhostName (externalName : string) : bool :=
  beq_string externalName "localhost" ||
  match ParseIP L externalName with
  | Some ip => IsLoopback L ip
  | None => false
  end.

(** Line 19 *)
Definition preferClose (s : Service) : bool :=
  match TrafficDistribution (Spec s) with
  | Some d => beq_string d ServiceTrafficDistributionPreferClose
  | None => false
  end.

(** [getServiceEndpointsSlices] returns the slices or an error ([None]). *)
Definition getEndpointsFromSlices (s : option Service) (port : option ServicePort)
    (proto : Protocol) (zoneForHints : string)
    (getServiceEndpointsSlices : string -> option (list EndpointSlice))
    : Go (list Endpoint) :=
  match s, port with
  | Some s, Some port =>
      let useTrafficDistribution := preferClose s in
      let svcKey := MetaNamespaceKey (svc_Namespace s) (svc_Name s) in
      if beq_string (Type_ (Spec s)) ServiceTypeExternalName then
        if isLocalhostName (ExternalName (Spec s)) then Ret []
        else
          let targetPort := IntValue (sp_TargetPort port) in
          if match ParseIP L (ExternalName (Spec s)) with
             | None =>
                 negb (length (IsDNS1123Subdomain L
                         (TrimSuffix1 (ExternalName (Spec s)) ".")) =? 0)%nat
             | Some _ => false
             end
          then Ret []
          else Ret [{| Address := ExternalName (Spec s);
                       Port := Itoa targetPort;
                       Target := None |}]
      else
        match getServiceEndpointsSlices svcKey with
        | None => Ret []
        | Some epss =>
            st ← foldGo (sliceStep port proto useTrafficDistribution zoneForHints)
                        epss ([], ∅);
            Ret st.1
        end
  | _, _ => Ret []
  end.

End Endpoints.

(** ** types.go *)

(** [networking.PathType] is a string type; [Location.PathType] and
    [HTTPIngressPath.PathType] are pointers to it. *)
Definition PathType := string.
Definition pathTypeExact : PathType := "Exact".
Definition pathTypePrefix : PathType := "Prefix".
Definition rootLocation : string := "/".

Record SSLCert := {
  cert_Name : string;
  cert_Namespace : string;
  PemFileName : string;
  PemSHA : string;
  CN : list string;
}.

Record CookieSessionAffinity := {
  cookie_Name : string;
  cookie_Expires : string;
  cookie_MaxAge : string;
  (** a Go map: nil ([None]) until made *)
  cookie_Locations : option (gmap string (list string));
  cookie_Secure : bool;
  cookie_Path : string;
  cookie_Domain : string;
  cookie_SameSite : string;
  cookie_ConditionalSameSiteNone : bool;
  cookie_ChangeOnFailure : bool;
}.

Record SessionAffinityConfig := {
  AffinityType : string;
  AffinityMode : string;
  CookieSessionAffinity_ : CookieSessionAffinity;
}.

Record TrafficShapingPolicy := {
  Weight : Z;
  WeightTotal : Z;
  Header : string;
  HeaderValue : string;
  HeaderPattern : string;
  Cookie : string;
}.

Record UpstreamHashByConfig := {
  UpstreamHashBy : string;
  UpstreamHashBySubset : bool;
  UpstreamHashBySubsetSize : Z;
}.

Record Backend := {
  b_Name : string;
  b_Service : option Service;
  b_Port : IntOrString;
  b_SSLPassthrough : bool;
  b_Endpoints : list Endpoint;
  b_SessionAffinity : SessionAffinityConfig;
  b_UpstreamHashBy : UpstreamHashByConfig;
  b_LoadBalancing : string;
  b_NoServer : bool;
  b_TrafficShapingPolicy : TrafficShapingPolicy;
  b_AlternativeBackends : list string;
}.

Record ProxyProtocol := {
  Decode : bool;
  Encode : bool;
}.

Record L4Backend := {
  l4_Port : IntOrString;
  l4_Name : string;
  l4_Namespace : string;
  l4_Protocol : Protocol;
  l4_ProxyProtocol : ProxyProtocol;
}.

Record L4Service := {
  l4s_Port : Z;
  l4s_Backend : L4Backend;
  l4s_Endpoints : list Endpoint;
  l4s_Service : option Service;
}.

(** The annotation structs are parsed elsewhere; these are the fields the
    assembler reads. *)
Record AuthTLSConfig := {
  atls_Secret : string;
  atls_CAFileName : string;
  atls_VerifyClient : string;
  atls_AuthTLSError : string;
}.

Record ProxySSLConfig := {
  pssl_Secret : string;
  pssl_CAFileName : string;
  pssl_Verify : string;
}.

Record RedirectConfig := {
  red_URL : string;
  FromToWWW : bool;
}.

Record RewriteConfig := {
  rw_Target : string;
  UseRegex : bool;
}.

Record SessionAffinityCookie := {
  sac_Name : string;
  sac_Expires : string;
  sac_MaxAge : string;
  sac_Secure : bool;
  sac_Path : string;
  sac_Domain : string;
  sac_SameSite : string;
  sac_ConditionalSameSiteNone : bool;
  sac_ChangeOnFailure : bool;
}.

Record SessionAffinityAnnotation := {
  sa_Type : string;
  sa_Mode : string;
  sa_Cookie : SessionAffinityCookie;
}.

Record AnnotationsIngress := {
  a_BackendProtocol : string;
  a_Aliases : list string;
  a_CanaryEnabled : bool;
  a_CertificateAuth : AuthTLSConfig;
  a_ConfigurationSnippet : string;
  a_CustomHTTPErrors : list Z;
  a_DefaultBackend : option Service;
  a_ProxySSL : ProxySSLConfig;
  a_Redirect : RedirectConfig;
  a_Rewrite : RewriteConfig;
  a_ServerSnippet : string;
  a_SessionAffinity : SessionAffinityAnnotation;
  a_SSLPassthrough : bool;
  a_UpstreamVhost : string;
  a_StreamSnippet : string;
}.

(** networking/v1 *)
Record IngressServiceBackend := {
  isb_Name : string;
  isb_PortName : string;
  isb_PortNumber : Z;
}.

Record HTTPIngressPath := {
  hp_Path : string;
  hp_PathType : option PathType;
  hp_BackendService : option IngressServiceBackend;
}.

Record IngressRule := {
  Host : string;
  (** the pointer [rule.HTTP], holding [Paths] *)
  HTTP : option (list HTTPIngressPath);
}.

Record Ingress := {
  ing_Namespace : string;
  ing_Name : string;
  Rules : list IngressRule;
  ParsedAnnotations : option AnnotationsIngress;
}.

Record Location := {
  Path : string;
  PathType_ : option PathType;
  IsDefBackend : bool;
  Ingress_ : option Ingress;
  IngressPath : string;
  loc_Backend : string;
  loc_Service : option Service;
  loc_Port : IntOrString;
  loc_UpstreamVhost : string;
  loc_Redirect : RedirectConfig;
  loc_Rewrite : RewriteConfig;
  loc_ProxySSL : ProxySSLConfig;
  loc_ConfigurationSnippet : string;
  loc_DefaultBackend : option Service;
  DefaultBackendUpstreamName : string;
  loc_BackendProtocol : string;
  loc_CustomHTTPErrors : list Z;
}.

Record Server := {
  Hostname : string;
  SSLPassthrough : bool;
  SSLCert_ : option SSLCert;
  Locations : list Location;
  Aliases : list string;
  RedirectFromToWWW : bool;
  CertificateAuth : AuthTLSConfig;
  ProxySSL : ProxySSLConfig;
  ServerSnippet : string;
  AuthTLSError : string;
}.

Record SSLPassthroughBackend := {
  pt_Service : option Service;
  pt_Port : IntOrString;
  pt_Backend : string;
  pt_Hostname : string;
}.

Record Configuration := {
  Backends : list Backend;
  Servers : list Server;
  TCPEndpoints : list L4Service;
  UDPEndpoints : list L4Service;
  PassthroughBackends : list SSLPassthroughBackend;
  BackendConfigChecksum : string;
  ConfigurationChecksum : string;
  DefaultSSLCertificate : option SSLCert;
  StreamSnippets : list string;
}.

(** ** controller.go: the controller and its collaborators *)

Record ListenPorts := {
  lp_HTTP : Z;
  lp_HTTPS : Z;
  lp_Health : Z;
  lp_Default : Z;
  lp_SSLProxy : Z;
}.

Record NginxConfiguration := {
  DefaultService : string;
  TCPConfigMapName : string;
  UDPConfigMapName : string;
  cfg_DefaultSSLCertificate : string;
  cfg_ListenPorts : option ListenPorts;
  FakeCertificate : option SSLCert;
  EnableTopologyAwareRouting : bool;
}.

Record BackendConfiguration := {
  AllowSnippetAnnotations : bool;
  ProxySSLLocationOnly : bool;
  Checksum : string;
}.

(** A Go map that the code ranges over is kept as the list of its
    entries in the order the range statement visits them; keys are
    distinct.  Go leaves that order unspecified, so any order of the
    entries is a possible run. *)
Definition GoMap (V : Type) := list (string * V).

Fixpoint mapGet {V} (m : GoMap V) (k : string) : option V :=
  match m with
  | [] => None
  | (k', v) :: m' => if beq_string k' k then Some v else mapGet m' k
  end.

(** [*m[k] = v] for a key that is present: the entry keeps its place. *)
Fixpoint mapSet {V} (m : GoMap V) (k : string) (v : V) : GoMap V :=
  match m with
  | [] => []
  | (k', v') :: m' =>
      if beq_string k' k then (k', v) :: m' else (k', v') :: mapSet m' k v
  end.

(** The Store collaborator; [None] is the error result of a lookup.  The
    data of a configmap is a Go map: what [GetConfigMap] returns holds the
    entries in the order in which one pass ranges over them, so a value of
    [Store] describes the store as one pass sees it, and two passes over
    the same snapshot are two values that agree up to that order
    ([sameSnapshot]). *)
Record Store := {
  GetService : string -> option Service;
  GetConfigMap : string -> option (GoMap string);
  GetServiceEndpointsSlices : string -> option (list EndpointSlice);
  GetLocalSSLCert : string -> option SSLCert;
  GetBackendConfiguration : BackendConfiguration;
}.

Record NGINXController := {
  cfg : NginxConfiguration;
  store : Store;
}.

(** Functions and constants of the repository that the three files call
    and that are defined in other files.  The assembler is
    parametric in them. *)
Record Helpers := {
  defUpstreamName : string;
  defServerName : string;
  ProfilerPort : Z;
  StatusPort : Z;
  StreamPort : Z;
  DefaultEndpoint : NGINXController -> Endpoint;
  getIngressPodZone : Service -> string;
  ParseNameNS : string -> option (string * string);
  upstreamName : string -> IngressServiceBackend -> string;
  createUpstreams : NGINXController -> list Ingress -> Backend -> GoMap Backend;
  createServers : NGINXController -> list Ingress -> GoMap Backend -> Backend -> GoMap Server;
  dropSnippetDirectives : AnnotationsIngress -> string -> AnnotationsIngress;
  locationApplyAnnotations : Location -> AnnotationsIngress -> Location;
  nonCanaryIngressExists : list Ingress -> list Ingress -> bool;
  mergeAlternativeBackends :
    Ingress -> GoMap Backend -> GoMap Server -> GoMap Backend * GoMap Server;
  shouldCreateUpstreamForLocationDefaultBackend : Backend -> Location -> bool;
}.

(** ** Field updates through a pointer *)

Definition backend_withEndpoints (b : Backend) (name : string) (endps : list Endpoint)
    (svc : option Service) : Backend :=
  {| b_Name := name; b_Service := svc; b_Port := b_Port b;
     b_SSLPassthrough := b_SSLPassthrough b; b_Endpoints := endps;
     b_SessionAffinity := b_SessionAffinity b; b_UpstreamHashBy := b_UpstreamHashBy b;
     b_LoadBalancing := b_LoadBalancing b; b_NoServer := b_NoServer b;
     b_TrafficShapingPolicy := b_TrafficShapingPolicy b;
     b_AlternativeBackends := b_AlternativeBackends b |}.

Definition backend_withSSLPassthrough (b : Backend) (v : bool) : Backend :=
  {| b_Name := b_Name b; b_Service := b_Service b; b_Port := b_Port b;
     b_SSLPassthrough := v; b_Endpoints := b_Endpoints b;
     b_SessionAffinity := b_SessionAffinity b; b_UpstreamHashBy := b_UpstreamHashBy b;
     b_LoadBalancing := b_LoadBalancing b; b_NoServer := b_NoServer b;
     b_TrafficShapingPolicy := b_TrafficShapingPolicy b;
     b_AlternativeBackends := b_AlternativeBackends b |}.

Definition backend_withSessionAffinity (b : Backend) (v : SessionAffinityConfig) : Backend :=
  {| b_Name := b_Name b; b_Service := b_Service b; b_Port := b_Port b;
     b_SSLPassthrough := b_SSLPassthrough b; b_Endpoints := b_Endpoints b;
     b_SessionAffinity := v; b_UpstreamHashBy := b_UpstreamHashBy b;
     b_LoadBalancing := b_LoadBalancing b; b_NoServer := b_NoServer b;
     b_TrafficShapingPolicy := b_TrafficShapingPolicy b;
     b_AlternativeBackends := b_AlternativeBackends b |}.

(** The zero value [Backend{Name: name}]. *)
Definition zeroBackend (name : string) : Backend :=
  {| b_Name := name; b_Service := None; b_Port := FromInt 0;
     b_SSLPassthrough := false; b_Endpoints := [];
     b_SessionAffinity :=
       {| AffinityType := ""; AffinityMode := "";
          CookieSessionAffinity_ :=
            {| cookie_Name := ""; cookie_Expires := ""; cookie_MaxAge := "";
               cookie_Locations := None; cookie_Secure := false; cookie_Path := "";
               cookie_Domain := ""; cookie_SameSite := "";
               cookie_ConditionalSameSiteNone := false;
               cookie_ChangeOnFailure := false |} |};
     b_UpstreamHashBy :=
       {| UpstreamHashBy := ""; UpstreamHashBySubset := false;
          UpstreamHashBySubsetSize := 0 |};
     b_LoadBalancing := ""; b_NoServer := false;
     b_TrafficShapingPolicy :=
       {| Weight := 0; WeightTotal := 0; Header := ""; HeaderValue := "";
          HeaderPattern := ""; Cookie := "" |};
     b_AlternativeBackends := [] |}.

(** A Location with the five fields of lines 261-265 replaced. *)
Definition location_rebind (loc : Location) (backend : string) (port : IntOrString)
    (svc : option Service) (ing : option Ingress) : Location :=
  {| Path := Path loc; PathType_ := PathType_ loc; IsDefBackend := false;
     Ingress_ := ing; IngressPath := IngressPath loc; loc_Backend := backend;
     loc_Service := svc; loc_Port := port; loc_UpstreamVhost := loc_UpstreamVhost loc;
     loc_Redirect := loc_Redirect loc; loc_Rewrite := loc_Rewrite loc;
     loc_ProxySSL := loc_ProxySSL loc;
     loc_ConfigurationSnippet := loc_ConfigurationSnippet loc;
     loc_DefaultBackend := loc_DefaultBackend loc;
     DefaultBackendUpstreamName := DefaultBackendUpstreamName loc;
     loc_BackendProtocol := loc_BackendProtocol loc;
     loc_CustomHTTPErrors := loc_CustomHTTPErrors loc |}.

(** [Path], [PathType] and [IngressPath] replaced. *)
Definition location_withPath (loc : Location) (path : string) (pt : option PathType)
    (ingressPath : string) : Location :=
  {| Path := path; PathType_ := pt; IsDefBackend := IsDefBackend loc;
     Ingress_ := Ingress_ loc; IngressPath := ingressPath; loc_Backend := loc_Backend loc;
     loc_Service := loc_Service loc; loc_Port := loc_Port loc;
     loc_UpstreamVhost := loc_UpstreamVhost loc;
     loc_Redirect := loc_Redirect loc; loc_Rewrite := loc_Rewrite loc;
     loc_ProxySSL := loc_ProxySSL loc;
     loc_ConfigurationSnippet := loc_ConfigurationSnippet loc;
     loc_DefaultBackend := loc_DefaultBackend loc;
     DefaultBackendUpstreamName := DefaultBackendUpstreamName loc;
     loc_BackendProtocol := loc_BackendProtocol loc;
     loc_CustomHTTPErrors := loc_CustomHTTPErrors loc |}.

(** [Backend] and [DefaultBackendUpstreamName] replaced. *)
Definition location_withBackend (loc : Location) (backend : string) (dbName : string)
    : Location :=
  {| Path := Path loc; PathType_ := PathType_ loc; IsDefBackend := IsDefBackend loc;
     Ingress_ := Ingress_ loc; IngressPath := IngressPath loc; loc_Backend := backend;
     loc_Service := loc_Service loc; loc_Port := loc_Port loc;
     loc_UpstreamVhost := loc_UpstreamVhost loc;
     loc_Redirect := loc_Redirect loc; loc_Rewrite := loc_Rewrite loc;
     loc_ProxySSL := loc_ProxySSL loc;
     loc_ConfigurationSnippet := loc_ConfigurationSnippet loc;
     loc_DefaultBackend := loc_DefaultBackend loc;
     DefaultBackendUpstreamName := dbName;
     loc_BackendProtocol := loc_BackendProtocol loc;
     loc_CustomHTTPErrors := loc_CustomHTTPErrors loc |}.

(** The literal [&Location{Path, PathType, Backend, IsDefBackend: false,
    Service, Port, Ingress}] of lines 280-288. *)
Definition newLocation (path : string) (pt : option PathType) (backend : string)
    (svc : option Service) (port : IntOrString) (ing : Ingress) : Location :=
  {| Path := path; PathType_ := pt; IsDefBackend := false;
     Ingress_ := Some ing; IngressPath := ""; loc_Backend := backend;
     loc_Service := svc; loc_Port := port; loc_UpstreamVhost := "";
     loc_Redirect := {| red_URL := ""; FromToWWW := false |};
     loc_Rewrite := {| rw_Target := ""; UseRegex := false |};
     loc_ProxySSL := {| pssl_Secret := ""; pssl_CAFileName := ""; pssl_Verify := "" |};
     loc_ConfigurationSnippet := "";
     loc_DefaultBackend := None;
     DefaultBackendUpstreamName := "";
     loc_BackendProtocol := "";
     loc_CustomHTTPErrors := [] |}.

Definition server_withLocations (s : Server) (locs : list Location) (www : bool) : Server :=
  {| Hostname := Hostname s; SSLPassthrough := SSLPassthrough s; SSLCert_ := SSLCert_ s;
     Locations := locs; Aliases := Aliases s; RedirectFromToWWW := www;
     CertificateAuth := CertificateAuth s; ProxySSL := ProxySSL s;
     ServerSnippet := ServerSnippet s; AuthTLSError := AuthTLSError s |}.

Definition server_withAuth (s : Server) (err : string) (ca : AuthTLSConfig)
    (pssl : ProxySSLConfig) : Server :=
  {| Hostname := Hostname s; SSLPassthrough := SSLPassthrough s; SSLCert_ := SSLCert_ s;
     Locations := Locations s; Aliases := Aliases s;
     RedirectFromToWWW := RedirectFromToWWW s;
     CertificateAuth := ca; ProxySSL := pssl;
     ServerSnippet := ServerSnippet s; AuthTLSError := err |}.

Definition ingress_withAnnotations (i : Ingress) (anns : AnnotationsIngress) : Ingress :=
  {| ing_Namespace := ing_Namespace i; ing_Name := ing_Name i; Rules := Rules i;
     ParsedAnnotations := Some anns |}.

(** ** sort.SliceStable

    A stable sort for the strict order [less]: an element is put in front
    of the first element of the sorted rest that is not less than it, so
    elements that compare equal keep their order. *)

Fixpoint insertStable {A} (less : A -> A -> bool) (x : A) (l : list A) : list A :=
  match l with
  | [] => [x]
  | y :: l' => if less y x then y :: insertStable less x l' else x :: l
  end.

Definition SliceStable {A} (less : A -> A -> bool) (l : list A) : list A :=
  foldr (insertStable less) [] l.

(** Go compares strings byte by byte. *)
Definition string_lt (a b : string) : bool := String.ltb a b.

(** ** controller.go *)

Section Controller.
Context (L : NetLib) (H : Helpers) (n : NGINXController).

(** The zone handed to the resolver (lines 459-464, 374-379, main.go
    412-417). *)
Definition zoneOf (svc : Service) : string :=
  if EnableTopologyAwareRouting (cfg n) then getIngressPodZone H svc else emptyZone.

(** Lines 442-474.  [svc.Spec.Ports[0]] panics on a service without
    ports. *)
Definition getDefaultUpstream : Go Backend :=
  let upstream := zeroBackend (defUpstreamName H) in
  let svcKey := DefaultService (cfg n) in
  if beq_string svcKey "" then
    Ret (backend_withEndpoints upstream (b_Name upstream) [DefaultEndpoint H n] None)
  else
    match GetService (store n) svcKey with
    | None =>
        Ret (backend_withEndpoints upstream (b_Name upstream) [DefaultEndpoint H n] None)
    | Some svc =>
        let zone := zoneOf svc in
        port0 ← deref (head (Ports (Spec svc)));
        endps ← getEndpointsFromSlices L (Some svc) (Some port0) ProtocolTCP zone
                  (GetServiceEndpointsSlices (store n));
        let endps := if (length endps =? 0)%nat then [DefaultEndpoint H n] else endps in
        Ret (backend_withEndpoints upstream (b_Name upstream) endps (Some svc))
    end.

(** Lines 238-274: the walk over [server.Locations] for one ingress path.
    The result is the location list after the walk, the final [addLoc],
    and whether line 270 set [server.RedirectFromToWWW]. *)
Fixpoint mergeLocation (ups : Backend) (ing : Ingress) (anns : AnnotationsIngress)
    (nginxPath : string) (pathType : option PathType) (locs : list Location)
    : list Location * bool * bool :=
  match locs with
  | [] => ([], true, false)
  | loc :: rest =>
      if negb (beq_string (Path loc) nginxPath) then
        let '(rest', addLoc, www) := mergeLocation ups ing anns nginxPath pathType rest in
        (loc :: rest', addLoc, www)
      else if negb (bool_decide (PathType_ loc = pathType)) then
        (loc :: rest, true, false)
      else if negb (IsDefBackend loc) then
        (loc :: rest, false, false)
      else
        let loc' := locationApplyAnnotations H
                      (location_rebind loc (b_Name ups) (b_Port ups) (b_Service ups) (Some ing))
                      anns in
        (loc' :: rest, false, FromToWWW (loc_Redirect loc'))
  end.

(** Lines 321-334: one more path under a host key of the cookie map. *)
Definition cookieAddPath (path : string) (locs : gmap string (list string)) (key : string)
    : gmap string (list string) :=
  <[key := default [] (locs !! key) ++ [path]]> locs.

(** Lines 297-335 *)
Definition applySessionAffinity (anns : AnnotationsIngress) (host : string)
    (server : Server) (path : HTTPIngressPath) (ups : Backend) : Go Backend :=
  let sa := b_SessionAffinity ups in
  let ty := if beq_string (AffinityType sa) "" then sa_Type (a_SessionAffinity anns)
            else AffinityType sa in
  let mode := if beq_string (AffinityMode sa) "" then sa_Mode (a_SessionAffinity anns)
              else AffinityMode sa in
  if beq_string (sa_Type (a_SessionAffinity anns)) "cookie" then
    let c := sa_Cookie (a_SessionAffinity anns) in
    locs ← deref (cookie_Locations (CookieSessionAffinity_ sa));
    let locs := fold_left (cookieAddPath (hp_Path path)) (host :: Aliases server) locs in
    Ret (backend_withSessionAffinity ups
           {| AffinityType := ty; AffinityMode := mode;
              CookieSessionAffinity_ :=
                {| cookie_Name := sac_Name c; cookie_Expires := sac_Expires c;
                   cookie_MaxAge := sac_MaxAge c; cookie_Locations := Some locs;
                   cookie_Secure := sac_Secure c; cookie_Path := sac_Path c;
                   cookie_Domain := sac_Domain c; cookie_SameSite := sac_SameSite c;
                   cookie_ConditionalSameSiteNone := sac_ConditionalSameSiteNone c;
                   cookie_ChangeOnFailure := sac_ChangeOnFailure c |} |})
  else
    Ret (backend_withSessionAffinity ups
           {| AffinityType := ty; AffinityMode := mode;
              CookieSessionAffinity_ := CookieSessionAffinity_ sa |}).

(** Lines 217-336: one path of a rule; [server] is the server of the rule
    and [upstreams] the Backend registry. *)
Definition pathStep (ing : Ingress) (anns : AnnotationsIngress) (host : string)
    (st : Server * GoMap Backend) (path : HTTPIngressPath)
    : Go (Server * GoMap Backend) :=
  let '(server, upstreams) := st in
  match hp_BackendService path with
  | None => Ret st
  | Some svcb =>
      let upsName := upstreamName H (ing_Namespace ing) svcb in
      ups ← deref (mapGet upstreams upsName);
      if b_NoServer ups then Ret st
      else
        let nginxPath := if negb (beq_string (hp_Path path) "") then hp_Path path
                         else rootLocation in
        let '(locs, addLoc, www) :=
          mergeLocation ups ing anns nginxPath (hp_PathType path) (Locations server) in
        let server := server_withLocations server locs
                        (if www then true else RedirectFromToWWW server) in
        let server :=
          if addLoc then
            let loc := locationApplyAnnotations H
                         (newLocation nginxPath (hp_PathType path) (b_Name ups)
                                      (b_Service ups) (b_Port ups) ing)
                         anns in
            server_withLocations server (Locations server ++ [loc])
              (if FromToWWW (loc_Redirect loc) then true else RedirectFromToWWW server)
          else server in
        ups' ← applySessionAffinity anns host server path ups;
        Ret (server, mapSet upstreams upsName ups')
  end.

(** Lines 167-337: one rule of an ingress. *)
Definition ruleStep (ing : Ingress) (anns : AnnotationsIngress)
    (st : GoMap Server * GoMap Backend) (rule : IngressRule)
    : Go (GoMap Server * GoMap Backend) :=
  let '(servers, upstreams) := st in
  let host := if beq_string (Host rule) "" then defServerName H else Host rule in
  let srvKey := match mapGet servers host with
                | Some _ => host
                | None => defServerName H
                end in
  if bool_decide (HTTP rule = None) && negb (beq_string host (defServerName H)) then Ret st
  else
    server ← deref (mapGet servers srvKey);
    let err := if beq_string (AuthTLSError server) "" &&
                  negb (beq_string (atls_AuthTLSError (a_CertificateAuth anns)) "")
               then atls_AuthTLSError (a_CertificateAuth anns)
               else AuthTLSError server in
    let ca := if beq_string (atls_CAFileName (CertificateAuth server)) ""
              then a_CertificateAuth anns else CertificateAuth server in
    let pssl := if negb (ProxySSLLocationOnly (GetBackendConfiguration (store n)))
                then (if beq_string (pssl_CAFileName (ProxySSL server)) ""
                      then a_ProxySSL anns else ProxySSL server)
                else ProxySSL server in
    let server := server_withAuth server err ca pssl in
    match HTTP rule with
    | None => Ret (mapSet servers srvKey server, upstreams)
    | Some paths =>
        r ← foldGo (pathStep ing anns host) paths (server, upstreams);
        Ret (mapSet servers srvKey r.1, r.2)
    end.

(** The state of the loop of lines 159-343: the two registries, the
    canary ingresses set aside, and the ingress objects as the loop leaves
    them ([dropSnippetDirectives] writes through [ing.ParsedAnnotations],
    which the later [getStreamSnippets] reads again). *)
Record AssemblerState := {
  as_servers : GoMap Server;
  as_upstreams : GoMap Backend;
  as_canary : list Ingress;
  as_ingresses : list Ingress;
}.

(** Lines 159-343: one ingress.  With [ParsedAnnotations] nil the body
    panics at line 340 at the latest, so the dereference is done once. *)
Definition ingressStep (st : AssemblerState) (ing : Ingress) : Go AssemblerState :=
  let ingKey := MetaNamespaceKey (ing_Namespace ing) (ing_Name ing) in
  anns ← deref (ParsedAnnotations ing);
  let anns := if negb (AllowSnippetAnnotations (GetBackendConfiguration (store n)))
              then dropSnippetDirectives H anns ingKey else anns in
  let ing := ingress_withAnnotations ing anns in
  r ← foldGo (ruleStep ing anns) (Rules ing) (as_servers st, as_upstreams st);
  Ret {| as_servers := r.1; as_upstreams := r.2;
         as_canary := if a_CanaryEnabled anns then as_canary st ++ [ing] else as_canary st;
         as_ingresses := as_ingresses st ++ [ing] |}.

(** The accumulator of the loops of lines 361-410 for one upstream: the
    clones appended to [aUpstreams], [isHTTPSfrom], and the locations of
    the server at hand that were visited. *)
Record DefaultBackendAcc := {
  acc_clones : list Backend;
  acc_isHTTPSfrom : list Server;
  acc_locations : list Location;
}.

(** Lines 362-409: one location. *)
Definition defaultBackendStep (upstream : Backend) (server : Server)
    (acc : DefaultBackendAcc) (location : Location) : Go DefaultBackendAcc :=
  let skip := {| acc_clones := acc_clones acc; acc_isHTTPSfrom := acc_isHTTPSfrom acc;
                 acc_locations := acc_locations acc ++ [location] |} in
  if negb (shouldCreateUpstreamForLocationDefaultBackend H upstream location) then Ret skip
  else
    db ← deref (loc_DefaultBackend location);
    match Ports (Spec db) with
    | [] => Ret skip
    | sp :: _ =>
        endps ← getEndpointsFromSlices L (Some db) (Some sp) ProtocolTCP (zoneOf db)
                  (GetServiceEndpointsSlices (store n));
        let name := "custom-default-backend-" +:+ svc_Namespace db +:+ "-" +:+ svc_Name db in
        let clones :=
          if (0 <? length endps)%nat
          then acc_clones acc ++ [backend_withEndpoints upstream name endps (b_Service upstream)]
          else acc_clones acc in
        let location :=
          if (0 <? length endps)%nat
          then location_withBackend location
                 (if (length (b_Endpoints upstream) =? 0)%nat then name
                  else loc_Backend location)
                 name
          else location in
        let https :=
          if SSLPassthrough server && beq_string (Path location) rootLocation &&
             negb (beq_string (loc_Backend location) (defUpstreamName H))
          then acc_isHTTPSfrom acc ++ [server]
          else acc_isHTTPSfrom acc in
        Ret {| acc_clones := clones; acc_isHTTPSfrom := https;
               acc_locations := acc_locations acc ++ [location] |}
    end.

(** Lines 361-410: one server; the state is the clones, [isHTTPSfrom] and
    the servers visited. *)
Definition defaultBackendServerStep (upstream : Backend)
    (st : list Backend * list Server * GoMap Server) (entry : string * Server)
    : Go (list Backend * list Server * GoMap Server) :=
  let '(clones, https, done) := st in
  acc ← foldGo (defaultBackendStep upstream entry.2) (Locations entry.2)
          {| acc_clones := clones; acc_isHTTPSfrom := https; acc_locations := [] |};
  Ret (acc_clones acc, acc_isHTTPSfrom acc,
       done ++ [(entry.1, server_withLocations entry.2 (acc_locations acc)
                            (RedirectFromToWWW entry.2))]).

(** Lines 353-415: one upstream; the state is [aUpstreams] and the
    servers. *)
Definition upstreamStep (st : list Backend * GoMap Server) (entry : string * Backend)
    : Go (list Backend * GoMap Server) :=
  let '(aUpstreams, servers) := st in
  let upstream := entry.2 in
  if beq_string (b_Name upstream) (defUpstreamName H) then
    Ret (aUpstreams ++ [upstream], servers)
  else
    r ← foldGo (defaultBackendServerStep upstream) servers ([], [], []);
    let '(clones, https, servers') := r in
    let upstream' := if (0 <? length https)%nat
                     then backend_withSSLPassthrough upstream true else upstream in
    Ret (aUpstreams ++ [upstream'] ++ clones, servers').

(** Lines 419-425 *)
Definition sortLocations (locs : list Location) : list Location :=
  SliceStable (fun a b => (String.length (Path b) <? String.length (Path a))%nat)
    (SliceStable (fun a b => string_lt (Path b) (Path a)) locs).

(** Lines 152-438.  The third component is the ingress list as the pass
    leaves the objects it points to. *)
Definition getBackendServers (ingresses : list Ingress)
    : Go (list Backend * list Server * list Ingress) :=
  du ← getDefaultUpstream;
  let upstreams := createUpstreams H n ingresses du in
  let servers := createServers H n ingresses upstreams du in
  st ← foldGo ingressStep ingresses
         {| as_servers := servers; as_upstreams := upstreams;
            as_canary := []; as_ingresses := [] |};
  let '(upstreams, servers) :=
    if nonCanaryIngressExists H (as_ingresses st) (as_canary st)
    then fold_left (fun m canaryIng => mergeAlternativeBackends H canaryIng m.1 m.2)
                   (as_canary st) (as_upstreams st, as_servers st)
    else (as_upstreams st, as_servers st) in
  r ← foldGo upstreamStep upstreams ([], servers);
  let aServers :=
    map (fun e : string * Server =>
           server_withLocations e.2 (sortLocations (Locations e.2))
             (RedirectFromToWWW e.2)) r.2 in
  Ret (SliceStable (fun a b => string_lt (b_Name a) (b_Name b)) r.1,
       SliceStable (fun a b => string_lt (Hostname a) (Hostname b)) aServers,
       as_ingresses st).

End Controller.

(** ** main.go *)

(** Lines 313-323 *)
Definition normalizePrefixPath (path : string) : string :=
  if beq_string path rootLocation then rootLocation
  else if negb (HasSuffix path "/") then path +:+ "/"
  else path.

(** Lines 325-331 *)
Definition needsRewrite (location : Location) : bool :=
  negb (beq_string (rw_Target (loc_Rewrite location)) "") &&
  negb (beq_string (rw_Target (loc_Rewrite location)) (Path location)).

(** Lines 261-266: the keys of [exactLocations]; only the presence of a
    key is read later. *)
Definition exactLocationsStep (exact : gset string) (location : Location)
    : Go (gset string) :=
  pt ← deref (PathType_ location);
  if beq_string pt pathTypeExact then Ret ({[Path location]} ∪ exact) else Ret exact.

(** Lines 268-308: what one location appends to [newLocations]. *)
Definition updateLocation (exact : gset string) (location : Location)
    : Go (list Location) :=
  if beq_string (Path location) rootLocation then Ret [location]
  else
    let location := location_withPath location (Path location) (PathType_ location)
                      (Path location) in
    pt ← deref (PathType_ location);
    if negb (beq_string pt pathTypePrefix) then Ret [location]
    else if needsRewrite location || UseRegex (loc_Rewrite location) then Ret [location]
    else if bool_decide (Path location ∈ exact) then
      Ret [location_withPath location (normalizePrefixPath (Path location))
             (PathType_ location) (IngressPath location)]
    else
      let el := location in
      Ret [location_withPath location (normalizePrefixPath (Path location))
             (PathType_ location) (IngressPath location);
           location_withPath el (Path el) (Some pathTypeExact) (IngressPath el)].

(** Lines 257-311 *)
Definition updateServerLocations (locations : list Location) : Go (list Location) :=
  exact ← foldGo exactLocationsStep locations ∅;
  foldGo (fun newLocations location =>
            ls ← updateLocation exact location; Ret (newLocations ++ ls))
         locations [].

(** Lines 484-493 *)
Definition getStreamSnippets (ingresses : list Ingress) : Go (list string) :=
  foldGo (fun snippets i =>
            anns ← deref (ParsedAnnotations i);
            if beq_string (a_StreamSnippet anns) "" then Ret snippets
            else Ret (snippets ++ [a_StreamSnippet anns]))
         ingresses [].

(** The conversion [int32(x)] of an [int]. *)
Definition toInt32 (x : Z) : Z := (x + 2147483648) mod 4294967296 - 2147483648.

Section Main.
Context (L : NetLib) (H : Helpers) (n : NGINXController).

(** Lines 470-482 *)
Definition getDefaultSSLCertificate : option SSLCert :=
  if negb (beq_string (cfg_DefaultSSLCertificate (cfg n)) "") then
    match GetLocalSSLCert (store n) (cfg_DefaultSSLCertificate (cfg n)) with
    | Some certificate => Some certificate
    | None => FakeCertificate (cfg n)
    end
  else FakeCertificate (cfg n).

(** Lines 358-369 *)
Definition reservedPorts (lp : ListenPorts) : gset Z :=
  list_to_set [lp_HTTP lp; lp_HTTPS lp; lp_SSLProxy lp; lp_Health lp; lp_Default lp;
               ProfilerPort H; StatusPort H; StreamPort H].

(** Lines 419-443: the first declared port that matches the token and the
    protocol gives the endpoints; without one [endps] stays nil. *)
Definition streamEndpoints (svc : Service) (svcPort : string) (proto : Protocol)
    : Go (list Endpoint) :=
  let matches (sp : ServicePort) : bool :=
    match Atoi svcPort with
    | None => beq_string (sp_Name sp) svcPort
    | Some targetPort => sp_Port sp =? toInt32 targetPort
    end in
  match List.find (fun sp => matches sp && beq_string (sp_Protocol sp) proto)
                  (Ports (Spec svc)) with
  | Some sp =>
      getEndpointsFromSlices L (Some svc) (Some sp) proto (zoneOf H n svc)
        (GetServiceEndpointsSlices (store n))
  | None => Ret []
  end.

(** Lines 371-462: one entry of [configmap.Data]; [None] is an entry that
    was skipped. *)
Definition streamEntry (reserved : gset Z) (proto : Protocol) (port svcRef : string)
    : Go (option L4Service) :=
  match Atoi port with
  | None => Ret None
  | Some externalPort =>
      if bool_decide (externalPort ∈ reserved) then Ret None
      else
        let nsSvcPort := Split1 ":" svcRef in
        match nsSvcPort with
        | nsName :: svcPort :: opts =>
            let tcpOpts := (3 <=? length nsSvcPort)%nat && beq_string proto ProtocolTCP in
            let decode := tcpOpts &&
                          match opts with o :: _ => EqualFold o "PROXY" | [] => false end in
            let encode := tcpOpts && (length nsSvcPort =? 4)%nat &&
                          match opts with [_; o] => EqualFold o "PROXY" | _ => false end in
            match ParseNameNS H nsName with
            | None => Ret None
            | Some (svcNs, svcName) =>
                match GetService (store n) nsName with
                | None => Ret None
                | Some svc =>
                    endps ← streamEndpoints svc svcPort proto;
                    if (length endps =? 0)%nat then Ret None
                    else Ret (Some
                      {| l4s_Port := externalPort;
                         l4s_Backend :=
                           {| l4_Port := FromString svcPort; l4_Name := svcName;
                              l4_Namespace := svcNs; l4_Protocol := proto;
                              l4_ProxyProtocol := {| Decode := decode; Encode := encode |} |};
                         l4s_Endpoints := endps;
                         l4s_Service := Some svc |})
                end
            end
        | _ => Ret None
        end
  end.

Definition streamStep (reserved : gset Z) (proto : Protocol) (svcs : list L4Service)
    (entry : string * string) : Go (list L4Service) :=
  r ← streamEntry reserved proto entry.1 entry.2;
  match r with
  | Some svc => Ret (svcs ++ [svc])
  | None => Ret svcs
  end.

(** Lines 339-468 *)
Definition getStreamServices (configmapName : string) (proto : Protocol)
    : Go (list L4Service) :=
  if beq_string configmapName "" then Ret []
  else
    match ParseNameNS H configmapName with
    | None => Ret []
    | Some _ =>
        match GetConfigMap (store n) configmapName with
        | None => Ret []
        | Some data =>
            lp ← deref (cfg_ListenPorts (cfg n));
            svcs ← foldGo (streamStep (reservedPorts lp) proto) data [];
            Ret (SliceStable (fun a b => l4s_Port a <? l4s_Port b) svcs)
        end
    end.

(** Lines 228-240: the first root location of a passthrough server. *)
Definition passthroughOf (server : Server) : list SSLPassthroughBackend :=
  match List.find (fun loc => beq_string (Path loc) rootLocation) (Locations server) with
  | Some loc => [{| pt_Service := loc_Service loc; pt_Port := loc_Port loc;
                    pt_Backend := loc_Backend loc; pt_Hostname := Hostname server |}]
  | None => []
  end.

(** Lines 199-241: one server; the state is [hosts], [passUpstreams] and
    the servers visited. *)
Definition configServerStep
    (st : gset string * list SSLPassthroughBackend * list Server) (server : Server)
    : Go (gset string * list SSLPassthroughBackend * list Server) :=
  let '(hosts, passUpstreams, done) := st in
  locs ← updateServerLocations (Locations server);
  let server := server_withLocations server locs (RedirectFromToWWW server) in
  let hosts := fold_left (fun hs alias => {[alias]} ∪ hs) (Aliases server)
                 ({[Hostname server]} ∪ hosts) in
  if negb (SSLPassthrough server) then Ret (hosts, passUpstreams, done ++ [server])
  else Ret (hosts, passUpstreams ++ passthroughOf server, done ++ [server]).

(** Lines 193-253 *)
Definition getConfiguration (ingresses : list Ingress)
    : Go (gset string * list Server * Configuration) :=
  r ← getBackendServers L H n ingresses;
  let '(upstreams, servers, ingresses) := r in
  st ← foldGo configServerStep servers (∅, [], []);
  let '(hosts, passUpstreams, servers) := st in
  tcp ← getStreamServices (TCPConfigMapName (cfg n)) ProtocolTCP;
  udp ← getStreamServices (UDPConfigMapName (cfg n)) ProtocolUDP;
  snippets ← getStreamSnippets ingresses;
  Ret (hosts, servers,
       {| Backends := upstreams;
          Servers := servers;
          TCPEndpoints := tcp;
          UDPEndpoints := udp;
          PassthroughBackends := passUpstreams;
          BackendConfigChecksum := Checksum (GetBackendConfiguration (store n));
          ConfigurationChecksum := "";
          DefaultSSLCertificate := getDefaultSSLCertificate;
          StreamSnippets := snippets |}).

End Main.

(** ** The helpers, from the specification

    The three files call functions of the repository that are defined in
    other files.  The general results below hold for every
    [Helpers]; the concrete runs use the following reading of the
    specification. *)

(** Modelled from the spec: [ParseNameNS] (package k8s, defined in another file);
    section 4.6 and 6 give the reference format [<namespace>/<name>]. *)
Definition specParseNameNS (input : string) : option (string * string) :=
  match Split1 "/" input with
  | [ns; name] => Some (ns, name)
  | _ => None
  end.

(** Modelled from the spec: [upstreamName] (defined in another file); section 3:
    name = "<namespace>-<service>-<port>". *)
Definition specUpstreamName (namespace : string) (service : IngressServiceBackend) : string :=
  namespace +:+ "-" +:+ isb_Name service +:+ "-" +:+
  (if 0 <? isb_PortNumber service then Itoa (isb_PortNumber service)
   else isb_PortName service).

Definition servicePaths (ing : Ingress) : list (string * HTTPIngressPath) :=
  flat_map (fun rule => match HTTP rule with
                        | Some paths => map (fun p => (Host rule, p)) paths
                        | None => []
                        end) (Rules ing).

Definition annotationsOf (ing : Ingress) : option AnnotationsIngress := ParsedAnnotations ing.

(** Modelled from the spec: [createUpstreams] (defined in another file); section 4.2:
    one Backend per unique (namespace, service, port) referenced by any
    ingress path, seeded with the default Backend under its reserved name;
    section 4.4: the Backend of a canary ingress is marked noServer.  The
    sentences do not say how the endpoints of these Backends are filled;
    they are left empty here. *)
Definition specCreateUpstreams (defName : string) (n : NGINXController)
    (ingresses : list Ingress) (du : Backend) : GoMap Backend :=
  fold_left
    (fun (ups : GoMap Backend) (ing : Ingress) =>
       fold_left
         (fun (ups : GoMap Backend) (hp : string * HTTPIngressPath) =>
            match hp_BackendService hp.2 with
            | None => ups
            | Some svcb =>
                let name := specUpstreamName (ing_Namespace ing) svcb in
                match mapGet ups name with
                | Some _ => ups
                | None =>
                    let z := zeroBackend name in
                    ups ++ [(name,
                      {| b_Name := name;
                         b_Service := GetService (store n)
                                        (ing_Namespace ing +:+ "/" +:+ isb_Name svcb);
                         b_Port := if 0 <? isb_PortNumber svcb
                                   then FromInt (isb_PortNumber svcb)
                                   else FromString (isb_PortName svcb);
                         b_SSLPassthrough := false; b_Endpoints := [];
                         b_SessionAffinity :=
                           {| AffinityType := ""; AffinityMode := "";
                              CookieSessionAffinity_ :=
                                {| cookie_Name := ""; cookie_Expires := "";
                                   cookie_MaxAge := ""; cookie_Locations := Some ∅;
                                   cookie_Secure := false; cookie_Path := "";
                                   cookie_Domain := ""; cookie_SameSite := "";
                                   cookie_ConditionalSameSiteNone := false;
                                   cookie_ChangeOnFailure := false |} |};
                         b_UpstreamHashBy := b_UpstreamHashBy z;
                         b_LoadBalancing := "";
                         b_NoServer := match annotationsOf ing with
                                       | Some a => a_CanaryEnabled a
                                       | None => false
                                       end;
                         b_TrafficShapingPolicy := b_TrafficShapingPolicy z;
                         b_AlternativeBackends := [] |})]
                end
            end)
         (servicePaths ing) ups)
    ingresses [(defName, du)].

Definition zeroAuthTLS : AuthTLSConfig :=
  {| atls_Secret := ""; atls_CAFileName := ""; atls_VerifyClient := "";
     atls_AuthTLSError := "" |}.

Definition zeroProxySSL : ProxySSLConfig :=
  {| pssl_Secret := ""; pssl_CAFileName := ""; pssl_Verify := "" |}.

(** The catch-all root Location of a new Server. *)
Definition catchAllLocation (du : Backend) : Location :=
  {| Path := rootLocation; PathType_ := Some pathTypePrefix; IsDefBackend := true;
     Ingress_ := None; IngressPath := ""; loc_Backend := b_Name du;
     loc_Service := b_Service du; loc_Port := b_Port du; loc_UpstreamVhost := "";
     loc_Redirect := {| red_URL := ""; FromToWWW := false |};
     loc_Rewrite := {| rw_Target := ""; UseRegex := false |};
     loc_ProxySSL := zeroProxySSL; loc_ConfigurationSnippet := "";
     loc_DefaultBackend := None; DefaultBackendUpstreamName := "";
     loc_BackendProtocol := ""; loc_CustomHTTPErrors := [] |}.

Definition newServer (host : string) (du : Backend) (passthrough : bool)
    (aliases : list string) : Server :=
  {| Hostname := host; SSLPassthrough := passthrough; SSLCert_ := None;
     Locations := [catchAllLocation du]; Aliases := aliases;
     RedirectFromToWWW := false; CertificateAuth := zeroAuthTLS;
     ProxySSL := zeroProxySSL; ServerSnippet := ""; AuthTLSError := "" |}.

(** Modelled from the spec: [createServers] (defined in another file); section 4.2:
    one Server per distinct hostname referenced by any rule (plus the
    default-server entry), with an initial catch-all root Location to the
    default backend; section 3: a Server carries the passthrough flag and
    the aliases, here those of the first ingress that names the host.  The
    ingress model has no TLS block, so no certificate is attached. *)
Definition specCreateServers (defServer : string) (n : NGINXController)
    (ingresses : list Ingress) (upstreams : GoMap Backend) (du : Backend)
    : GoMap Server :=
  fold_left
    (fun (srvs : GoMap Server) (ing : Ingress) =>
       fold_left
         (fun (srvs : GoMap Server) (rule : IngressRule) =>
            let host := if beq_string (Host rule) "" then defServer else Host rule in
            match mapGet srvs host with
            | Some _ => srvs
            | None =>
                srvs ++ [(host, newServer host du
                                  (match annotationsOf ing with
                                   | Some a => a_SSLPassthrough a
                                   | None => false
                                   end)
                                  (match annotationsOf ing with
                                   | Some a => a_Aliases a
                                   | None => []
                                   end))]
            end)
         (Rules ing) srvs)
    ingresses [(defServer, newServer defServer du false [])].

(** Modelled from the spec: [dropSnippetDirectives] (defined in another file);
    section 6 names the AllowSnippetAnnotations switch of the backend
    configuration: without it the snippet annotations of an ingress are
    emptied. *)
Definition specDropSnippetDirectives (anns : AnnotationsIngress) (ingKey : string)
    : AnnotationsIngress :=
  {| a_BackendProtocol := a_BackendProtocol anns; a_Aliases := a_Aliases anns;
     a_CanaryEnabled := a_CanaryEnabled anns; a_CertificateAuth := a_CertificateAuth anns;
     a_ConfigurationSnippet := ""; a_CustomHTTPErrors := a_CustomHTTPErrors anns;
     a_DefaultBackend := a_DefaultBackend anns; a_ProxySSL := a_ProxySSL anns;
     a_Redirect := a_Redirect anns; a_Rewrite := a_Rewrite anns;
     a_ServerSnippet := ""; a_SessionAffinity := a_SessionAffinity anns;
     a_SSLPassthrough := a_SSLPassthrough anns; a_UpstreamVhost := a_UpstreamVhost anns;
     a_StreamSnippet := "" |}.

(** Modelled from the spec: [locationApplyAnnotations] (defined in another file);
    section 3: a Location carries the annotation-derived settings of its
    ingress. *)
Definition specLocationApplyAnnotations (loc : Location) (anns : AnnotationsIngress)
    : Location :=
  {| Path := Path loc; PathType_ := PathType_ loc; IsDefBackend := IsDefBackend loc;
     Ingress_ := Ingress_ loc; IngressPath := IngressPath loc;
     loc_Backend := loc_Backend loc; loc_Service := loc_Service loc;
     loc_Port := loc_Port loc; loc_UpstreamVhost := a_UpstreamVhost anns;
     loc_Redirect := a_Redirect anns; loc_Rewrite := a_Rewrite anns;
     loc_ProxySSL := a_ProxySSL anns;
     loc_ConfigurationSnippet := a_ConfigurationSnippet anns;
     loc_DefaultBackend := a_DefaultBackend anns;
     DefaultBackendUpstreamName := DefaultBackendUpstreamName loc;
     loc_BackendProtocol := a_BackendProtocol anns;
     loc_CustomHTTPErrors := a_CustomHTTPErrors anns |}.

(** Modelled from the spec: [nonCanaryIngressExists] (defined in another file);
    section 4.3: canary ingresses are merged only if at least one
    non-canary ingress exists for the set. *)
Definition specNonCanaryIngressExists (ingresses canaryIngresses : list Ingress) : bool :=
  (length canaryIngresses <? length ingresses)%nat.

(** Modelled from the spec: [shouldCreateUpstreamForLocationDefaultBackend]
    (defined in another file); section 4.3, pass 1: a Location with a per-location
    default-backend override, and the Backend it refers to. *)
Definition specShouldCreate (upstream : Backend) (location : Location) : bool :=
  beq_string (b_Name upstream) (loc_Backend location) &&
  bool_decide (loc_DefaultBackend location <> None).

Definition backend_withAlternative (b : Backend) (alt : string) : Backend :=
  {| b_Name := b_Name b; b_Service := b_Service b; b_Port := b_Port b;
     b_SSLPassthrough := b_SSLPassthrough b; b_Endpoints := b_Endpoints b;
     b_SessionAffinity := b_SessionAffinity b; b_UpstreamHashBy := b_UpstreamHashBy b;
     b_LoadBalancing := b_LoadBalancing b; b_NoServer := b_NoServer b;
     b_TrafficShapingPolicy := b_TrafficShapingPolicy b;
     b_AlternativeBackends := b_AlternativeBackends b ++ [alt] |}.

(** Modelled from the spec: [mergeAlternativeBackends] (defined in another file);
    section 4.4: for each Location the canary ingress contributes, its
    Backend is added to the AlternativeBackends of the Backend serving the
    same (hostname, path); nothing is merged without such a Backend. *)
Definition specMergeAlternativeBackends (defServer : string) (canaryIng : Ingress)
    (upstreams : GoMap Backend) (servers : GoMap Server)
    : GoMap Backend * GoMap Server :=
  (fold_left
     (fun (ups : GoMap Backend) (hp : string * HTTPIngressPath) =>
        match hp_BackendService hp.2 with
        | None => ups
        | Some svcb =>
            let alt := specUpstreamName (ing_Namespace canaryIng) svcb in
            let host := if beq_string hp.1 "" then defServer else hp.1 in
            let path := if beq_string (hp_Path hp.2) "" then rootLocation else hp_Path hp.2 in
            match mapGet servers host with
            | None => ups
            | Some server =>
                match List.find (fun loc => beq_string (Path loc) path) (Locations server) with
                | None => ups
                | Some loc =>
                    match mapGet ups (loc_Backend loc) with
                    | None => ups
                    | Some primary =>
                        if beq_string (b_Name primary) alt ||
                           bool_decide (alt ∈ b_AlternativeBackends primary) ||
                           IsDefBackend loc
                        then ups
                        else mapSet ups (loc_Backend loc) (backend_withAlternative primary alt)
                    end
                end
            end
        end)
     (servicePaths canaryIng) upstreams,
   servers).

(** The helpers as the specification describes them; [zone] is the zone
    of the controller pod. *)
Definition specHelpers (zone : string) : Helpers :=
  {| defUpstreamName := "upstream-default-backend";
     defServerName := "_";
     ProfilerPort := 10245;
     StatusPort := 10246;
     StreamPort := 10247;
     DefaultEndpoint := fun n =>
       {| Address := "127.0.0.1";
          Port := Itoa (match cfg_ListenPorts (cfg n) with
                        | Some lp => lp_Default lp
                        | None => 8181
                        end);
          Target := Some {| ref_Kind := ""; ref_Namespace := ""; ref_Name := "" |} |};
     getIngressPodZone := fun _ => zone;
     ParseNameNS := specParseNameNS;
     upstreamName := specUpstreamName;
     createUpstreams := specCreateUpstreams "upstream-default-backend";
     createServers := specCreateServers "_";
     dropSnippetDirectives := specDropSnippetDirectives;
     locationApplyAnnotations := specLocationApplyAnnotations;
     nonCanaryIngressExists := specNonCanaryIngressExists;
     mergeAlternativeBackends := specMergeAlternativeBackends "_";
     shouldCreateUpstreamForLocationDefaultBackend := specShouldCreate |}.

(** ** Concrete inputs *)

(** A small resolver library for the concrete runs: dotted-quad IPv4
    addresses, 127.0.0.0/8 as loopback, and lower-case names made of
    letters, digits, dots and dashes. *)
Definition sampleParseIP (s : string) : option (list Z) :=
  match Split1 "." s with
  | [a; b; c; d] =>
      match parseUnsigned a, parseUnsigned b, parseUnsigned c, parseUnsigned d with
      | Some a, Some b, Some c, Some d =>
          if forallb (fun x => x <=? 255) [a; b; c; d] then Some [a; b; c; d] else None
      | _, _, _, _ => None
      end
  | _ => None
  end.

Fixpoint sampleNameOk (s : string) : bool :=
  match s with
  | EmptyString => true
  | String a s' =>
      let c := N_of_ascii a in
      (((97 <=? c) && (c <=? 122)) || ((48 <=? c) && (c <=? 57)) ||
       (c =? 45) || (c =? 46))%N && sampleNameOk s'
  end.

Definition sampleNet : NetLib :=
  {| IP := list Z;
     ParseIP := sampleParseIP;
     IsLoopback := fun ip => match ip with 127 :: _ => true | _ => false end;
     IsDNS1123Subdomain := fun s =>
       if negb (beq_string s "") && sampleNameOk s then [] else ["invalid"] |}.

(** The rejection rule for an ExternalName target, in the words of the
    specification: the name "localhost", a loopback IP, or a name that is
    not an IP and, with one trailing dot removed, not a DNS-1123
    subdomain. *)
Definition rejectedExternalName (L : NetLib) (name : string) : bool :=
  match ParseIP L name with
  | Some ip => beq_string name "localhost" || IsLoopback L ip
  | None =>
      beq_string name "localhost" ||
      negb (bool_decide (IsDNS1123Subdomain L (TrimSuffix1 name ".") = []))
  end.

Definition externalNameService (name : string) : Service :=
  {| svc_Namespace := "ns"; svc_Name := "ext";
     Spec := {| Type_ := ServiceTypeExternalName; ExternalName := name;
                Ports := []; TrafficDistribution := None |} |}.

Definition httpPort : ServicePort :=
  {| sp_Name := "http"; sp_Protocol := ProtocolTCP; sp_Port := 80;
     sp_TargetPort := FromInt 8080 |}.

(** The key under which an Endpoint is recorded in
    [processedUpstreamServers]. *)
Definition hostPortKey (e : Endpoint) : string := JoinHostPort (Address e) (Port e).

(** The state of the resolver loop is consistent: the processed set holds
    the keys of the endpoints emitted so far, each once, and every port is
    a printed integer. *)
Definition Processed (st : list Endpoint * gset string) : Prop :=
  NoDup (map hostPortKey st.1) /\
  (forall k, k ∈ st.2 <-> k ∈ map hostPortKey st.1) /\
  Forall (fun e => exists p, Port e = Itoa p) st.1.

(** No nil pointer in the ports of the slices a lookup returns. *)
Definition wellFormedPort (p : EndpointPort) : Prop :=
  ep_Name p <> None /\ ep_Protocol p <> None /\ ep_Port p <> None.

Definition wellFormedSlices (lookup : string -> option (list EndpointSlice)) : Prop :=
  forall key epss eps p,
    lookup key = Some epss -> eps ∈ epss -> p ∈ eps_Ports eps -> wellFormedPort p.

(** Whether the zone filter lets an endpoint through. *)
Definition passesZone (useHints : bool) (zone : string) (ep : SliceEndpoint) : Prop :=
  useHints = false \/ exists zs, Hints ep = Some zs /\ hintedFor zone zs = true.

(** An emitted Endpoint comes from an endpoint of the list that is not
    marked not-ready. *)
Definition emittedFrom (eps : list SliceEndpoint) (e : Endpoint) : Prop :=
  exists ep, ep ∈ eps /\ Ready ep <> Some false /\
             Address e ∈ Addresses ep /\ Target e = TargetRef ep.

(** An endpoint with the unset readiness condition made explicit. *)
Definition readyDefault (ep : SliceEndpoint) : SliceEndpoint :=
  {| Addresses := Addresses ep; Ready := Some (default true (Ready ep));
     Hints := Hints ep; TargetRef := TargetRef ep |}.

Definition sliceReadyDefault (eps : EndpointSlice) : EndpointSlice :=
  {| eps_Ports := eps_Ports eps;
     eps_Endpoints := map readyDefault (eps_Endpoints eps) |}.

(** An emitted Endpoint comes from an endpoint of one of the slices. *)
Definition emittedFromSlices (epss : list EndpointSlice) (e : Endpoint) : Prop :=
  exists eps, eps ∈ epss /\ emittedFrom (eps_Endpoints eps) e.

(** A regular service "ns/svc" with one port, and slices for it. *)
Definition webService : Service :=
  {| svc_Namespace := "ns"; svc_Name := "svc";
     Spec := {| Type_ := "ClusterIP"; ExternalName := "";
                Ports := [httpPort]; TrafficDistribution := None |} |}.

Definition tcpPort80 : EndpointPort :=
  {| ep_Name := Some "http"; ep_Protocol := Some ProtocolTCP; ep_Port := Some 80 |}.

Definition mkEndpoint (address : string) (ready : option bool)
    (hints : option (list string)) : SliceEndpoint :=
  {| Addresses := [address]; Ready := ready; Hints := hints; TargetRef := None |}.

Definition lookupOf (epss : list EndpointSlice) (key : string)
    : option (list EndpointSlice) :=
  if beq_string key "ns/svc" then Some epss else None.

(** Two slices that both hold 10.0.0.1 port 80. *)
Definition dupSlices : list EndpointSlice :=
  [ {| eps_Ports := [tcpPort80];
       eps_Endpoints := [mkEndpoint "10.0.0.1" (Some true) None] |};
    {| eps_Ports := [tcpPort80];
       eps_Endpoints := [mkEndpoint "10.0.0.1" (Some true) None;
                         mkEndpoint "10.0.0.2" None None] |} ].

(** Slices for "ns/svc" in which every endpoint of the first slice has a
    zone hint and the endpoint of the second slice has none. *)
Definition zoneSlices : list EndpointSlice :=
  [ {| eps_Ports := [tcpPort80];
       eps_Endpoints := [mkEndpoint "10.0.0.1" (Some true) (Some ["zone-a"]);
                         mkEndpoint "10.0.0.2" (Some true) (Some ["zone-b"])] |};
    {| eps_Ports := [tcpPort80];
       eps_Endpoints := [mkEndpoint "10.0.0.3" (Some true) None] |} ].

Definition endpoint80 (address : string) : Endpoint :=
  {| Address := address; Port := "80"; Target := None |}.

(** A store over fixed tables. *)
Definition mkStore (services : GoMap Service) (configmaps : GoMap (GoMap string))
    (slices : string -> option (list EndpointSlice)) (allowSnippets : bool) : Store :=
  {| GetService := mapGet services;
     GetConfigMap := mapGet configmaps;
     GetServiceEndpointsSlices := slices;
     GetLocalSSLCert := fun _ => None;
     GetBackendConfiguration :=
       {| AllowSnippetAnnotations := allowSnippets; ProxySSLLocationOnly := false;
          Checksum := "checksum" |} |}.

Definition mkController (defaultService tcpConfigMap : string) (st : Store)
    : NGINXController :=
  {| cfg := {| DefaultService := defaultService;
               TCPConfigMapName := tcpConfigMap;
               UDPConfigMapName := "";
               cfg_DefaultSSLCertificate := "";
               cfg_ListenPorts := Some {| lp_HTTP := 80; lp_HTTPS := 443;
                                          lp_Health := 10254; lp_Default := 8181;
                                          lp_SSLProxy := 442 |};
               FakeCertificate := None;
               EnableTopologyAwareRouting := false |};
     store := st |}.

(** A default-backend service of type ExternalName that declares no
    port. *)
Definition portlessService : Service :=
  {| svc_Namespace := "ns"; svc_Name := "fallback";
     Spec := {| Type_ := ServiceTypeExternalName; ExternalName := "fallback.example.com";
                Ports := []; TrafficDistribution := None |} |}.

Definition portlessController : NGINXController :=
  mkController "ns/fallback"
    "" (mkStore [("ns/fallback", portlessService)] [] (fun _ => None) true).

(** The normalisation of locations, in the words of the specification. *)
Definition hasExactAt (locations : list Location) (path : string) : Prop :=
  exists l, l ∈ locations /\ PathType_ l = Some pathTypeExact /\ Path l = path.

Definition withTrailingSlash (path : string) : string :=
  if HasSuffix path "/" then path else path +:+ "/".

(** The original as a Prefix location, its path suffixed with "/" if
    missing. *)
Definition asPrefix (loc : Location) : Location :=
  location_withPath loc (withTrailingSlash (Path loc)) (Some pathTypePrefix) (Path loc).

(** The sibling Exact location at the unmodified path. *)
Definition asExact (loc : Location) : Location :=
  location_withPath loc (Path loc) (Some pathTypeExact) (Path loc).

(** What a location of [locations] becomes: a root location stays as it
    is; a non-root Prefix location without rewrite target and regex is
    split, or only normalised when an Exact location exists at its path. *)
Definition normalized (locations : list Location) (loc : Location)
    (piece : list Location) : Prop :=
  (Path loc = rootLocation -> piece = [loc]) /\
  (Path loc <> rootLocation -> PathType_ loc = Some pathTypePrefix ->
   rw_Target (loc_Rewrite loc) = "" -> UseRegex (loc_Rewrite loc) = false ->
   (~ hasExactAt locations (Path loc) -> piece = [asPrefix loc; asExact loc]) /\
   (hasExactAt locations (Path loc) -> piece = [asPrefix loc])).

Definition plainLocation (path : string) (pt : PathType) (backend : string) : Location :=
  {| Path := path; PathType_ := Some pt; IsDefBackend := false;
     Ingress_ := None; IngressPath := ""; loc_Backend := backend;
     loc_Service := None; loc_Port := FromInt 80; loc_UpstreamVhost := "";
     loc_Redirect := {| red_URL := ""; FromToWWW := false |};
     loc_Rewrite := {| rw_Target := ""; UseRegex := false |};
     loc_ProxySSL := zeroProxySSL; loc_ConfigurationSnippet := "";
     loc_DefaultBackend := None; DefaultBackendUpstreamName := "";
     loc_BackendProtocol := ""; loc_CustomHTTPErrors := [] |}.

(** Prefix "/", Prefix "/api", and "/v1" both as Prefix and as Exact. *)
Definition sampleLocations : list Location :=
  [ plainLocation "/" pathTypePrefix "ns-web-80";
    plainLocation "/api" pathTypePrefix "ns-api-80";
    plainLocation "/v1" pathTypePrefix "ns-v1-80";
    plainLocation "/v1" pathTypeExact "ns-v1-80" ].

(** A controller whose TCP configmap "ns/tcp" maps external ports to
    "ns/svc"; 10254 is the health-check port. *)
Definition streamController : NGINXController :=
  mkController "" "ns/tcp"
    (mkStore [("ns/svc", webService)]
       [("ns/tcp", [("9000", "ns/svc:80:PROXY"); ("10254", "ns/svc:80");
                    ("http", "ns/svc:80"); ("53", "ns/svc:http");
                    ("7000", "ns/svc:81")])]
       (lookupOf dupSlices) true).

(** The order a stable sort for [less] establishes between neighbours:
    the later element is not less than the earlier one. *)
Definition notAfter {A} (less : A -> A -> bool) (a b : A) : Prop := less b a = false.

(** The L4Service an entry of the configmap yields, if any. *)
Definition entryResult (m : Go (option L4Service)) : option L4Service :=
  match m with
  | Ret o => o
  | Panic => None
  end.

(** Ingresses for the concrete runs of the assembler. *)
Definition zeroAnnotations : AnnotationsIngress :=
  {| a_BackendProtocol := ""; a_Aliases := []; a_CanaryEnabled := false;
     a_CertificateAuth := zeroAuthTLS; a_ConfigurationSnippet := "";
     a_CustomHTTPErrors := []; a_DefaultBackend := None; a_ProxySSL := zeroProxySSL;
     a_Redirect := {| red_URL := ""; FromToWWW := false |};
     a_Rewrite := {| rw_Target := ""; UseRegex := false |};
     a_ServerSnippet := "";
     a_SessionAffinity :=
       {| sa_Type := ""; sa_Mode := "";
          sa_Cookie := {| sac_Name := ""; sac_Expires := ""; sac_MaxAge := "";
                          sac_Secure := false; sac_Path := ""; sac_Domain := "";
                          sac_SameSite := ""; sac_ConditionalSameSiteNone := false;
                          sac_ChangeOnFailure := false |} |};
     a_SSLPassthrough := false; a_UpstreamVhost := ""; a_StreamSnippet := "" |}.

Definition withSnippet (snippet : string) : AnnotationsIngress :=
  {| a_BackendProtocol := ""; a_Aliases := []; a_CanaryEnabled := false;
     a_CertificateAuth := zeroAuthTLS; a_ConfigurationSnippet := "";
     a_CustomHTTPErrors := []; a_DefaultBackend := None; a_ProxySSL := zeroProxySSL;
     a_Redirect := a_Redirect zeroAnnotations; a_Rewrite := a_Rewrite zeroAnnotations;
     a_ServerSnippet := ""; a_SessionAffinity := a_SessionAffinity zeroAnnotations;
     a_SSLPassthrough := false; a_UpstreamVhost := ""; a_StreamSnippet := snippet |}.

Definition withPassthrough : AnnotationsIngress :=
  {| a_BackendProtocol := ""; a_Aliases := []; a_CanaryEnabled := false;
     a_CertificateAuth := zeroAuthTLS; a_ConfigurationSnippet := "";
     a_CustomHTTPErrors := []; a_DefaultBackend := None; a_ProxySSL := zeroProxySSL;
     a_Redirect := a_Redirect zeroAnnotations; a_Rewrite := a_Rewrite zeroAnnotations;
     a_ServerSnippet := ""; a_SessionAffinity := a_SessionAffinity zeroAnnotations;
     a_SSLPassthrough := true; a_UpstreamVhost := ""; a_StreamSnippet := "" |}.

Definition pathTo (path : string) (pt : PathType) (service : string) (port : Z)
    : HTTPIngressPath :=
  {| hp_Path := path; hp_PathType := Some pt;
     hp_BackendService := Some {| isb_Name := service; isb_PortName := "";
                                  isb_PortNumber := port |} |}.

Definition mkIngress (name host : string) (paths : list HTTPIngressPath)
    (anns : AnnotationsIngress) : Ingress :=
  {| ing_Namespace := "ns"; ing_Name := name;
     Rules := [{| Host := host; HTTP := Some paths |}];
     ParsedAnnotations := Some anns |}.

(** A controller without default service and without stream configmaps. *)
Definition plainController : NGINXController :=
  mkController "" "" (mkStore [] [] (fun _ => None) true).

(** The older ingress declares "/a" both as Exact and as Prefix for svc1;
    the later one declares "/a" as Prefix for svc2. *)
Definition olderIngress : Ingress :=
  mkIngress "older" "example.com"
    [pathTo "/a" pathTypeExact "svc1" 80; pathTo "/a" pathTypePrefix "svc1" 80]
    zeroAnnotations.

Definition laterIngress : Ingress :=
  mkIngress "later" "example.com" [pathTo "/a" pathTypePrefix "svc2" 80] zeroAnnotations.

(** An ingress with the SSL-passthrough annotation and a root path. *)
Definition passthroughIngress : Ingress :=
  mkIngress "secure" "secure.example.com" [pathTo "/" pathTypePrefix "svc" 443]
    withPassthrough.

(** Two ingresses without rules that carry stream snippets. *)
Definition snippetIngressA : Ingress :=
  {| ing_Namespace := "ns"; ing_Name := "a"; Rules := [];
     ParsedAnnotations := Some (withSnippet "server { listen 7000; }") |}.

Definition snippetIngressB : Ingress :=
  {| ing_Namespace := "ns"; ing_Name := "b"; Rules := [];
     ParsedAnnotations := Some (withSnippet "server { listen 7001; }") |}.

(** The servers and backends of a pass, reduced to what the properties are
    about. *)
Definition locationSummary (r : Go (list Backend * list Server * list Ingress))
    (host : string) : list (string * option PathType * string) :=
  match r with
  | Ret (_, servers, _) =>
      flat_map (fun s => if beq_string (Hostname s) host
                         then map (fun l => (Path l, PathType_ l, loc_Backend l)) (Locations s)
                         else []) servers
  | Panic => []
  end.

Definition backendSummary (r : Go (list Backend * list Server * list Ingress))
    : list (string * bool) :=
  match r with
  | Ret (backends, _, _) => map (fun b => (b_Name b, b_SSLPassthrough b)) backends
  | Panic => []
  end.

Definition passthroughServers (r : Go (list Backend * list Server * list Ingress))
    : list string :=
  match r with
  | Ret (_, servers, _) => map Hostname (filter (fun s => SSLPassthrough s = true) servers)
  | Panic => []
  end.

(** The ingress object as the assembler loop leaves it: the snippet
    annotations are dropped unless the backend configuration allows them.
    [None] for an ingress without parsed annotations, on which the loop
    panics. *)
Definition settleIngress (H : Helpers) (n : NGINXController) (ing : Ingress)
    : option Ingress :=
  match ParsedAnnotations ing with
  | Some anns =>
      Some (ingress_withAnnotations ing
              (if negb (AllowSnippetAnnotations (GetBackendConfiguration (store n)))
               then dropSnippetDirectives H anns
                      (MetaNamespaceKey (ing_Namespace ing) (ing_Name ing))
               else anns))
  | None => None
  end.

(** The stream snippet an ingress contributes, if it has one. *)
Definition snippetOf (ing : Ingress) : option string :=
  match ParsedAnnotations ing with
  | Some anns =>
      if beq_string (a_StreamSnippet anns) "" then None else Some (a_StreamSnippet anns)
  | None => None
  end.

Definition snippetsOf (r : Go (gset string * list Server * Configuration)) : list string :=
  match r with
  | Ret (_, _, c) => StreamSnippets c
  | Panic => []
  end.

(** Two ingresses that declare the same path and type for different
    services. *)
Definition firstIngress : Ingress :=
  mkIngress "first" "example.com" [pathTo "/a" pathTypePrefix "svc1" 80] zeroAnnotations.

Definition secondIngress : Ingress :=
  mkIngress "second" "example.com" [pathTo "/a" pathTypePrefix "svc2" 80] zeroAnnotations.

(** One slice with one ready endpoint without zone hints. *)
Definition singleSlice : list EndpointSlice :=
  [ {| eps_Ports := [tcpPort80];
       eps_Endpoints := [mkEndpoint "10.0.0.5" (Some true) None] |} ].

(** The target port taken for one slice port (lines 67-87), if any: the
    slice port is of the wanted protocol, and the port is not zero and is
    either the number the slice port declares, when the service port is
    unnamed or the two names agree, or the numeric target port of the
    service, when the slice port declares zero or is named otherwise. *)
Definition candidateOf (port : ServicePort) (proto : Protocol) (epPort : EndpointPort)
    (p : Z) : Prop :=
  ep_Protocol epPort = Some proto /\ p <> 0 /\
  ((ep_Port epPort = Some p /\
    (sp_Name port = "" \/ ep_Name epPort = Some (sp_Name port))) \/
   (sp_TargetPort port = FromInt p /\
    ((ep_Port epPort = Some 0 /\
      (sp_Name port = "" \/ ep_Name epPort = Some (sp_Name port))) \/
     (sp_Name port <> "" /\ ep_Name epPort <> Some (sp_Name port))))).

(** The zone filter is off for a slice (lines 89-123): no zone is
    preferred, or an endpoint of the slice has no hint, or the service
    prefers close endpoints and the slice has none for the zone. *)
Definition filterOff (utd : bool) (zone : string) (eps : EndpointSlice) : Prop :=
  zone = emptyZone \/
  (exists ep, ep ∈ eps_Endpoints eps /\ lacksHint ep = true) \/
  (utd = true /\ foundEndpointsForZone zone eps = false).

(** An emitted Endpoint comes from an endpoint that is hinted for the
    zone whenever the filter is on for its slice. *)
Definition emittedForZone (utd : bool) (zone : string) (epss : list EndpointSlice)
    (e : Endpoint) : Prop :=
  exists eps ep,
    eps ∈ epss /\ ep ∈ eps_Endpoints eps /\
    Address e ∈ Addresses ep /\ Target e = TargetRef ep /\
    (useTopologyHints utd zone eps = true ->
     exists zs, Hints ep = Some zs /\ hintedFor zone zs = true).

(** A slice with a port of the name of the service port, a port named
    otherwise and a port of another protocol. *)
Definition namedPort (name : string) (number : Z) : EndpointPort :=
  {| ep_Name := Some name; ep_Protocol := Some ProtocolTCP; ep_Port := Some number |}.

Definition mixedPortsSlice : EndpointSlice :=
  {| eps_Ports := [namedPort "http" 80; namedPort "metrics" 9090;
                   {| ep_Name := Some "dns"; ep_Protocol := Some ProtocolUDP;
                      ep_Port := Some 53 |}];
     eps_Endpoints := [mkEndpoint "10.0.0.1" None None] |}.

(** A controller whose default service is "ns/svc", resolved through the
    slices of [dupSlices]. *)
Definition defaultServiceController : NGINXController :=
  mkController "ns/svc" ""
    (mkStore [("ns/svc", webService)] [] (lookupOf dupSlices) true).

(** What [updateServerLocations] may turn a location into: the location
    itself when it is a root location, and otherwise the location with the
    original path recorded, the path as it was or with a slash appended,
    and possibly another path type; nothing else changes. *)
Definition derivedFrom (l o : Location) : Prop :=
  (Path l = rootLocation -> o = l) /\
  o = location_withPath l (Path o) (PathType_ o) (IngressPath o) /\
  (Path o = Path l \/ Path o = Path l +:+ "/") /\
  (Path l <> rootLocation -> IngressPath o = Path l).

(** A location whose [PathType] pointer is nil. *)
Definition untypedLocation (path : string) : Location :=
  location_withPath (plainLocation path pathTypePrefix "ns-web-80") path None "".

(** An ingress whose annotations were not parsed. *)
Definition bareIngress : Ingress :=
  {| ing_Namespace := "ns"; ing_Name := "bare"; Rules := []; ParsedAnnotations := None |}.

Definition plainIngress : Ingress :=
  {| ing_Namespace := "ns"; ing_Name := "plain"; Rules := [];
     ParsedAnnotations := Some zeroAnnotations |}.

(** The controller with the data of one configmap replaced: the same
    entries in another order are another run of the range statement. *)
Definition withConfigMap (n : NGINXController) (name : string) (data : GoMap string)
    : NGINXController :=
  {| cfg := cfg n;
     store :=
       {| GetService := GetService (store n);
          GetConfigMap := fun key => if beq_string key name then Some data
                                     else GetConfigMap (store n) key;
          GetServiceEndpointsSlices := GetServiceEndpointsSlices (store n);
          GetLocalSSLCert := GetLocalSSLCert (store n);
          GetBackendConfiguration := GetBackendConfiguration (store n) |} |}.

(** The L4Service read off one entry [port: namespace/name:port[:PROXY[:PROXY]]]
    of the configmap (lines 371-462): the key parses to the external port;
    the reference names the service, which is found, and the port token,
    which is kept as a string; the endpoints are those resolved for that
    service and token, at least one; the proxy-protocol flags are set
    exactly for TCP and the option PROXY in third (decode) and, of four
    fields, in fourth place (encode). *)
Definition resolvedFrom (L : NetLib) (H : Helpers) (n : NGINXController)
    (proto : Protocol) (e : string * string) (s : L4Service) : Prop :=
  exists nsName svcPort opts svcNs svcName svc,
    Atoi e.1 = Some (l4s_Port s) /\
    Split1 ":" e.2 = nsName :: svcPort :: opts /\
    ParseNameNS H nsName = Some (svcNs, svcName) /\
    GetService (store n) nsName = Some svc /\
    l4s_Service s = Some svc /\
    l4_Port (l4s_Backend s) = FromString svcPort /\
    l4_Name (l4s_Backend s) = svcName /\
    l4_Namespace (l4s_Backend s) = svcNs /\
    l4_Protocol (l4s_Backend s) = proto /\
    streamEndpoints L H n svc svcPort proto = Ret (l4s_Endpoints s) /\
    l4s_Endpoints s <> [] /\
    (Decode (l4_ProxyProtocol (l4s_Backend s)) = true <->
     proto = ProtocolTCP /\ exists o rest, opts = o :: rest /\ EqualFold o "PROXY" = true) /\
    (Encode (l4_ProxyProtocol (l4s_Backend s)) = true <->
     proto = ProtocolTCP /\ exists o1 o2, opts = [o1; o2] /\ EqualFold o2 "PROXY" = true).

(** The order of the locations of a server after lines 419-425: a location
    never comes after one with a shorter path, and of two locations with
    paths of the same length the one with the lexicographically smaller
    path does not come first. *)
Definition longestFirst (a b : Location) : Prop :=
  (String.length (Path b) <= String.length (Path a))%nat /\
  (String.length (Path a) = String.length (Path b) ->
   string_lt (Path a) (Path b) = false).

(** Descending by the key [k], and related by [R1] among equal keys. *)
Definition byKeyThen {A} (k : A -> nat) (R1 : A -> A -> Prop) (a b : A) : Prop :=
  (k b <= k a)%nat /\ (k a = k b -> R1 a b).

(** The passthrough route a server contributes: that of its first root
    location, when the server is a passthrough server. *)
Definition passthroughRoutes (server : Server) : list SSLPassthroughBackend :=
  if SSLPassthrough server then passthroughOf server else [].

Definition serversOf (r : Go (gset string * list Server * Configuration)) : list Server :=
  match r with
  | Ret (_, servers, _) => servers
  | Panic => []
  end.

(** What the merge loop of lines 159-343 may do to a Server: identity
    stays, the redirect flag is only ever set, the mutual-TLS and
    backend-TLS settings and the TLS error are kept once they are set,
    locations are only added, and a location that is bound to a backend
    other than the default stays where and as it is. *)
Definition enriches (s s' : Server) : Prop :=
  Hostname s' = Hostname s /\
  SSLPassthrough s' = SSLPassthrough s /\
  SSLCert_ s' = SSLCert_ s /\
  Aliases s' = Aliases s /\
  ServerSnippet s' = ServerSnippet s /\
  (RedirectFromToWWW s = true -> RedirectFromToWWW s' = true) /\
  (AuthTLSError s <> "" -> AuthTLSError s' = AuthTLSError s) /\
  (atls_CAFileName (CertificateAuth s) <> "" -> CertificateAuth s' = CertificateAuth s) /\
  (pssl_CAFileName (ProxySSL s) <> "" -> ProxySSL s' = ProxySSL s) /\
  (length (Locations s) <= length (Locations s'))%nat /\
  (forall i loc, Locations s !! i = Some loc -> IsDefBackend loc = false ->
                 Locations s' !! i = Some loc).

(** What the merge loop may do to a Backend: only the session affinity
    changes; its type and mode are kept once they are set, and the paths
    recorded for a host in the cookie map are only extended. *)
Definition affinityOnly (b b' : Backend) : Prop :=
  b' = backend_withSessionAffinity b (b_SessionAffinity b') /\
  (AffinityType (b_SessionAffinity b) <> "" ->
   AffinityType (b_SessionAffinity b') = AffinityType (b_SessionAffinity b)) /\
  (AffinityMode (b_SessionAffinity b) <> "" ->
   AffinityMode (b_SessionAffinity b') = AffinityMode (b_SessionAffinity b)) /\
  (forall locs key paths,
     cookie_Locations (CookieSessionAffinity_ (b_SessionAffinity b)) = Some locs ->
     locs !! key = Some paths ->
     exists locs' more,
       cookie_Locations (CookieSessionAffinity_ (b_SessionAffinity b')) = Some locs' /\
       locs' !! key = Some (paths ++ more)).

(** Two registries with the same keys in the same order whose values are
    related. *)
Definition registryRel {V} (R : V -> V -> Prop) (m m' : GoMap V) : Prop :=
  Forall2 (fun e e' => e.1 = e'.1 /\ R e.2 e'.2) m m'.

(** The state the merge loop starts from, with the registries the helpers
    build. *)
Definition initialState (H : Helpers) (n : NGINXController) (ingresses : list Ingress)
    (du : Backend) : AssemblerState :=
  {| as_servers := createServers H n ingresses (createUpstreams H n ingresses du) du;
     as_upstreams := createUpstreams H n ingresses du;
     as_canary := []; as_ingresses := [] |}.

(** Annotations that ask for cookie affinity. *)
Definition withCookieAffinity : AnnotationsIngress :=
  {| a_BackendProtocol := ""; a_Aliases := []; a_CanaryEnabled := false;
     a_CertificateAuth := zeroAuthTLS; a_ConfigurationSnippet := "";
     a_CustomHTTPErrors := []; a_DefaultBackend := None; a_ProxySSL := zeroProxySSL;
     a_Redirect := a_Redirect zeroAnnotations; a_Rewrite := a_Rewrite zeroAnnotations;
     a_ServerSnippet := "";
     a_SessionAffinity :=
       {| sa_Type := "cookie"; sa_Mode := "balanced";
          sa_Cookie := sa_Cookie (a_SessionAffinity zeroAnnotations) |};
     a_SSLPassthrough := false; a_UpstreamVhost := ""; a_StreamSnippet := "" |}.

(** Two ingresses with cookie affinity that route two paths of one host to
    the same service. *)
Definition cookieIngresses : list Ingress :=
  [ mkIngress "shop" "example.com" [pathTo "/a" pathTypePrefix "svc1" 80] withCookieAffinity;
    mkIngress "cart" "example.com" [pathTo "/b" pathTypePrefix "svc1" 80] withCookieAffinity ].

(** The default Backend of a controller without default service. *)
Definition plainDefaultUpstream : Backend :=
  let name := defUpstreamName (specHelpers "") in
  backend_withEndpoints (zeroBackend name) name
    [DefaultEndpoint (specHelpers "") plainController] None.

(** What the pass of lines 351-415 may do to a Backend of the registry:
    nothing, or mark it for SSL passthrough (never the default Backend). *)
Definition marked (defName : string) (u u' : Backend) : Prop :=
  u' = u \/ (b_Name u <> defName /\ u' = backend_withSSLPassthrough u true).

(** A clone made for a custom default backend at lines 383-388: a copy of
    the Backend [u] under a name of the form
    custom-default-backend-<namespace>-<name> with endpoints of its own, at
    least one. *)
Definition cloneOf (u c : Backend) : Prop :=
  c = backend_withEndpoints u (b_Name c) (b_Endpoints c) (b_Service u) /\
  b_Endpoints c <> [] /\
  exists ns name, b_Name c = "custom-default-backend-" +:+ ns +:+ "-" +:+ name.

(** [name] is the name of a Backend of [bs] with at least one endpoint. *)
Definition usable (bs : list Backend) (name : string) : Prop :=
  exists c, c ∈ bs /\ b_Name c = name /\ b_Endpoints c <> [].

(** What the pass may do to a Location: change [Backend] and
    [DefaultBackendUpstreamName], and only to names usable in [bs]. *)
Definition rerouted (bs : list Backend) (l l' : Location) : Prop :=
  l' = location_withBackend l (loc_Backend l') (DefaultBackendUpstreamName l') /\
  (loc_Backend l' = loc_Backend l \/ usable bs (loc_Backend l')) /\
  (DefaultBackendUpstreamName l' = DefaultBackendUpstreamName l \/
   usable bs (DefaultBackendUpstreamName l')).

(** What the pass may do to a Server: reroute its locations, one by one. *)
Definition repointed (bs : list Backend) (s s' : Server) : Prop :=
  s' = server_withLocations s (Locations s') (RedirectFromToWWW s) /\
  Forall2 (rerouted bs) (Locations s) (Locations s').

(** A registry with the default Backend and one Backend without endpoints,
    and a server whose root location refers to that Backend and carries a
    default-backend override to the service ns/svc. *)
Definition overrideUpstreams : GoMap Backend :=
  [ ("upstream-default-backend", plainDefaultUpstream);
    ("ns-web-80", zeroBackend "ns-web-80") ].

Definition overrideServers : GoMap Server :=
  [ ("example.com",
     {| Hostname := "example.com"; SSLPassthrough := false; SSLCert_ := None;
        Locations :=
          [ {| Path := "/"; PathType_ := Some pathTypePrefix; IsDefBackend := false;
               Ingress_ := None; IngressPath := ""; loc_Backend := "ns-web-80";
               loc_Service := None; loc_Port := FromInt 80; loc_UpstreamVhost := "";
               loc_Redirect := {| red_URL := ""; FromToWWW := false |};
               loc_Rewrite := {| rw_Target := ""; UseRegex := false |};
               loc_ProxySSL := zeroProxySSL; loc_ConfigurationSnippet := "";
               loc_DefaultBackend := Some webService; DefaultBackendUpstreamName := "";
               loc_BackendProtocol := ""; loc_CustomHTTPErrors := [] |};
            plainLocation "/api" pathTypePrefix "ns-web-80" ];
        Aliases := []; RedirectFromToWWW := false;
        CertificateAuth := zeroAuthTLS; ProxySSL := zeroProxySSL;
        ServerSnippet := ""; AuthTLSError := "" |}) ].

(** Two runs of a range statement over the same map visit the same
    entries, in an order of their own. *)
Definition sameEntries {V} (m m' : option (GoMap V)) : Prop :=
  match m, m' with
  | Some d, Some d' => Permutation d d'
  | None, None => True
  | _, _ => False
  end.

(** Two passes over the same snapshot of the store: the configuration and
    every lookup are the same, and the data of a configmap, a Go map, is
    the same up to the order in which a range statement visits it. *)
Definition sameSnapshot (n n' : NGINXController) : Prop :=
  cfg n' = cfg n /\
  GetService (store n') = GetService (store n) /\
  GetServiceEndpointsSlices (store n') = GetServiceEndpointsSlices (store n) /\
  GetLocalSSLCert (store n') = GetLocalSSLCert (store n) /\
  GetBackendConfiguration (store n') = GetBackendConfiguration (store n) /\
  forall name, sameEntries (GetConfigMap (store n) name) (GetConfigMap (store n') name).

(** A TCP configmap with two keys that parse to the same external port,
    visited in the two possible orders. *)
Definition twinPortsController : NGINXController :=
  withConfigMap streamController "ns/tcp"
    [("9000", "ns/svc:80"); ("09000", "ns/svc:80:PROXY")].

Definition twinPortsReversed : NGINXController :=
  withConfigMap streamController "ns/tcp"
    [("09000", "ns/svc:80:PROXY"); ("9000", "ns/svc:80")].

(** The TCP services of a pass, reduced to external port and decode
    flag. *)
Definition tcpSummary (r : Go (gset string * list Server * Configuration))
    : list (Z * bool) :=
  match r with
  | Ret (_, _, c) =>
      map (fun s => (l4s_Port s, Decode (l4_ProxyProtocol (l4s_Backend s))))
        (TCPEndpoints c)
  | Panic => []
  end.

(** * Properties *)

(** ** The Go monad and its loops *)

Lemma bind_Ret {A B} (m : Go A) (f : A -> Go B) (b : B) :
  (m ≫= f) = Ret b -> exists a, m = Ret a /\ f a = Ret b.
Proof. destruct m as [a|]; simpl; [eauto | discriminate]. Qed.

Lemma foldGo_app {A S} (f : S -> A -> Go S) (l1 l2 : list A) (s : S) :
  foldGo f (l1 ++ l2) s = (foldGo f l1 s ≫= foldGo f l2).
Proof.
  revert s. induction l1 as [|a l1 IH]; intros s; simpl; [reflexivity|].
  destruct (f s a) as [s'|]; simpl; [apply IH | reflexivity].
Qed.

(** An invariant of the loop body holds after the loop. *)
Lemma foldGo_invariant {A S} (P : S -> Prop) (f : S -> A -> Go S) (l : list A) :
  (forall s a s', a ∈ l -> P s -> f s a = Ret s' -> P s') ->
  forall s s', P s -> foldGo f l s = Ret s' -> P s'.
Proof.
  induction l as [|a l IH]; intros Hstep s s' Hs Hrun; simpl in Hrun.
  - congruence.
  - apply bind_Ret in Hrun as (s1 & H1 & H2).
    apply (IH (fun s a s' Ha => Hstep s a s' (list_elem_of_further _ _ _ Ha)) s1 s');
      [|exact H2].
    eapply Hstep; [apply list_elem_of_here | exact Hs | exact H1].
Qed.

(** A loop whose body never panics returns. *)
Lemma foldGo_returns {A S} (f : S -> A -> Go S) (l : list A) :
  (forall s a, a ∈ l -> returns (f s a)) -> forall s, returns (foldGo f l s).
Proof.
  induction l as [|a l IH]; intros Hstep s; simpl.
  - eexists; reflexivity.
  - destruct (Hstep s a (list_elem_of_here _ _)) as [s1 ->]. simpl.
    apply IH. intros s0 a0 Ha. apply Hstep. by apply list_elem_of_further.
Qed.

(** A loop of pure steps is a left fold. *)
Lemma foldGo_pure {A S} (f : S -> A -> Go S) (g : S -> A -> S) (l : list A) :
  (forall s a, a ∈ l -> f s a = Ret (g s a)) ->
  forall s, foldGo f l s = Ret (fold_left g l s).
Proof.
  induction l as [|a l IH]; intros Hstep s; simpl; [reflexivity|].
  rewrite (Hstep s a (list_elem_of_here _ _)). simpl.
  apply IH. intros s0 a0 Ha. apply Hstep. by apply list_elem_of_further.
Qed.

(** ** ExternalName services *)

Lemma length_zero_nil {A} (l : list A) : (length l =? 0)%nat = bool_decide (l = []).
Proof. destruct l; reflexivity. Qed.

(** C8: for an ExternalName service the resolver returns, without a
    panic and whatever the slice lookup would answer, the empty list when
    the external name is "localhost", a loopback IP or (when not an IP) not
    a DNS-1123 subdomain after one trailing dot is removed, and otherwise
    the single Endpoint made of the external name and the numeric value of
    the declared target port. *)
Theorem getEndpointsFromSlices_externalName (L : NetLib) (s : Service)
    (port : ServicePort) (proto : Protocol) (zone : string)
    (lookup : string -> option (list EndpointSlice)) :
  Type_ (Spec s) = ServiceTypeExternalName ->
  getEndpointsFromSlices L (Some s) (Some port) proto zone lookup =
    Ret (if rejectedExternalName L (ExternalName (Spec s)) then []
         else [{| Address := ExternalName (Spec s);
                  Port := Itoa (IntValue (sp_TargetPort port));
                  Target := None |}])
  /\ (forall lookup',
        getEndpointsFromSlices L (Some s) (Some port) proto zone lookup' =
        getEndpointsFromSlices L (Some s) (Some port) proto zone lookup).
Proof.
  intros Hty. unfold getEndpointsFromSlices, rejectedExternalName, isLocalhostName.
  rewrite Hty. unfold beq_string at 1.
  rewrite bool_decide_eq_true_2 by reflexivity.
  split; [|reflexivity].
  destruct (ParseIP L (ExternalName (Spec s))) as [ip|].
  - destruct (beq_string (ExternalName (Spec s)) "localhost" || IsLoopback L ip);
      reflexivity.
  - rewrite orb_false_r, length_zero_nil.
    destruct (beq_string (ExternalName (Spec s)) "localhost"); simpl; [reflexivity|].
    destruct (bool_decide (IsDNS1123Subdomain L _ = [])); reflexivity.
Qed.

Lemma getEndpointsFromSlices_externalName_witness :
  getEndpointsFromSlices sampleNet (Some (externalNameService "localhost"))
    (Some httpPort) ProtocolTCP "" (fun _ => None) = Ret []
  /\ getEndpointsFromSlices sampleNet (Some (externalNameService "127.0.0.1"))
       (Some httpPort) ProtocolTCP "" (fun _ => None) = Ret []
  /\ getEndpointsFromSlices sampleNet (Some (externalNameService "Bad_Name."))
       (Some httpPort) ProtocolTCP "" (fun _ => None) = Ret []
  /\ getEndpointsFromSlices sampleNet (Some (externalNameService "db.example.com."))
       (Some httpPort) ProtocolTCP "" (fun _ => None) =
     Ret [{| Address := "db.example.com."; Port := "8080"; Target := None |}].
Proof.
  split; [|split; [|split]].
  - exact (proj1 (getEndpointsFromSlices_externalName sampleNet
             (externalNameService "localhost") httpPort ProtocolTCP "" (fun _ => None)
             eq_refl)).
  - exact (proj1 (getEndpointsFromSlices_externalName sampleNet
             (externalNameService "127.0.0.1") httpPort ProtocolTCP "" (fun _ => None)
             eq_refl)).
  - exact (proj1 (getEndpointsFromSlices_externalName sampleNet
             (externalNameService "Bad_Name.") httpPort ProtocolTCP "" (fun _ => None)
             eq_refl)).
  - exact (proj1 (getEndpointsFromSlices_externalName sampleNet
             (externalNameService "db.example.com.") httpPort ProtocolTCP ""
             (fun _ => None) eq_refl)).
Defined.

(** ** Strings: the key of the processed set *)

Lemma string_app_cons (a : ascii) (s t : string) : String a s +:+ t = String a (s +:+ t).
Proof. reflexivity. Qed.

Lemma string_app_nil (t : string) : "" +:+ t = t.
Proof. reflexivity. Qed.

Lemma containsByte_app c s1 s2 :
  containsByte c (s1 +:+ s2) = containsByte c s1 || containsByte c s2.
Proof.
  induction s1 as [|a s1 IH]; [reflexivity|].
  rewrite string_app_cons. cbn [containsByte].
  destruct (Ascii.eqb a c); [reflexivity | exact IH].
Qed.

Lemma to_int_not_nil z :
  Z.to_int z <> Decimal.Pos Decimal.Nil /\ Z.to_int z <> Decimal.Neg Decimal.Nil.
Proof.
  split; intros E; pose proof (DecimalZ.of_to z) as Hz; rewrite E in Hz;
    simpl in Hz; subst z; discriminate E.
Qed.

Lemma Itoa_inj a b : Itoa a = Itoa b -> a = b.
Proof.
  unfold Itoa. intros E.
  destruct (to_int_not_nil a) as [Ha1 Ha2], (to_int_not_nil b) as [Hb1 Hb2].
  pose proof (NilZero.isi _ Ha1 Ha2) as Ia.
  pose proof (NilZero.isi _ Hb1 Hb2) as Ib.
  rewrite E in Ia. rewrite Ia in Ib. injection Ib as Ib.
  by apply DecimalZ.to_int_inj.
Qed.

Lemma uint_no_byte c d :
  (N_of_ascii c <? 48)%N || (57 <? N_of_ascii c)%N = true ->
  containsByte c (NilEmpty.string_of_uint d) = false.
Proof.
  intros Hc. induction d; cbn [NilEmpty.string_of_uint containsByte]; try reflexivity;
  rewrite IHd;
  match goal with |- (if Ascii.eqb ?x c then _ else _) = _ =>
    destruct (Ascii.eqb_spec x c) as [<-|]; [vm_compute in Hc; discriminate Hc | reflexivity] end.
Qed.

Lemma Itoa_no_colon z : containsByte ":" (Itoa z) = false.
Proof.
  unfold Itoa, NilZero.string_of_int, NilZero.string_of_uint.
  destruct (Z.to_int z) as [d|d]; destruct d; cbn [containsByte]; try reflexivity;
    apply (uint_no_byte ":"); reflexivity.
Qed.

(** Splitting at the last colon. *)
Lemma app_colon_inj h1 h2 p1 p2 :
  containsByte ":" p1 = false -> containsByte ":" p2 = false ->
  h1 +:+ String ":" p1 = h2 +:+ String ":" p2 -> h1 = h2 /\ p1 = p2.
Proof.
  intros H1 H2. revert h2.
  induction h1 as [|a h1 IH]; intros [|b h2] E;
    rewrite ?string_app_cons, ?string_app_nil in E.
  - injection E as E. by split.
  - injection E as Ec E.
    rewrite E, containsByte_app in H1. cbn in H1. by rewrite orb_true_r in H1.
  - injection E as Ec E.
    rewrite <- E, containsByte_app in H2. cbn in H2. by rewrite orb_true_r in H2.
  - injection E as Ec E. subst b. destruct (IH _ E) as [-> ->]. by split.
Qed.

Lemma string_length_app (a b : string) :
  String.length (a +:+ b) = (String.length a + String.length b)%nat.
Proof.
  induction a as [|x a IH]; [reflexivity|].
  rewrite string_app_cons. cbn [String.length]. by rewrite IH.
Qed.

Lemma string_app_inv_tail (a b t : string) : a +:+ t = b +:+ t -> a = b.
Proof.
  intros E.
  assert (Hl : String.length a = String.length b).
  { apply (f_equal String.length) in E. rewrite !string_length_app in E. lia. }
  revert b E Hl. induction a as [|x a IH]; intros [|y b] E Hl;
    cbn [String.length] in Hl; try discriminate; [reflexivity|].
  rewrite !string_app_cons in E. injection E as -> E. f_equal. apply IH; [exact E | lia].
Qed.

(** The key of [processedUpstreamServers] determines address and port. *)
Lemma JoinHostPort_inj h1 h2 p1 p2 :
  containsByte ":" p1 = false -> containsByte ":" p2 = false ->
  JoinHostPort h1 p1 = JoinHostPort h2 p2 -> h1 = h2 /\ p1 = p2.
Proof.
  intros H1 H2. unfold JoinHostPort.
  assert (Hb : forall h p, "[" +:+ h +:+ "]:" +:+ p = ("[" +:+ h +:+ "]") +:+ String ":" p).
  { intros h p. rewrite !string_app_cons, !string_app_nil. f_equal.
    induction h as [|x h IH]; [reflexivity|]. rewrite !string_app_cons. by rewrite IH. }
  assert (Hn : forall h p, h +:+ ":" +:+ p = h +:+ String ":" p) by reflexivity.
  destruct (containsByte ":" h1 || containsByte "%" h1) eqn:B1;
  destruct (containsByte ":" h2 || containsByte "%" h2) eqn:B2; intros E.
  - rewrite !Hb in E. apply app_colon_inj in E as [E ->]; [|done..].
    split; [|done]. rewrite !string_app_cons, !string_app_nil in E.
    injection E as E. by apply string_app_inv_tail in E.
  - rewrite Hb, Hn in E. apply app_colon_inj in E as [E ->]; [|done..].
    subst h2. rewrite string_app_cons, string_app_nil in B2. cbn [containsByte] in B2.
    rewrite !containsByte_app in B2. cbn in B2.
    rewrite !orb_false_r in B2. congruence.
  - rewrite Hb, Hn in E. apply app_colon_inj in E as [E ->]; [|done..].
    subst h1. rewrite string_app_cons, string_app_nil in B1. cbn [containsByte] in B1.
    rewrite !containsByte_app in B1. cbn in B1.
    rewrite !orb_false_r in B1. congruence.
  - rewrite !Hn in E. by apply app_colon_inj in E.
Qed.

(** ** The resolver loop: deduplication *)

Section ResolverLoop.
Context (L : NetLib).

Lemma Processed_init : Processed ([], ∅).
Proof.
  split; [constructor|]. split; [|constructor].
  intros k. simpl. split; [set_solver | intros Hk; inversion Hk].
Qed.

Lemma emitAddress_Processed ep p st a :
  Processed st -> Processed (emitAddress ep p st a).
Proof.
  intros (Hnd & Hset & Hports). unfold emitAddress.
  case_bool_decide as Hin; [exact (conj Hnd (conj Hset Hports))|].
  unfold Processed. cbn [fst snd]. split; [|split; [intros k; split|]].
  - rewrite List.map_app. cbn [map]. apply NoDup_app. split; [exact Hnd|]. split.
    + intros k Hk Hk'%list_elem_of_singleton. subst k. apply Hin, Hset, Hk.
    + apply NoDup_singleton.
  - rewrite List.map_app. cbn [map].
    rewrite elem_of_union, elem_of_singleton, elem_of_app, Hset, list_elem_of_singleton.
    intros [->|Hk]; [by right | by left].
  - rewrite List.map_app. cbn [map].
    rewrite elem_of_union, elem_of_singleton, elem_of_app, Hset, list_elem_of_singleton.
    intros [Hk|Hk]; [by right | by left].
  - apply Forall_app. split; [exact Hports|]. constructor; [|constructor]. by exists p.
Qed.

Lemma emitAddress_grows ep p st a :
  st.2 ⊆ (emitAddress ep p st a).2 /\
  JoinHostPort a (Itoa p) ∈ (emitAddress ep p st a).2 /\
  exists new, (emitAddress ep p st a).1 = st.1 ++ new /\
              Forall (fun e => Address e = a /\ Port e = Itoa p /\ Target e = TargetRef ep) new.
Proof.
  unfold emitAddress. case_bool_decide as Hin; cbn [fst snd].
  - split; [done|]. split; [done|]. exists []. by rewrite app_nil_r.
  - split; [set_solver|]. split; [set_solver|]. eexists. split; [reflexivity|].
    by repeat constructor.
Qed.

(** What one endpoint adds: the state stays consistent, the processed set
    grows and covers every address and port of the endpoint, and the new
    entries carry addresses of the endpoint. *)
Lemma emitEndpoint_spec ep ports st :
  Processed st ->
  Processed (emitEndpoint ep ports st) /\
  st.2 ⊆ (emitEndpoint ep ports st).2 /\
  (forall p a, p ∈ ports -> a ∈ Addresses ep ->
     JoinHostPort a (Itoa p) ∈ (emitEndpoint ep ports st).2) /\
  exists new, (emitEndpoint ep ports st).1 = st.1 ++ new /\
              Forall (fun e => Address e ∈ Addresses ep /\ Target e = TargetRef ep) new.
Proof.
  unfold emitEndpoint.
  assert (Hinner : forall p addrs st,
    Processed st ->
    Processed (fold_left (emitAddress ep p) addrs st) /\
    st.2 ⊆ (fold_left (emitAddress ep p) addrs st).2 /\
    (forall a, a ∈ addrs -> JoinHostPort a (Itoa p) ∈ (fold_left (emitAddress ep p) addrs st).2) /\
    exists new, (fold_left (emitAddress ep p) addrs st).1 = st.1 ++ new /\
                Forall (fun e => Address e ∈ addrs /\ Target e = TargetRef ep) new).
  { intros p addrs. induction addrs as [|a addrs IH]; intros st0 Hst; cbn [fold_left].
    - split; [done|]. split; [done|]. split; [intros a Ha; inversion Ha|].
      exists []. by rewrite app_nil_r.
    - destruct (IH _ (emitAddress_Processed ep p st0 a Hst)) as (HP & Hsub & Hcov & new & Hnew & Hfa).
      destruct (emitAddress_grows ep p st0 a) as (Hsub0 & Hin0 & new0 & Hnew0 & Hfa0).
      split; [exact HP|]. split; [by etrans|]. split.
      + intros a' [->|Ha']%elem_of_cons; [by apply Hsub | by apply Hcov].
      + exists (new0 ++ new). split; [by rewrite Hnew, Hnew0, app_assoc|].
        apply Forall_app. split.
        * eapply Forall_impl; [exact Hfa0|]. intros e (-> & _ & ->). split; [left|done].
        * eapply Forall_impl; [exact Hfa|]. intros e (Ha & ->). split; [by right|done]. }
  revert st. induction ports as [|p ports IH]; intros st Hst; cbn [fold_left].
  - split; [done|]. split; [done|]. split; [intros p a Hp; inversion Hp|].
    exists []. by rewrite app_nil_r.
  - destruct (Hinner p (Addresses ep) st Hst) as (HP0 & Hsub0 & Hcov0 & new0 & Hnew0 & Hfa0).
    destruct (IH _ HP0) as (HP & Hsub & Hcov & new & Hnew & Hfa).
    split; [exact HP|]. split; [by etrans|]. split.
    + intros p' a [->|Hp']%elem_of_cons Ha; [by apply Hsub, Hcov0 | by apply Hcov].
    + exists (new0 ++ new). split; [by rewrite Hnew, Hnew0, app_assoc|].
      apply Forall_app. by split.
Qed.

Lemma isNotReady_false ep : isNotReady ep = false <-> Ready ep <> Some false.
Proof.
  unfold isNotReady. destruct (Ready ep) as [[|]|]; split; congruence.
Qed.

Lemma useTopologyHints_hinted utd zone eps ep :
  useTopologyHints utd zone eps = true -> ep ∈ eps_Endpoints eps ->
  exists zs, Hints ep = Some zs.
Proof.
  unfold useTopologyHints. intros Hu Hep.
  destruct (negb (beq_string zone emptyZone)); [|discriminate].
  destruct (existsb lacksHint (eps_Endpoints eps)) eqn:Hex; [discriminate|].
  assert (Hl : lacksHint ep = false).
  { destruct (lacksHint ep) eqn:Hl; [|reflexivity].
    assert (existsb lacksHint (eps_Endpoints eps) = true); [|congruence].
    apply existsb_exists. exists ep. split; [by apply list_elem_of_In | exact Hl]. }
  unfold lacksHint in Hl. destruct (Hints ep) as [zs|]; [by exists zs | discriminate].
Qed.

Lemma endpointLoop_spec useHints zone ports eps :
  (useHints = true -> forall ep, ep ∈ eps -> exists zs, Hints ep = Some zs) ->
  forall st, Processed st ->
  exists st', foldGo (endpointStep useHints zone ports) eps st = Ret st' /\
    Processed st' /\ st.2 ⊆ st'.2 /\
    (exists new, st'.1 = st.1 ++ new /\ Forall (emittedFrom eps) new) /\
    (forall ep p a, ep ∈ eps -> isNotReady ep = false -> passesZone useHints zone ep ->
       p ∈ ports -> a ∈ Addresses ep -> JoinHostPort a (Itoa p) ∈ st'.2).
Proof.
  induction eps as [|ep eps IH]; intros Hh st Hst; cbn [foldGo].
  - exists st. split; [done|]. split; [done|]. split; [done|]. split.
    + exists []. by rewrite app_nil_r.
    + intros ep p a Hep. inversion Hep.
  - assert (Hstep : exists st1, endpointStep useHints zone ports st ep = Ret st1 /\
        Processed st1 /\ st.2 ⊆ st1.2 /\
        (exists new, st1.1 = st.1 ++ new /\ Forall (emittedFrom (ep :: eps)) new) /\
        (isNotReady ep = false -> passesZone useHints zone ep ->
         forall p a, p ∈ ports -> a ∈ Addresses ep -> JoinHostPort a (Itoa p) ∈ st1.2)).
    { unfold endpointStep. destruct (isNotReady ep) eqn:Hr.
      - exists st. split; [done|]. split; [done|]. split; [done|]. split; [|done].
        exists []. by rewrite app_nil_r.
      - destruct (emitEndpoint_spec ep ports st Hst) as (HP & Hsub & Hcov & new & Hnew & Hfa).
        assert (Hem : Forall (emittedFrom (ep :: eps)) new).
        { eapply Forall_impl; [exact Hfa|]. intros e [Ha Ht]. exists ep.
          split; [left|]. split; [by apply isNotReady_false | by split]. }
        destruct useHints eqn:Hu.
        + destruct (Hh eq_refl ep (list_elem_of_here _ _)) as [zs Hzs]. rewrite Hzs.
          cbn. destruct (hintedFor zone zs) eqn:Hz; cbn.
          * exists (emitEndpoint ep ports st). split; [done|]. split; [done|].
            split; [done|]. split; [by exists new|]. intros _ _ p a. apply Hcov.
          * exists st. split; [done|]. split; [done|]. split; [done|]. split.
            -- exists []. by rewrite app_nil_r.
            -- intros _ [?|(zs' & Hzs' & Hz')]; [done|]. congruence.
        + cbn. exists (emitEndpoint ep ports st). split; [done|]. split; [done|].
          split; [done|]. split; [by exists new|]. intros _ _ p a. apply Hcov. }
    destruct Hstep as (st1 & -> & HP1 & Hsub1 & (new1 & Hnew1 & Hfa1) & Hcov1). cbn.
    destruct (IH (fun Hu ep0 Hep0 => Hh Hu ep0 (list_elem_of_further _ _ _ Hep0)) st1 HP1)
      as (st' & Hrun & HP & Hsub & (new & Hnew & Hfa) & Hcov).
    exists st'. split; [exact Hrun|]. split; [exact HP|]. split; [by etrans|]. split.
    + exists (new1 ++ new). split; [by rewrite Hnew, Hnew1, app_assoc|].
      apply Forall_app. split; [exact Hfa1|].
      eapply Forall_impl; [exact Hfa|]. intros e (ep0 & Hep0 & Hrest).
      exists ep0. split; [by right | exact Hrest].
    + intros ep0 p a [->|Hep0]%elem_of_cons Hr Hz Hp Ha.
      * by apply Hsub, Hcov1.
      * by eapply Hcov.
Qed.

Lemma sliceStep_spec port proto utd zone st eps :
  Processed st ->
  forall ports, slicePorts port proto eps = Ret ports ->
  exists st', sliceStep port proto utd zone st eps = Ret st' /\
    Processed st' /\ st.2 ⊆ st'.2 /\
    (exists new, st'.1 = st.1 ++ new /\ Forall (emittedFrom (eps_Endpoints eps)) new) /\
    (forall ep p a, ep ∈ eps_Endpoints eps -> isNotReady ep = false ->
       passesZone (useTopologyHints utd zone eps) zone ep ->
       p ∈ ports -> a ∈ Addresses ep -> JoinHostPort a (Itoa p) ∈ st'.2).
Proof.
  intros Hst ports Hports. unfold sliceStep. rewrite Hports. cbn.
  apply endpointLoop_spec; [|exact Hst].
  intros Hu ep Hep. by eapply useTopologyHints_hinted.
Qed.

Lemma sliceStep_ports port proto utd zone st eps st' :
  sliceStep port proto utd zone st eps = Ret st' ->
  exists ports, slicePorts port proto eps = Ret ports.
Proof.
  unfold sliceStep. intros (ports & Hp & _)%bind_Ret. by exists ports.
Qed.

Lemma sliceLoop_spec port proto utd zone epss :
  forall st st', Processed st ->
  foldGo (sliceStep port proto utd zone) epss st = Ret st' ->
  Processed st' /\ st.2 ⊆ st'.2 /\
  (exists new, st'.1 = st.1 ++ new /\ Forall (emittedFromSlices epss) new) /\
  (forall eps ports ep p a, eps ∈ epss -> slicePorts port proto eps = Ret ports ->
     ep ∈ eps_Endpoints eps -> isNotReady ep = false ->
     passesZone (useTopologyHints utd zone eps) zone ep ->
     p ∈ ports -> a ∈ Addresses ep -> JoinHostPort a (Itoa p) ∈ st'.2).
Proof.
  induction epss as [|eps epss IH]; intros st st' Hst Hrun; cbn [foldGo] in Hrun.
  - injection Hrun as <-. split; [done|]. split; [done|]. split.
    + exists []. by rewrite app_nil_r.
    + intros eps ports ep p a Heps. inversion Heps.
  - apply bind_Ret in Hrun as (st1 & Hstep & Hrun).
    destruct (sliceStep_ports _ _ _ _ _ _ _ Hstep) as [ports Hports].
    destruct (sliceStep_spec port proto utd zone st eps Hst ports Hports)
      as (st1' & Hstep' & HP1 & Hsub1 & (new1 & Hnew1 & Hfa1) & Hcov1).
    rewrite Hstep in Hstep'. injection Hstep' as <-.
    destruct (IH st1 st' HP1 Hrun) as (HP & Hsub & (new & Hnew & Hfa) & Hcov).
    split; [exact HP|]. split; [by etrans|]. split.
    + exists (new1 ++ new). split; [by rewrite Hnew, Hnew1, app_assoc|].
      apply Forall_app. split.
      * eapply Forall_impl; [exact Hfa1|]. intros e He. exists eps. split; [left | exact He].
      * eapply Forall_impl; [exact Hfa|]. intros e (eps0 & Heps0 & He).
        exists eps0. split; [by right | exact He].
    + intros eps0 ports0 ep p a [->|Heps0]%elem_of_cons Hp0 Hep Hr Hz Hp Ha.
      * apply Hsub. rewrite Hports in Hp0. injection Hp0 as <-. by eapply Hcov1.
      * by eapply Hcov.
Qed.

Lemma slicePorts_returns port proto eps :
  (forall p, p ∈ eps_Ports eps -> wellFormedPort p) ->
  returns (slicePorts port proto eps).
Proof.
  intros Hwf. unfold slicePorts.
  destruct ((length (eps_Ports eps) =? 0)%nat && isInt (sp_TargetPort port));
    [eexists; reflexivity|].
  apply foldGo_returns. intros ports p Hp.
  destruct (Hwf p Hp) as (Hn & Hpr & Hpo). unfold slicePortsStep.
  destruct (ep_Protocol p) as [pr|]; [|done].
  destruct (ep_Name p) as [nm|]; [|done].
  destruct (ep_Port p) as [po|]; [|done]. cbn.
  repeat match goal with
         | |- context [if ?c then _ else _] => destruct c; cbn
         end; eexists; reflexivity.
Qed.

Lemma sliceLoop_returns port proto utd zone epss :
  (forall eps p, eps ∈ epss -> p ∈ eps_Ports eps -> wellFormedPort p) ->
  forall st, Processed st ->
  returns (foldGo (sliceStep port proto utd zone) epss st).
Proof.
  induction epss as [|eps epss IH]; intros Hwf st Hst; cbn [foldGo].
  - eexists; reflexivity.
  - destruct (slicePorts_returns port proto eps) as [ports Hports].
    { intros p Hp. apply (Hwf eps p); [left | exact Hp]. }
    destruct (sliceStep_spec port proto utd zone st eps Hst ports Hports)
      as (st1 & -> & HP1 & _). cbn.
    apply IH; [|exact HP1]. intros eps0 p Heps0. apply Hwf. by right.
Qed.

Lemma NoDup_map_key {A B C} (h : A -> B) (g : B -> C) (l : list A) :
  NoDup (map (fun a => g (h a)) l) -> NoDup (map h l).
Proof.
  induction l as [|a l IH]; cbn [map]; intros Hnd; [constructor|].
  apply NoDup_cons in Hnd as [Hnin Hnd]. apply NoDup_cons. split; [|by apply IH].
  intros Hin. apply Hnin.
  apply list_elem_of_In, in_map_iff in Hin as (a' & Ha' & Hin).
  apply list_elem_of_In, in_map_iff. exists a'. split; [by rewrite Ha' | exact Hin].
Qed.

(** Without nil ports the resolver returns, and the keys of the result
    are pairwise distinct. *)
Lemma getEndpointsFromSlices_total (s : option Service) (port : option ServicePort)
    (proto : Protocol) (zone : string)
    (lookup : string -> option (list EndpointSlice)) :
  wellFormedSlices lookup ->
  exists l, getEndpointsFromSlices L s port proto zone lookup = Ret l /\
            NoDup (map hostPortKey l).
Proof.
  intros Hwf. unfold getEndpointsFromSlices.
  destruct s as [s|]; [|exists []; split; [done | constructor]].
  destruct port as [port|]; [|exists []; split; [done | constructor]].
  destruct (beq_string (Type_ (Spec s)) ServiceTypeExternalName).
  - destruct (isLocalhostName L (ExternalName (Spec s)));
      [exists []; split; [done | constructor]|].
    match goal with |- context [if ?c then Ret [] else _] => destruct c end;
      [exists []; split; [done | constructor]|].
    eexists. split; [reflexivity|]. cbn [map]. apply NoDup_singleton.
  - destruct (lookup _) as [epss|] eqn:Hl; [|exists []; split; [done | constructor]].
    destruct (sliceLoop_returns port proto (preferClose s) zone epss) with ([] : list Endpoint, ∅ : gset string) as [st Hrun].
    { intros eps p Heps Hp. by eapply Hwf. }
    { apply Processed_init. }
    rewrite Hrun. cbn. exists st.1. split; [reflexivity|].
    by destruct (sliceLoop_spec _ _ _ _ _ _ _ Processed_init Hrun) as ((Hnd & _) & _).
Qed.

(** C7: whatever the service and the slices, provided no port of a slice
    holds a nil pointer (so that the resolver does not panic), the
    resolver returns a list in which no two Endpoints have the same
    (address, port) pair. *)
Theorem getEndpointsFromSlices_dedup (s : option Service) (port : option ServicePort)
    (proto : Protocol) (zone : string)
    (lookup : string -> option (list EndpointSlice)) :
  wellFormedSlices lookup ->
  exists l, getEndpointsFromSlices L s port proto zone lookup = Ret l /\
            NoDup (map (fun e => (Address e, Port e)) l).
Proof.
  intros Hwf.
  destruct (getEndpointsFromSlices_total s port proto zone lookup Hwf) as (l & Hrun & Hnd).
  exists l. split; [exact Hrun|].
  by apply (NoDup_map_key (fun e => (Address e, Port e))
              (fun ap => JoinHostPort ap.1 ap.2)).
Qed.

End ResolverLoop.

Lemma wellFormedSlices_lookupOf (epss : list EndpointSlice) :
  Forall (fun eps => Forall wellFormedPort (eps_Ports eps)) epss ->
  wellFormedSlices (lookupOf epss).
Proof.
  intros Hall key epss' eps p Hl Heps Hp. unfold lookupOf in Hl.
  destruct (beq_string key "ns/svc"); [|discriminate]. injection Hl as <-.
  rewrite Forall_forall in Hall. specialize (Hall eps Heps).
  rewrite Forall_forall in Hall. by apply Hall.
Qed.

Lemma wellFormedPort_tcpPort80 : wellFormedPort tcpPort80.
Proof. repeat split; discriminate. Qed.

Lemma wellFormedSlices_dupSlices : wellFormedSlices (lookupOf dupSlices).
Proof.
  apply wellFormedSlices_lookupOf.
  repeat (constructor; [repeat constructor; apply wellFormedPort_tcpPort80|]).
  constructor.
Qed.

Lemma getEndpointsFromSlices_dedup_witness :
  wellFormedSlices (lookupOf dupSlices) /\
  exists l, getEndpointsFromSlices sampleNet (Some webService) (Some httpPort)
              ProtocolTCP "" (lookupOf dupSlices) = Ret l /\
            NoDup (map (fun e => (Address e, Port e)) l).
Proof.
  split; [exact wellFormedSlices_dupSlices|].
  exact (getEndpointsFromSlices_dedup sampleNet (Some webService) (Some httpPort)
           ProtocolTCP "" (lookupOf dupSlices) wellFormedSlices_dupSlices).
Defined.

(** The scenarios of the specification: one ready endpoint resolves to one
    Endpoint; an address and port held by two slices comes out once. *)
Example getEndpointsFromSlices_single :
  getEndpointsFromSlices sampleNet (Some webService) (Some httpPort) ProtocolTCP
    emptyZone (lookupOf singleSlice) = Ret [endpoint80 "10.0.0.5"].
Proof. vm_compute. reflexivity. Qed.

Example getEndpointsFromSlices_twice :
  getEndpointsFromSlices sampleNet (Some webService) (Some httpPort) ProtocolTCP
    emptyZone (lookupOf dupSlices) = Ret [endpoint80 "10.0.0.1"; endpoint80 "10.0.0.2"].
Proof. vm_compute. reflexivity. Qed.

(** ** Readiness *)

Lemma foldGo_map {A B S} (f : S -> B -> Go S) (g : A -> B) (l : list A) (s : S) :
  foldGo f (map g l) s = foldGo (fun s a => f s (g a)) l s.
Proof.
  revert s. induction l as [|a l IH]; intros s; cbn [map foldGo]; [reflexivity|].
  destruct (f s (g a)); cbn; [apply IH | reflexivity].
Qed.

Lemma foldGo_ext {A S} (f g : S -> A -> Go S) (l : list A) (s : S) :
  (forall s a, f s a = g s a) -> foldGo f l s = foldGo g l s.
Proof.
  intros Hfg. revert s. induction l as [|a l IH]; intros s; cbn [foldGo]; [reflexivity|].
  rewrite Hfg. destruct (g s a); cbn; [apply IH | reflexivity].
Qed.

Lemma existsb_map {A B} (f : B -> bool) (g : A -> B) (l : list A) :
  existsb f (map g l) = existsb (fun a => f (g a)) l.
Proof. induction l as [|a l IH]; cbn; [reflexivity | by rewrite IH]. Qed.

Lemma useTopologyHints_readyDefault utd zone eps :
  useTopologyHints utd zone (sliceReadyDefault eps) = useTopologyHints utd zone eps.
Proof.
  unfold useTopologyHints, foundEndpointsForZone, sliceReadyDefault.
  cbn [eps_Endpoints]. by rewrite !existsb_map.
Qed.

Lemma endpointStep_readyDefault useHints zone ports st ep :
  endpointStep useHints zone ports st (readyDefault ep) =
  endpointStep useHints zone ports st ep.
Proof.
  unfold endpointStep.
  replace (isNotReady (readyDefault ep)) with (isNotReady ep);
    [reflexivity|].
  unfold isNotReady, readyDefault. cbn. by destruct (Ready ep) as [[|]|].
Qed.

Lemma sliceStep_readyDefault port proto utd zone st eps :
  sliceStep port proto utd zone st (sliceReadyDefault eps) =
  sliceStep port proto utd zone st eps.
Proof.
  unfold sliceStep. rewrite useTopologyHints_readyDefault.
  change (slicePorts port proto (sliceReadyDefault eps)) with (slicePorts port proto eps).
  destruct (slicePorts port proto eps) as [ports|]; [|reflexivity]. cbn.
  unfold sliceReadyDefault. cbn [eps_Endpoints]. rewrite foldGo_map.
  apply foldGo_ext. intros st0 ep. apply endpointStep_readyDefault.
Qed.

(** C10: an endpoint whose Ready condition is nil is resolved exactly as
    one whose condition is true; every Endpoint of the result comes from
    an endpoint whose condition is not explicitly false; and every address
    and candidate port of such an endpoint (one the zone filter lets
    through) is in the result. *)
Theorem getEndpointsFromSlices_ready (L : NetLib) (s : Service) (port : ServicePort)
    (proto : Protocol) (zone : string)
    (lookup : string -> option (list EndpointSlice)) :
  getEndpointsFromSlices L (Some s) (Some port) proto zone
    (fun key => map sliceReadyDefault <$> lookup key) =
  getEndpointsFromSlices L (Some s) (Some port) proto zone lookup
  /\ forall epss l,
       Type_ (Spec s) <> ServiceTypeExternalName ->
       lookup (MetaNamespaceKey (svc_Namespace s) (svc_Name s)) = Some epss ->
       getEndpointsFromSlices L (Some s) (Some port) proto zone lookup = Ret l ->
       Forall (emittedFromSlices epss) l /\
       (forall eps ports ep p a,
          eps ∈ epss -> slicePorts port proto eps = Ret ports ->
          ep ∈ eps_Endpoints eps -> Ready ep <> Some false ->
          passesZone (useTopologyHints (preferClose s) zone eps) zone ep ->
          p ∈ ports -> a ∈ Addresses ep ->
          exists e, e ∈ l /\ Address e = a /\ Port e = Itoa p).
Proof.
  split.
  - unfold getEndpointsFromSlices.
    destruct (beq_string (Type_ (Spec s)) ServiceTypeExternalName); [reflexivity|].
    destruct (lookup _) as [epss|]; cbn [fmap option_fmap option_map]; [|reflexivity].
    rewrite foldGo_map.
    rewrite (foldGo_ext _ (sliceStep port proto (preferClose s) zone)); [reflexivity|].
    intros st eps. apply sliceStep_readyDefault.
  - intros epss l Hty Hl Hrun. unfold getEndpointsFromSlices in Hrun.
    unfold beq_string in Hrun. rewrite bool_decide_eq_false_2 in Hrun by exact Hty.
    rewrite Hl in Hrun. apply bind_Ret in Hrun as (st & Hrun & Hret).
    injection Hret as <-.
    destruct (sliceLoop_spec _ _ _ _ _ _ _ Processed_init Hrun)
      as ((Hnd & Hset & Hports) & _ & (new & Hnew & Hfa) & Hcov).
    split.
    + cbn [fst] in Hnew. rewrite app_nil_l in Hnew. by rewrite Hnew.
    + intros eps ports ep p a Heps Hp Hep Hr Hz Hpin Ha.
      assert (Hk : JoinHostPort a (Itoa p) ∈ st.2).
      { eapply Hcov; eauto. by apply isNotReady_false. }
      apply Hset, list_elem_of_In, in_map_iff in Hk as (e & Hk & He).
      exists e. split; [by apply list_elem_of_In|].
      rewrite Forall_forall in Hports.
      destruct (Hports e) as [p' Hp']; [by apply list_elem_of_In|].
      unfold hostPortKey in Hk. rewrite Hp' in Hk.
      apply JoinHostPort_inj in Hk as [Hk1 Hk2]; [|apply Itoa_no_colon..].
      split; [done | congruence].
Qed.

Lemma getEndpointsFromSlices_ready_witness :
  Ready (mkEndpoint "10.0.0.2" None None) = None /\
  exists e,
    e ∈ [ {| Address := "10.0.0.1"; Port := "80"; Target := None |};
          {| Address := "10.0.0.2"; Port := "80"; Target := None |} ] /\
    Address e = "10.0.0.2" /\ Port e = Itoa 80.
Proof.
  split; [reflexivity|].
  assert (Hty : Type_ (Spec webService) <> ServiceTypeExternalName) by discriminate.
  assert (Hrun : getEndpointsFromSlices sampleNet (Some webService) (Some httpPort)
                   ProtocolTCP "" (lookupOf dupSlices) =
                 Ret [ {| Address := "10.0.0.1"; Port := "80"; Target := None |};
                       {| Address := "10.0.0.2"; Port := "80"; Target := None |} ])
    by (vm_compute; reflexivity).
  apply (proj2 (proj2 (getEndpointsFromSlices_ready sampleNet webService httpPort
                         ProtocolTCP "" (lookupOf dupSlices))
                      dupSlices _ Hty eq_refl Hrun)
               {| eps_Ports := [tcpPort80];
                  eps_Endpoints := [mkEndpoint "10.0.0.1" (Some true) None;
                                    mkEndpoint "10.0.0.2" None None] |}
               [80] (mkEndpoint "10.0.0.2" None None) 80 "10.0.0.2").
  - apply list_elem_of_In. simpl. auto.
  - reflexivity.
  - apply list_elem_of_In. simpl. auto.
  - discriminate.
  - left. reflexivity.
  - apply list_elem_of_In. simpl. auto.
  - apply list_elem_of_In. simpl. auto.
Defined.

(** ** Zone hints *)

(** Within one slice an endpoint without a hint switches the filter off
    for that slice. *)
Lemma useTopologyHints_lacking utd zone eps ep :
  ep ∈ eps_Endpoints eps -> lacksHint ep = true ->
  useTopologyHints utd zone eps = false.
Proof.
  intros Hep Hl. unfold useTopologyHints.
  destruct (negb (beq_string zone emptyZone)); [|reflexivity].
  replace (existsb lacksHint (eps_Endpoints eps)) with true; [reflexivity|].
  symmetry. apply existsb_exists. exists ep. split; [by apply list_elem_of_In | exact Hl].
Qed.

(** C3 (the code at the failing input): the flag is computed for each
    slice from the endpoints of that slice only.  With the preferred zone
    "zone-a", a first slice whose endpoints are all hinted and a second
    slice whose endpoint has no hint, the first slice is filtered by zone
    (10.0.0.2 is dropped) although an endpoint of the service lacks a hint;
    the unfiltered set has three Endpoints. *)
Theorem getEndpointsFromSlices_zone_per_slice :
  existsb lacksHint (flat_map eps_Endpoints zoneSlices) = true /\
  getEndpointsFromSlices sampleNet (Some webService) (Some httpPort) ProtocolTCP
    "zone-a" (lookupOf zoneSlices) =
    Ret [endpoint80 "10.0.0.1"; endpoint80 "10.0.0.3"] /\
  getEndpointsFromSlices sampleNet (Some webService) (Some httpPort) ProtocolTCP
    emptyZone (lookupOf zoneSlices) =
    Ret [endpoint80 "10.0.0.1"; endpoint80 "10.0.0.2"; endpoint80 "10.0.0.3"].
Proof. split; [reflexivity|]. split; vm_compute; reflexivity. Qed.

(** ** The default upstream *)

Section DefaultUpstream.
Context (L : NetLib) (H : Helpers) (n : NGINXController).

(** When it returns, the default upstream carries the reserved name and
    at least one Endpoint. *)
Lemma getDefaultUpstream_nonempty (b : Backend) :
  getDefaultUpstream L H n = Ret b ->
  b_Name b = defUpstreamName H /\ b_Endpoints b <> [].
Proof.
  unfold getDefaultUpstream.
  destruct (beq_string (DefaultService (cfg n)) "").
  { intros [= <-]. by split. }
  destruct (GetService (store n) _) as [svc|].
  2: { intros [= <-]. by split. }
  intros (port0 & _ & Hrun)%bind_Ret.
  apply bind_Ret in Hrun as (endps & _ & [= <-]). split; [reflexivity|].
  cbn. by destruct endps.
Qed.

(** It returns in the three cases the fallback is written for, as long
    as a service that is found declares a port and the slices hold no nil
    port. *)
Lemma getDefaultUpstream_returns :
  wellFormedSlices (GetServiceEndpointsSlices (store n)) ->
  (forall svc, GetService (store n) (DefaultService (cfg n)) = Some svc ->
               Ports (Spec svc) <> []) ->
  returns (getDefaultUpstream L H n).
Proof.
  intros Hwf Hports. unfold getDefaultUpstream.
  destruct (beq_string (DefaultService (cfg n)) ""); [by eexists|].
  destruct (GetService (store n) _) as [svc|] eqn:Hsvc; [|by eexists].
  specialize (Hports svc eq_refl).
  destruct (Ports (Spec svc)) as [|port0 ports]; [done|]. cbn [head deref mbind Go_bind].
  destruct (getEndpointsFromSlices_total L (Some svc) (Some port0) ProtocolTCP
              (zoneOf H n svc) (GetServiceEndpointsSlices (store n)) Hwf) as (l & -> & _).
  by eexists.
Qed.

(** A configured default service without ports: [svc.Spec.Ports[0]] is out
    of range. *)
Lemma getDefaultUpstream_no_ports (svc : Service) :
  DefaultService (cfg n) <> "" ->
  GetService (store n) (DefaultService (cfg n)) = Some svc ->
  Ports (Spec svc) = [] ->
  getDefaultUpstream L H n = Panic.
Proof.
  intros Hkey Hsvc Hports. unfold getDefaultUpstream, beq_string.
  rewrite bool_decide_eq_false_2 by exact Hkey. by rewrite Hsvc, Hports.
Qed.

End DefaultUpstream.

(** C4 (the code at the failing input): with the default service
    "ns/fallback" configured and found in the store, but declaring no
    port, [getDefaultUpstream] panics instead of falling back to the
    static default endpoint. *)
Theorem getDefaultUpstream_panics_without_ports :
  GetService (store portlessController) (DefaultService (cfg portlessController)) =
    Some portlessService /\
  Ports (Spec portlessService) = [] /\
  getDefaultUpstream sampleNet (specHelpers "") portlessController = Panic.
Proof.
  split; [reflexivity|]. split; [reflexivity|].
  by apply (getDefaultUpstream_no_ports _ _ _ portlessService).
Qed.

(** ** Location normalisation *)

Lemma exactLocations_spec (locations : list Location) :
  Forall (fun l => PathType_ l <> None) locations ->
  forall exact0, exists exact,
    foldGo exactLocationsStep locations exact0 = Ret exact /\
    forall p, p ∈ exact <-> p ∈ exact0 \/ hasExactAt locations p.
Proof.
  induction 1 as [|loc locations Hpt _ IH]; intros exact0; cbn [foldGo].
  - exists exact0. split; [reflexivity|]. intros p. split; [by left|].
    intros [?|(l & Hl & _)]; [done | inversion Hl].
  - destruct (PathType_ loc) as [pt|] eqn:Ept; [|done].
    assert (Hstep : exactLocationsStep exact0 loc =
                    Ret (if beq_string pt pathTypeExact
                         then {[Path loc]} ∪ exact0 else exact0)).
    { unfold exactLocationsStep. rewrite Ept. cbn.
      by destruct (beq_string pt pathTypeExact). }
    rewrite Hstep. cbn. destruct (beq_string pt pathTypeExact) eqn:Eex.
    + destruct (IH ({[Path loc]} ∪ exact0)) as (exact & Hrun & Hin).
      exists exact. split; [exact Hrun|]. intros p. rewrite Hin.
      apply bool_decide_eq_true in Eex. subst pt.
      rewrite elem_of_union, elem_of_singleton. split.
      * intros [[->|?]|(l & Hl & Hx)]; [right | by left | right].
        -- exists loc. split; [left|]. by split.
        -- exists l. split; [by right | exact Hx].
      * intros [?|(l & [->|Hl]%elem_of_cons & Hx & Hp)].
        -- left. by right.
        -- left. by left.
        -- right. by exists l.
    + destruct (IH exact0) as (exact & Hrun & Hin).
      exists exact. split; [exact Hrun|]. intros p. rewrite Hin.
      apply bool_decide_eq_false in Eex. split.
      * intros [?|(l & Hl & Hx)]; [by left | right].
        exists l. split; [by right | exact Hx].
      * intros [?|(l & [->|Hl]%elem_of_cons & Hx & Hp)]; [by left | | right; by exists l].
        rewrite Ept in Hx. congruence.
Qed.

Lemma normalizePrefixPath_nonroot (path : string) :
  path <> rootLocation -> normalizePrefixPath path = withTrailingSlash path.
Proof.
  intros Hp. unfold normalizePrefixPath, withTrailingSlash, beq_string.
  rewrite bool_decide_eq_false_2 by exact Hp. by destruct (HasSuffix path "/").
Qed.

Lemma updateLocation_spec (locations : list Location) (exact : gset string)
    (loc : Location) :
  (forall p, p ∈ exact <-> hasExactAt locations p) ->
  PathType_ loc <> None ->
  exists piece, updateLocation exact loc = Ret piece /\ normalized locations loc piece.
Proof.
  intros Hexact Hpt. unfold updateLocation, normalized, beq_string.
  case_bool_decide as Hroot.
  { exists [loc]. split; [reflexivity|]. split; [done|]. intros Hn. by destruct Hn. }
  destruct (PathType_ loc) as [pt|] eqn:Ept; [|done].
  cbn [location_withPath PathType_ Path IngressPath loc_Rewrite deref mbind Go_bind].
  case_bool_decide as Hprefix; cbn [negb].
  2: { eexists. split; [reflexivity|]. split; [done|]. intros _ [= ->]. done. }
  subst pt.
  destruct (needsRewrite _ || UseRegex (loc_Rewrite loc)) eqn:Hrw.
  { eexists. split; [reflexivity|]. split; [done|]. intros _ _ Ht Hre.
    unfold needsRewrite in Hrw. cbn in Hrw. rewrite Ht, Hre in Hrw. discriminate. }
  rewrite (normalizePrefixPath_nonroot _ Hroot).
  case_bool_decide as Hin.
  - eexists. split; [reflexivity|]. split; [done|]. intros _ _ _ _. split.
    + intros Hno. destruct Hno. by apply Hexact.
    + intros _. reflexivity.
  - eexists. split; [reflexivity|]. split; [done|]. intros _ _ _ _. split.
    + intros _. reflexivity.
    + intros Hyes. destruct Hin. by apply Hexact.
Qed.

(** C6: on a list whose locations all carry a path type,
    [updateServerLocations] returns the concatenation of one piece for
    each location, in order: a root location unchanged; a non-root Prefix
    location without rewrite target and regex flag as the Prefix location
    with the path suffixed with "/" if missing, followed by the Exact
    sibling at the original path, or the Prefix location alone when an
    Exact location exists at the path. *)
Theorem updateServerLocations_split (locations : list Location) :
  Forall (fun l => PathType_ l <> None) locations ->
  exists pieces,
    updateServerLocations locations = Ret (concat pieces) /\
    Forall2 (normalized locations) locations pieces.
Proof.
  intros Hpt. unfold updateServerLocations.
  destruct (exactLocations_spec locations Hpt ∅) as (exact & -> & Hexact). cbn.
  assert (Hex : forall p, p ∈ exact <-> hasExactAt locations p).
  { intros p. rewrite Hexact. split; [intros [Hp|Hp]; [set_solver | exact Hp] | by right]. }
  clear Hexact.
  assert (Hloop : forall ls, Forall (fun l => PathType_ l <> None) ls ->
            forall acc, exists pieces,
              foldGo (fun newLocations location =>
                        ls ← updateLocation exact location; Ret (newLocations ++ ls))
                     ls acc = Ret (acc ++ concat pieces) /\
              Forall2 (normalized locations) ls pieces).
  { induction 1 as [|loc ls Hloc _ IH]; intros acc; cbn [foldGo].
    - exists []. split; [by rewrite app_nil_r | constructor].
    - destruct (updateLocation_spec locations exact loc Hex Hloc) as (piece & -> & Hn).
      cbn. destruct (IH (acc ++ piece)) as (pieces & -> & Hall).
      exists (piece :: pieces). split; [|by constructor].
      cbn [concat]. by rewrite app_assoc. }
  destruct (Hloop locations Hpt []) as (pieces & Hrun & Hall).
  exists pieces. by split.
Qed.

Lemma updateServerLocations_split_witness :
  Forall (fun l => PathType_ l <> None) sampleLocations /\
  exists pieces,
    updateServerLocations sampleLocations = Ret (concat pieces) /\
    Forall2 (normalized sampleLocations) sampleLocations pieces.
Proof.
  assert (Hpt : Forall (fun l => PathType_ l <> None) sampleLocations)
    by (repeat constructor; discriminate).
  split; [exact Hpt | exact (updateServerLocations_split sampleLocations Hpt)].
Defined.

(** The run of the witness: "/" stays, "/api" is split, "/v1" is only
    normalised because an Exact "/v1" exists. *)
Example updateServerLocations_sample :
  (fun r => match r with
            | Ret ls => map (fun l => (Path l, PathType_ l)) ls
            | Panic => []
            end) (updateServerLocations sampleLocations) =
  [ ("/", Some "Prefix"); ("/api/", Some "Prefix"); ("/api", Some "Exact");
    ("/v1/", Some "Prefix"); ("/v1", Some "Exact") ].
Proof. vm_compute. reflexivity. Qed.

(** ** sort.SliceStable *)

Section StableSort.
Context {A : Type} (less : A -> A -> bool).

Lemma insertStable_Permutation (x : A) (l : list A) :
  Permutation (insertStable less x l) (x :: l).
Proof.
  induction l as [|y l IH]; cbn [insertStable]; [reflexivity|].
  destruct (less y x); [|reflexivity].
  rewrite IH. apply perm_swap.
Qed.

Lemma SliceStable_Permutation (l : list A) : Permutation (SliceStable less l) l.
Proof.
  induction l as [|x l IH]; cbn; [reflexivity|].
  rewrite insertStable_Permutation. by constructor.
Qed.

Lemma SliceStable_elem_of (x : A) (l : list A) : x ∈ SliceStable less l <-> x ∈ l.
Proof. by rewrite (SliceStable_Permutation l). Qed.

Hypothesis less_asym : forall a b, less a b = true -> less b a = false.

Lemma insertStable_Sorted (x : A) (l : list A) :
  Sorted (notAfter less) l -> Sorted (notAfter less) (insertStable less x l).
Proof.
  induction 1 as [|y l Hs IH Hhd]; cbn [insertStable].
  - repeat constructor.
  - destruct (less y x) eqn:Hyx.
    + constructor; [exact IH|].
      destruct l as [|z l]; cbn [insertStable].
      * constructor. by apply less_asym.
      * destruct (less z x); constructor; [by inversion Hhd | by apply less_asym].
    + constructor; [by constructor|]. constructor. exact Hyx.
Qed.

Lemma SliceStable_Sorted (l : list A) : Sorted (notAfter less) (SliceStable less l).
Proof.
  induction l as [|x l IH]; cbn; [constructor | by apply insertStable_Sorted].
Qed.

End StableSort.

Lemma string_lt_asym (a b : string) : string_lt a b = true -> string_lt b a = false.
Proof.
  unfold string_lt, String.ltb. rewrite (String.compare_antisym a b).
  by destruct (String.compare b a).
Qed.

Lemma Sorted_weaken {A} (R R' : A -> A -> Prop) (l : list A) :
  (forall a b, R a b -> R' a b) -> Sorted R l -> Sorted R' l.
Proof.
  intros HR. induction 1 as [|a l Hs IH Hhd]; constructor; [exact IH|].
  destruct Hhd; constructor. by apply HR.
Qed.

(** ** Stream services *)

Section StreamServices.
Context (L : NetLib) (H : Helpers) (n : NGINXController).

(** An entry that yields a service has a key that parses to the external
    port, outside the reserved set, and at least one endpoint. *)
Lemma streamEntry_Some reserved proto port svcRef svc :
  streamEntry L H n reserved proto port svcRef = Ret (Some svc) ->
  Atoi port = Some (l4s_Port svc) /\ (l4s_Port svc ∉ reserved) /\ l4s_Endpoints svc <> [].
Proof.
  unfold streamEntry.
  destruct (Atoi port) as [externalPort|]; [|discriminate].
  case_bool_decide as Hres; [discriminate|].
  destruct (Split1 ":" svcRef) as [|nsName [|svcPort opts]]; try discriminate.
  destruct (ParseNameNS H nsName) as [[svcNs svcName]|]; [|discriminate].
  destruct (GetService (store n) nsName) as [s|]; [|discriminate].
  intros (endps & _ & Hret)%bind_Ret.
  destruct endps as [|e endps]; cbn in Hret; [discriminate|].
  injection Hret as <-. by cbn.
Qed.




Lemma streamLoop_spec reserved proto data :
  (forall e, e ∈ data -> returns (streamEntry L H n reserved proto e.1 e.2)) ->
  forall acc,
    foldGo (streamStep L H n reserved proto) data acc =
    Ret (acc ++ omap (fun e => entryResult (streamEntry L H n reserved proto e.1 e.2)) data).
Proof.
  induction data as [|e data IH]; intros Hret acc; cbn [foldGo omap list_omap].
  - by rewrite app_nil_r.
  - destruct (Hret e (list_elem_of_here _ _)) as [o Ho]. rewrite Ho.
    assert (Hstep : streamStep L H n reserved proto acc e =
                    Ret (acc ++ match o with Some svc => [svc] | None => [] end)).
    { unfold streamStep. rewrite Ho. destruct o; cbn; [done | by rewrite app_nil_r]. }
    rewrite Hstep. cbn [mbind Go_bind].
    rewrite IH by (intros e0 He0; apply Hret; by right).
    rewrite <- app_assoc. by destruct o.
Qed.


End StreamServices.


(** The run of the witness: the health-check port, the key that is not a
    number and the entry without endpoints are dropped; the rest comes out
    by ascending port. *)
Example getStreamServices_sample :
  (fun r => match r with
            | Ret svcs => map (fun s => (l4s_Port s, Decode (l4_ProxyProtocol (l4s_Backend s)),
                                         length (l4s_Endpoints s))) svcs
            | Panic => []
            end)
    (getStreamServices sampleNet (specHelpers "") streamController "ns/tcp" ProtocolTCP) =
  [(53, false, 2%nat); (9000, true, 2%nat)].
Proof. vm_compute. reflexivity. Qed.

(** ** Location merging *)

Section LocationMerge.
Context (H : Helpers).

(** The walk of lines 238-274 is decided by the first location that has
    the path: its type and its backend decide, the locations after it are
    not looked at. *)
Lemma mergeLocation_first (ups : Backend) (ing : Ingress) (anns : AnnotationsIngress)
    (nginxPath : string) (pathType : option PathType)
    (pre : list Location) (loc : Location) (post : list Location) :
  Forall (fun l => Path l <> nginxPath) pre ->
  Path loc = nginxPath ->
  mergeLocation H ups ing anns nginxPath pathType (pre ++ loc :: post) =
    if bool_decide (PathType_ loc = pathType) then
      if IsDefBackend loc then
        let loc' := locationApplyAnnotations H
                      (location_rebind loc (b_Name ups) (b_Port ups) (b_Service ups)
                                       (Some ing)) anns in
        (pre ++ loc' :: post, false, FromToWWW (loc_Redirect loc'))
      else (pre ++ loc :: post, false, false)
    else (pre ++ loc :: post, true, false).
Proof.
  intros Hpre Hloc. induction Hpre as [|l pre Hl _ IH]; cbn [app mergeLocation].
  - unfold beq_string. rewrite bool_decide_eq_true_2 by exact Hloc. cbn [negb].
    destruct (bool_decide (PathType_ loc = pathType)); cbn [negb]; [|reflexivity].
    by destruct (IsDefBackend loc).
  - unfold beq_string at 1. rewrite bool_decide_eq_false_2 by exact Hl. cbn [negb].
    rewrite IH. destruct (bool_decide (PathType_ loc = pathType)); [|reflexivity].
    by destruct (IsDefBackend loc).
Qed.

(** Without a location at the path a new one is to be added. *)
Lemma mergeLocation_absent (ups : Backend) (ing : Ingress) (anns : AnnotationsIngress)
    (nginxPath : string) (pathType : option PathType) (locs : list Location) :
  Forall (fun l => Path l <> nginxPath) locs ->
  mergeLocation H ups ing anns nginxPath pathType locs = (locs, true, false).
Proof.
  induction 1 as [|l locs Hl _ IH]; cbn [mergeLocation]; [reflexivity|].
  unfold beq_string. rewrite bool_decide_eq_false_2 by exact Hl. cbn [negb].
  by rewrite IH.
Qed.

(** A location of the same path and type that comes after one of the same
    path and another type is never reached: the walk asks for a new
    location although [later] has the path and the type. *)
Lemma mergeLocation_misses_later (ups : Backend) (ing : Ingress)
    (anns : AnnotationsIngress) (nginxPath : string) (pathType : option PathType)
    (first later : Location) (post : list Location) :
  Path first = nginxPath -> PathType_ first <> pathType ->
  Path later = nginxPath -> PathType_ later = pathType ->
  mergeLocation H ups ing anns nginxPath pathType (first :: later :: post) =
    (first :: later :: post, true, false).
Proof.
  intros Hp Ht _ _.
  pose proof (mergeLocation_first ups ing anns nginxPath pathType [] first
                (later :: post) (Forall_nil_2 _) Hp) as Hfirst.
  cbn [app] in Hfirst. rewrite Hfirst. by rewrite bool_decide_eq_false_2.
Qed.

End LocationMerge.

(** C5 (the code at the failing input): the older ingress declares "/a"
    as Exact and as Prefix for svc1, the later ingress declares "/a" as
    Prefix for svc2.  The walk for the later path stops at the Exact
    location, so the Prefix location of svc2 is appended: the server ends
    with two Prefix locations at "/a", one for each ingress. *)
Theorem getBackendServers_duplicate_location :
  locationSummary
    (getBackendServers sampleNet (specHelpers "") plainController
       [olderIngress; laterIngress]) "example.com" =
  [ ("/a", Some "Exact", "ns-svc1-80");
    ("/a", Some "Prefix", "ns-svc1-80");
    ("/a", Some "Prefix", "ns-svc2-80");
    ("/", Some "Prefix", "upstream-default-backend") ].
Proof. vm_compute. reflexivity. Qed.

(** ** SSL-passthrough aggregation *)

Section Passthrough.
Context (L : NetLib) (H : Helpers) (n : NGINXController).

(** The passthrough test of lines 400-408 lies behind the gate of line
    364 and the dereference of line 368: a location without default-backend
    override never adds its server to [isHTTPSfrom]. *)
Lemma defaultBackendStep_without_override (upstream : Backend) (server : Server)
    (acc acc' : DefaultBackendAcc) (location : Location) :
  loc_DefaultBackend location = None ->
  defaultBackendStep L H n upstream server acc location = Ret acc' ->
  acc_isHTTPSfrom acc' = acc_isHTTPSfrom acc /\
  acc_clones acc' = acc_clones acc /\
  acc_locations acc' = acc_locations acc ++ [location].
Proof.
  intros Hdb. unfold defaultBackendStep. rewrite Hdb.
  destruct (negb (shouldCreateUpstreamForLocationDefaultBackend H upstream location)).
  - intros [= <-]. by cbn.
  - cbn. discriminate.
Qed.

Lemma defaultBackendServer_without_override (upstream : Backend)
    (st st' : list Backend * list Server * GoMap Server) (entry : string * Server) :
  Forall (fun l => loc_DefaultBackend l = None) (Locations entry.2) ->
  defaultBackendServerStep L H n upstream st entry = Ret st' ->
  st'.1.1 = st.1.1 /\ st'.1.2 = st.1.2.
Proof.
  intros Hall. unfold defaultBackendServerStep. destruct st as [[clones https] done].
  intros (acc & Hrun & [= <-])%bind_Ret. cbn [fst snd].
  assert (Hinv : acc_clones acc = clones /\ acc_isHTTPSfrom acc = https); [|done].
  revert Hrun.
  apply (foldGo_invariant
           (fun a => acc_clones a = clones /\ acc_isHTTPSfrom a = https)); [|done].
  intros a l a' Hl [Hc Hh] Hstep.
  rewrite Forall_forall in Hall.
  destruct (defaultBackendStep_without_override upstream entry.2 a a' l (Hall l Hl) Hstep)
    as (-> & -> & _).
  by split.
Qed.

(** Without default-backend overrides the pass marks no Backend: the
    upstream goes to [aUpstreams] as it is. *)
Lemma upstreamStep_without_override (aUpstreams aUpstreams' : list Backend)
    (servers servers' : GoMap Server) (entry : string * Backend) :
  Forall (fun e : string * Server =>
            Forall (fun l => loc_DefaultBackend l = None) (Locations e.2)) servers ->
  upstreamStep L H n (aUpstreams, servers) entry = Ret (aUpstreams', servers') ->
  aUpstreams' = aUpstreams ++ [entry.2].
Proof.
  intros Hall. unfold upstreamStep.
  destruct (beq_string (b_Name entry.2) (defUpstreamName H)); [by intros [= <- _]|].
  intros (r & Hrun & Hret)%bind_Ret.
  assert (Hinv : r.1.1 = [] /\ r.1.2 = []).
  { revert Hrun.
    apply (foldGo_invariant
             (fun s : list Backend * list Server * GoMap Server =>
                s.1.1 = [] /\ s.1.2 = [])); [|done].
    intros s e s' He [Hc Hh] Hstep. rewrite Forall_forall in Hall.
    destruct (defaultBackendServer_without_override entry.2 s s' e (Hall e He) Hstep)
      as [-> ->].
    by split. }
  destruct r as [[clones https] srvs]. cbn in Hinv. destruct Hinv as [-> ->].
  cbn in Hret. by injection Hret as <- _.
Qed.

End Passthrough.

(** C2 (the code at the failing input): an ingress with the
    SSL-passthrough annotation and the root path for ns/svc:443.  After the
    pass the server is a passthrough server whose root location points to
    the Backend ns-svc-443, and that Backend is not marked. *)
Theorem getBackendServers_passthrough_unmarked :
  let r := getBackendServers sampleNet (specHelpers "") plainController
             [passthroughIngress] in
  passthroughServers r = ["secure.example.com"] /\
  locationSummary r "secure.example.com" = [("/", Some "Prefix", "ns-svc-443")] /\
  backendSummary r = [("ns-svc-443", false); ("upstream-default-backend", false)].
Proof. vm_compute. repeat split. Qed.

(** ** The order of the output *)

Lemma Sorted_map {A B} (R : B -> B -> Prop) (key : A -> B) (l : list A) :
  Sorted (fun a b => R (key a) (key b)) l <-> Sorted R (map key l).
Proof.
  induction l as [|a l IH]; cbn [map]; [split; constructor|].
  split; intros Hs; inversion Hs as [|? ? Hs' Hhd]; subst;
    (constructor; [by apply IH|]);
    destruct l; cbn [map] in *; inversion Hhd; subst; by constructor.
Qed.

Lemma getStreamSnippets_spec (ingresses : list Ingress) (snippets : list string) :
  getStreamSnippets ingresses = Ret snippets ->
  snippets = omap snippetOf ingresses.
Proof.
  unfold getStreamSnippets.
  assert (Hgen : forall acc,
            foldGo (fun snippets i =>
                      anns ← deref (ParsedAnnotations i);
                      if beq_string (a_StreamSnippet anns) "" then Ret snippets
                      else Ret (snippets ++ [a_StreamSnippet anns]))
                   ingresses acc = Ret snippets ->
            snippets = acc ++ omap snippetOf ingresses).
  { induction ingresses as [|i ingresses IH]; intros acc; cbn [foldGo omap list_omap].
    - intros [= <-]. by rewrite app_nil_r.
    - unfold snippetOf at 1. destruct (ParsedAnnotations i) as [anns|]; [|discriminate].
      cbn [deref mbind Go_bind].
      destruct (beq_string (a_StreamSnippet anns) ""); cbn [mbind Go_bind].
      + apply IH.
      + intros Hrun%IH. by rewrite <- app_assoc in Hrun. }
  apply Hgen.
Qed.

Section OutputOrder.
Context (L : NetLib) (H : Helpers) (n : NGINXController).

Lemma ingressStep_ingresses (st st' : AssemblerState) (ing : Ingress) :
  ingressStep H n st ing = Ret st' ->
  exists ing', settleIngress H n ing = Some ing' /\
               as_ingresses st' = as_ingresses st ++ [ing'].
Proof.
  unfold ingressStep, settleIngress.
  destruct (ParsedAnnotations ing) as [anns|]; [|discriminate].
  cbn [deref mbind Go_bind]. intros (r & _ & [= <-])%bind_Ret.
  eexists. split; reflexivity.
Qed.

Lemma ingressLoop_ingresses (ingresses : list Ingress) :
  forall st st', foldGo (ingressStep H n) ingresses st = Ret st' ->
  as_ingresses st' = as_ingresses st ++ omap (settleIngress H n) ingresses.
Proof.
  induction ingresses as [|ing ingresses IH]; intros st st'; cbn [foldGo omap list_omap].
  - intros [= <-]. by rewrite app_nil_r.
  - intros (st1 & Hstep & Hrun)%bind_Ret.
    destruct (ingressStep_ingresses _ _ _ Hstep) as (ing' & -> & Hst1).
    rewrite (IH _ _ Hrun), Hst1. by rewrite <- app_assoc.
Qed.

(** What [getBackendServers] returns is sorted, and its ingress objects
    are the settled ones in the order of the input. *)
Lemma getBackendServers_sorted (ingresses : list Ingress)
    (r : list Backend * list Server * list Ingress) :
  getBackendServers L H n ingresses = Ret r ->
  Sorted (notAfter (fun a b => string_lt (b_Name a) (b_Name b))) r.1.1 /\
  Sorted (notAfter (fun a b => string_lt (Hostname a) (Hostname b))) r.1.2 /\
  r.2 = omap (settleIngress H n) ingresses.
Proof.
  unfold getBackendServers.
  intros (du & _ & Hrun)%bind_Ret.
  apply bind_Ret in Hrun as (st & Hloop & Hrun).
  apply ingressLoop_ingresses in Hloop. cbn [as_ingresses app] in Hloop.
  destruct (if nonCanaryIngressExists H _ _ then _ else _) as [upstreams servers].
  apply bind_Ret in Hrun as (r0 & _ & [= <-]). cbn [fst snd].
  split; [|split; [|exact Hloop]].
  - apply SliceStable_Sorted. intros a b. apply string_lt_asym.
  - apply SliceStable_Sorted. intros a b. apply string_lt_asym.
Qed.

Lemma configServerStep_hostnames (servers : list Server) :
  forall st st', foldGo configServerStep servers st = Ret st' ->
  map Hostname st'.2 = map Hostname st.2 ++ map Hostname servers.
Proof.
  induction servers as [|server servers IH]; intros st st'; cbn [foldGo map].
  - intros [= <-]. by rewrite app_nil_r.
  - intros (st1 & Hstep & Hrun)%bind_Ret. rewrite (IH _ _ Hrun).
    assert (Hst1 : map Hostname st1.2 = map Hostname st.2 ++ [Hostname server]).
    { unfold configServerStep in Hstep. destruct st as [[hosts pass] done].
      apply bind_Ret in Hstep as (locs & _ & Hstep). cbn [snd].
      destruct (negb (SSLPassthrough _)); injection Hstep as <-; cbn [snd];
        by rewrite List.map_app. }
    rewrite Hst1. by rewrite <- app_assoc.
Qed.

Lemma getStreamServices_is_sorted (configmapName : string) (proto : Protocol)
    (svcs : list L4Service) :
  getStreamServices L H n configmapName proto = Ret svcs ->
  Sorted (fun a b => l4s_Port a <= l4s_Port b) svcs.
Proof.
  unfold getStreamServices.
  destruct (beq_string configmapName ""); [intros [= <-]; constructor|].
  destruct (ParseNameNS H configmapName); [|intros [= <-]; constructor].
  destruct (GetConfigMap (store n) configmapName); [|intros [= <-]; constructor].
  intros (lp & _ & Hrun)%bind_Ret. apply bind_Ret in Hrun as (raw & _ & [= <-]).
  eapply Sorted_weaken; [|apply SliceStable_Sorted].
  - intros a b Hab. unfold notAfter in Hab. lia.
  - intros a b Hab. lia.
Qed.

(** The parts of the Configuration one by one, for a pass that returns. *)
Lemma getConfiguration_parts (ingresses : list Ingress)
    (r : gset string * list Server * Configuration) :
  getConfiguration L H n ingresses = Ret r ->
  StreamSnippets r.2 = omap snippetOf (omap (settleIngress H n) ingresses) /\
  getStreamServices L H n (TCPConfigMapName (cfg n)) ProtocolTCP = Ret (TCPEndpoints r.2) /\
  getStreamServices L H n (UDPConfigMapName (cfg n)) ProtocolUDP = Ret (UDPEndpoints r.2) /\
  BackendConfigChecksum r.2 = Checksum (GetBackendConfiguration (store n)) /\
  DefaultSSLCertificate r.2 = getDefaultSSLCertificate n /\
  Sorted (notAfter (fun a b => string_lt (b_Name a) (b_Name b))) (Backends r.2) /\
  Sorted (notAfter (fun a b => string_lt (Hostname a) (Hostname b))) (Servers r.2).
Proof.
  unfold getConfiguration.
  intros (r0 & Hbs & Hrun)%bind_Ret.
  destruct (getBackendServers_sorted _ _ Hbs) as (Hb & Hs & Hi).
  destruct r0 as [[upstreams servers] ings]. cbn [fst snd] in Hb, Hs, Hi.
  apply bind_Ret in Hrun as (st & Hloop & Hrun).
  apply configServerStep_hostnames in Hloop. cbn [snd map app] in Hloop.
  destruct st as [[hosts pass] servers'].
  apply bind_Ret in Hrun as (tcp & Htcp & Hrun).
  apply bind_Ret in Hrun as (udp & Hudp & Hrun).
  apply bind_Ret in Hrun as (snippets & Hsn & [= <-]). cbn [snd].
  cbn [StreamSnippets TCPEndpoints UDPEndpoints BackendConfigChecksum
       DefaultSSLCertificate Backends Servers].
  apply getStreamSnippets_spec in Hsn. subst ings.
  repeat (split; [done|]).
  apply (Sorted_map (fun a b => string_lt b a = false) Hostname).
  cbn [snd] in Hloop. rewrite Hloop.
  by apply (Sorted_map (fun a b => string_lt b a = false) Hostname).
Qed.

End OutputOrder.

(** First-writer-wins follows the order of the ingress list: of two
    ingresses that declare the same path and type, the one that comes first
    provides the backend. *)
Example getBackendServers_first_writer :
  locationSummary
    (getBackendServers sampleNet (specHelpers "") plainController
       [firstIngress; secondIngress]) "example.com" =
    [("/a", Some "Prefix", "ns-svc1-80"); ("/", Some "Prefix", "upstream-default-backend")] /\
  locationSummary
    (getBackendServers sampleNet (specHelpers "") plainController
       [secondIngress; firstIngress]) "example.com" =
    [("/a", Some "Prefix", "ns-svc2-80"); ("/", Some "Prefix", "upstream-default-backend")].
Proof. split; vm_compute; reflexivity. Qed.

(** * Further properties *)

(** ** endpoints.go: candidate ports *)

Lemma isInt_IntVal (v : IntOrString) : isInt v = true -> v = FromInt (IntVal v).
Proof. by destruct v. Qed.

(** One slice port: it is skipped, and then no port could be taken for
    it, or the one port taken for it is appended. *)
Lemma slicePortsStep_candidates (port : ServicePort) (proto : Protocol)
    (ports ports' : list Z) (epPort : EndpointPort) :
  slicePortsStep port proto ports epPort = Ret ports' ->
  (ports' = ports /\ forall p, ~ candidateOf port proto epPort p) \/
  (exists p, ports' = ports ++ [p] /\ candidateOf port proto epPort p).
Proof.
  unfold slicePortsStep, candidateOf.
  destruct (ep_Protocol epPort) as [pr|] eqn:Hpr; cbn [deref mbind Go_bind];
    [|discriminate].
  unfold beq_string at 1. case_bool_decide as Hproto; cbn [negb].
  2: { intros [= <-]. left. split; [done|]. intros p ([= ->] & _). done. }
  subst pr. intros (tp & Htp & Hret)%bind_Ret.
  assert (Hown : (ep_Port epPort = Some tp /\
                  (sp_Name port = "" \/ ep_Name epPort = Some (sp_Name port))) \/
                 (tp = 0 /\ sp_Name port <> "" /\ ep_Name epPort <> Some (sp_Name port))).
  { unfold beq_string in Htp. case_bool_decide as Hname.
    - destruct (ep_Port epPort) as [po|]; [|discriminate]. injection Htp as <-.
      left. split; [done | by left].
    - destruct (ep_Name epPort) as [nm|]; [|discriminate]. cbn in Htp.
      case_bool_decide as Hnm.
      + destruct (ep_Port epPort) as [po|]; [|discriminate]. injection Htp as <-.
        left. split; [done|]. right. by rewrite Hnm.
      + injection Htp as <-. right. split; [done|]. split; [done|].
        intros [= ->]. done. }
  destruct (tp =? 0) eqn:Hz; cbn [andb] in Hret.
  - apply Z.eqb_eq in Hz. subst tp.
    assert (Hfall : (ep_Port epPort = Some 0 /\
                     (sp_Name port = "" \/ ep_Name epPort = Some (sp_Name port))) \/
                    (sp_Name port <> "" /\ ep_Name epPort <> Some (sp_Name port))).
    { destruct Hown as [?|(_ & ?)]; [by left | by right]. }
    assert (Hnone : forall p, p <> 0 -> ep_Port epPort = Some p ->
                      sp_Name port = "" \/ ep_Name epPort = Some (sp_Name port) -> False).
    { intros p Hp Hport Hnames. destruct Hown as [[Hzero _]|(_ & Hnamed & Hother)].
      - congruence.
      - by destruct Hnames. }
    destruct (isInt (sp_TargetPort port)) eqn:Hint.
    + apply isInt_IntVal in Hint.
      destruct (IntVal (sp_TargetPort port) =? 0) eqn:Hz; injection Hret as <-.
      * apply Z.eqb_eq in Hz. left. split; [done|].
        intros p (_ & Hp & [[Hport Hnames]|[Htarget _]]); [by eapply Hnone|].
        rewrite Hint, Hz in Htarget. by injection Htarget as <-.
      * apply Z.eqb_neq in Hz. right. eexists. split; [reflexivity|].
        split; [done|]. split; [done|]. right. by split.
    + cbn in Hret. injection Hret as <-. left. split; [done|].
      intros p (_ & Hp & [[Hport Hnames]|[Htarget _]]); [by eapply Hnone|].
      by rewrite Htarget in Hint.
  - rewrite Hz in Hret. injection Hret as <-. apply Z.eqb_neq in Hz.
    destruct Hown as [Hown|(? & _)]; [|done].
    right. exists tp. split; [done|]. split; [done|]. split; [done|]. by left.
Qed.

Lemma slicePortsLoop_candidates (port : ServicePort) (proto : Protocol)
    (epPorts : list EndpointPort) :
  forall acc out,
    foldGo (slicePortsStep port proto) epPorts acc = Ret out ->
    exists used new,
      out = acc ++ new /\
      used `sublist_of` epPorts /\
      Forall2 (candidateOf port proto) used new /\
      (forall epPort p, epPort ∈ epPorts -> candidateOf port proto epPort p ->
                        epPort ∈ used).
Proof.
  induction epPorts as [|epPort epPorts IH]; intros acc out; cbn [foldGo].
  - intros [= <-]. exists [], []. rewrite app_nil_r.
    split; [done|]. split; [done|]. split; [constructor|]. intros ? ? Hin. inversion Hin.
  - intros (acc1 & Hstep & Hrest)%bind_Ret.
    destruct (IH _ _ Hrest) as (used & new & -> & Hsub & Hall & Hcomplete).
    destruct (slicePortsStep_candidates _ _ _ _ _ Hstep) as [[-> Hnone]|(p & -> & Hp)].
    + exists used, new. split; [done|]. split; [by apply sublist_cons|].
      split; [exact Hall|].
      intros e q [->|Hin]%elem_of_cons Hq; [by destruct (Hnone q) | by eapply Hcomplete].
    + exists (epPort :: used), (p :: new). split; [by rewrite <- app_assoc|].
      split; [by apply sublist_skip|]. split; [by constructor|].
      intros e q [->|Hin]%elem_of_cons Hq; [by left|]. right. by eapply Hcomplete.
Qed.

(** X1: the candidate target ports of a slice.  For a slice that declares
    no port and a numeric target port of the service, that target port is
    the one candidate.  Otherwise the candidates are, in the order of the
    slice ports, one port for each slice port that has one: a slice port of
    the requested protocol gives its own number when that is not zero and
    the service port is unnamed or of the same name, and else the numeric
    target port of the service when that is not zero; every other slice port
    gives nothing.  So there are never more candidates than the slice has
    ports, except the single one of a slice without ports. *)
Theorem slicePorts_candidates (port : ServicePort) (proto : Protocol)
    (eps : EndpointSlice) (ports : list Z) :
  slicePorts port proto eps = Ret ports ->
  (eps_Ports eps = [] ->
   forall p, sp_TargetPort port = FromInt p -> ports = [p]) /\
  (eps_Ports eps <> [] \/ isInt (sp_TargetPort port) = false ->
   exists used,
     used `sublist_of` eps_Ports eps /\
     Forall2 (candidateOf port proto) used ports /\
     (forall epPort p, epPort ∈ eps_Ports eps -> candidateOf port proto epPort p ->
                       epPort ∈ used)) /\
  (length ports <= Nat.max 1 (length (eps_Ports eps)))%nat.
Proof.
  unfold slicePorts.
  destruct ((length (eps_Ports eps) =? 0)%nat && isInt (sp_TargetPort port)) eqn:Hempty.
  - apply andb_true_iff in Hempty as [Hlen Hint].
    apply Nat.eqb_eq, length_zero_iff_nil in Hlen.
    intros [= <-]. split; [|split; [|cbn; lia]].
    + intros _ p Hp. by rewrite Hp.
    + intros [Hne|Hno]; [done | congruence].
  - intros Hrun.
    destruct (slicePortsLoop_candidates _ _ _ _ _ Hrun)
      as (used & new & Hout & Hsub & Hall & Hcomplete).
    cbn [app] in Hout. subst new. split; [|split].
    + intros Hnil p Hp. rewrite Hnil, Hp in Hempty. discriminate Hempty.
    + intros _. by exists used.
    + apply Forall2_length in Hall. apply sublist_length in Hsub. lia.
Qed.

Lemma slicePorts_candidates_witness :
  slicePorts httpPort ProtocolTCP mixedPortsSlice = Ret [80; 8080] /\
  exists used,
    used `sublist_of` eps_Ports mixedPortsSlice /\
    Forall2 (candidateOf httpPort ProtocolTCP) used [80; 8080].
Proof.
  assert (Hrun : slicePorts httpPort ProtocolTCP mixedPortsSlice = Ret [80; 8080])
    by (vm_compute; reflexivity).
  split; [exact Hrun|].
  destruct (slicePorts_candidates httpPort ProtocolTCP mixedPortsSlice _ Hrun)
    as (_ & Hused & _).
  destruct Hused as (used & Hsub & Hall & _); [left; discriminate|].
  by exists used.
Defined.

(** ** endpoints.go: the zone filter *)

Lemma foldGo_ext_in {A S} (f g : S -> A -> Go S) (l : list A) (s : S) :
  (forall s a, a ∈ l -> f s a = g s a) -> foldGo f l s = foldGo g l s.
Proof.
  revert s. induction l as [|a l IH]; intros s Hfg; cbn [foldGo]; [reflexivity|].
  rewrite (Hfg s a (list_elem_of_here _ _)). destruct (g s a) as [s'|]; cbn; [|reflexivity].
  apply IH. intros s0 a0 Ha0. apply Hfg. by right.
Qed.

(** When the flag is set: a zone is preferred, every endpoint of the slice
    has a hint, and under prefer-close some endpoint is hinted for the
    zone. *)
Lemma useTopologyHints_off (utd : bool) (zone : string) (eps : EndpointSlice) :
  filterOff utd zone eps <-> useTopologyHints utd zone eps = false.
Proof.
  unfold filterOff, useTopologyHints, beq_string. split.
  - intros [->|[(ep & Hep & Hl)|[-> Hf]]].
    + by rewrite bool_decide_eq_true_2.
    + by eapply (useTopologyHints_lacking utd zone eps ep).
    + case_bool_decide; [done|]. cbn [negb]. rewrite Hf. cbn [negb].
      by destruct (existsb lacksHint (eps_Endpoints eps)).
  - case_bool_decide as Hz; [by left|]. cbn [negb].
    destruct (existsb lacksHint (eps_Endpoints eps)) eqn:Hex.
    + intros _. right. left. apply existsb_exists in Hex as (ep & Hep & Hl).
      exists ep. split; [by apply list_elem_of_In | done].
    + destruct utd; [|discriminate].
      destruct (foundEndpointsForZone zone eps); [discriminate|].
      intros _. right. right. done.
Qed.

Lemma sliceStep_filter_off port proto utd zone st eps :
  useTopologyHints utd zone eps = false ->
  sliceStep port proto utd zone st eps = sliceStep port proto utd emptyZone st eps.
Proof.
  intros Hoff. unfold sliceStep. rewrite Hoff.
  replace (useTopologyHints utd emptyZone eps) with false by reflexivity.
  reflexivity.
Qed.

(** X2: zone filtering fails open slice by slice.  If for every slice of
    the service no zone is preferred, or some endpoint of the slice lacks a
    hint, or (with prefer-close traffic distribution) no endpoint of the
    slice is hinted for the preferred zone, the resolver returns exactly
    what it returns without a preferred zone. *)
Theorem getEndpointsFromSlices_fail_open (L : NetLib) (s : option Service)
    (port : option ServicePort) (proto : Protocol) (zone : string)
    (lookup : string -> option (list EndpointSlice)) :
  (forall svc key epss eps,
     s = Some svc -> lookup key = Some epss -> eps ∈ epss ->
     filterOff (preferClose svc) zone eps) ->
  getEndpointsFromSlices L s port proto zone lookup =
  getEndpointsFromSlices L s port proto emptyZone lookup.
Proof.
  intros Hoff. unfold getEndpointsFromSlices.
  destruct s as [svc|]; [|reflexivity]. destruct port as [port|]; [|reflexivity].
  destruct (beq_string (Type_ (Spec svc)) ServiceTypeExternalName); [reflexivity|].
  destruct (lookup _) as [epss|] eqn:Hl; [|reflexivity].
  rewrite (foldGo_ext_in _ (sliceStep port proto (preferClose svc) emptyZone));
    [reflexivity|].
  intros st eps Heps. apply sliceStep_filter_off, useTopologyHints_off.
  by eapply Hoff.
Qed.

Lemma getEndpointsFromSlices_fail_open_witness :
  getEndpointsFromSlices sampleNet (Some webService) (Some httpPort) ProtocolTCP
    "zone-a" (lookupOf dupSlices) =
  getEndpointsFromSlices sampleNet (Some webService) (Some httpPort) ProtocolTCP
    emptyZone (lookupOf dupSlices).
Proof.
  apply getEndpointsFromSlices_fail_open.
  intros svc key epss eps _ Hl Heps. unfold lookupOf in Hl.
  destruct (beq_string key "ns/svc"); [|discriminate]. injection Hl as <-.
  right. left.
  apply list_elem_of_In in Heps. cbn in Heps.
  destruct Heps as [<-|[<-|[]]];
    (exists (mkEndpoint "10.0.0.1" (Some true) None);
     split; [apply list_elem_of_In; cbn; auto | reflexivity]).
Defined.

Section ZoneFilter.
Context (L : NetLib).

Lemma endpointStep_zone utd zone epss eps ports st st' ep :
  eps ∈ epss -> ep ∈ eps_Endpoints eps ->
  Processed st /\ Forall (emittedForZone utd zone epss) st.1 ->
  endpointStep (useTopologyHints utd zone eps) zone ports st ep = Ret st' ->
  Processed st' /\ Forall (emittedForZone utd zone epss) st'.1.
Proof.
  intros Heps Hep [HP Hall]. unfold endpointStep.
  destruct (isNotReady ep); [by intros [= <-]|].
  destruct (emitEndpoint_spec ep ports st HP) as (HP' & _ & _ & new & Hnew & Hfa).
  assert (Hemit : (useTopologyHints utd zone eps = true ->
                   exists zs, Hints ep = Some zs /\ hintedFor zone zs = true) ->
                  Forall (emittedForZone utd zone epss) (emitEndpoint ep ports st).1).
  { intros Hz. rewrite Hnew. apply Forall_app. split; [done|].
    eapply Forall_impl; [exact Hfa|]. intros e [Ha Ht]. by exists eps, ep. }
  destruct (useTopologyHints utd zone eps) eqn:Hu.
  - destruct (Hints ep) as [zs|]; [|discriminate]. cbn.
    destruct (hintedFor zone zs) eqn:Hh; cbn; intros [= <-]; [|done].
    split; [done|]. apply Hemit. intros _. by exists zs.
  - cbn. intros [= <-]. split; [done|]. by apply Hemit.
Qed.

(** X3: the zone filter is sound.  Every Endpoint the resolver returns for
    a regular service comes from an endpoint of one of the service's slices
    (its address and its target reference), and when the filter is on for
    that slice the endpoint is hinted for the preferred zone. *)
Theorem getEndpointsFromSlices_zone_sound (s : Service) (port : ServicePort)
    (proto : Protocol) (zone : string)
    (lookup : string -> option (list EndpointSlice))
    (epss : list EndpointSlice) (l : list Endpoint) :
  Type_ (Spec s) <> ServiceTypeExternalName ->
  lookup (MetaNamespaceKey (svc_Namespace s) (svc_Name s)) = Some epss ->
  getEndpointsFromSlices L (Some s) (Some port) proto zone lookup = Ret l ->
  Forall (emittedForZone (preferClose s) zone epss) l.
Proof.
  intros Hty Hl Hrun. unfold getEndpointsFromSlices, beq_string in Hrun.
  rewrite bool_decide_eq_false_2 in Hrun by exact Hty. rewrite Hl in Hrun.
  apply bind_Ret in Hrun as (st & Hrun & [= <-]).
  revert Hrun.
  apply (foldGo_invariant
           (fun st => Processed st /\
                      Forall (emittedForZone (preferClose s) zone epss) st.1)).
  - intros st0 eps st' Heps Hst Hstep.
    unfold sliceStep in Hstep. apply bind_Ret in Hstep as (ports & _ & Hstep).
    revert Hstep.
    apply (foldGo_invariant
             (fun st => Processed st /\
                        Forall (emittedForZone (preferClose s) zone epss) st.1));
      [|exact Hst].
    intros st1 ep st2 Hep Hst1 Hstep. by eapply endpointStep_zone.
  - split; [apply Processed_init | constructor].
Qed.

End ZoneFilter.

Lemma getEndpointsFromSlices_zone_sound_witness :
  Forall (emittedForZone (preferClose webService) "zone-a" zoneSlices)
    [endpoint80 "10.0.0.1"; endpoint80 "10.0.0.3"].
Proof.
  apply (getEndpointsFromSlices_zone_sound sampleNet webService httpPort ProtocolTCP
           "zone-a" (lookupOf zoneSlices) zoneSlices).
  - discriminate.
  - reflexivity.
  - vm_compute. reflexivity.
Defined.

(** ** controller.go: the default upstream *)

(** X4: when the slices hold no nil port and a default service that is
    found declares at least one port, [getDefaultUpstream] returns a
    Backend with the reserved name and a non-empty endpoint list; without a
    configured default service, or when the lookup fails, that list is
    exactly the static default endpoint and no service is attached. *)
Theorem getDefaultUpstream_fallback (L : NetLib) (H : Helpers) (n : NGINXController) :
  wellFormedSlices (GetServiceEndpointsSlices (store n)) ->
  (forall svc, GetService (store n) (DefaultService (cfg n)) = Some svc ->
               Ports (Spec svc) <> []) ->
  exists b,
    getDefaultUpstream L H n = Ret b /\
    b_Name b = defUpstreamName H /\
    b_Endpoints b <> [] /\
    (DefaultService (cfg n) = "" \/
     GetService (store n) (DefaultService (cfg n)) = None ->
     b_Endpoints b = [DefaultEndpoint H n] /\ b_Service b = None) /\
    (forall svc, DefaultService (cfg n) <> "" ->
       GetService (store n) (DefaultService (cfg n)) = Some svc ->
       b_Service b = Some svc).
Proof.
  intros Hwf Hports.
  destruct (getDefaultUpstream_returns L H n Hwf Hports) as [b Hb].
  destruct (getDefaultUpstream_nonempty L H n b Hb) as [Hname Hne].
  exists b. split; [exact Hb|]. split; [exact Hname|]. split; [exact Hne|].
  unfold getDefaultUpstream, beq_string in Hb. split.
  - intros [Hkey|Hsvc].
    + rewrite bool_decide_eq_true_2 in Hb by exact Hkey. by injection Hb as <-.
    + case_bool_decide; [by injection Hb as <-|]. rewrite Hsvc in Hb.
      by injection Hb as <-.
  - intros svc Hkey Hsvc. rewrite bool_decide_eq_false_2 in Hb by exact Hkey.
    rewrite Hsvc in Hb. apply bind_Ret in Hb as (port0 & _ & Hb).
    apply bind_Ret in Hb as (endps & _ & Hb). by injection Hb as <-.
Qed.

Lemma getDefaultUpstream_fallback_witness :
  exists b,
    getDefaultUpstream sampleNet (specHelpers "") defaultServiceController = Ret b /\
    b_Endpoints b <> [] /\ b_Service b = Some webService.
Proof.
  destruct (getDefaultUpstream_fallback sampleNet (specHelpers "") defaultServiceController)
    as (b & Hb & _ & Hne & _ & Hsvc).
  - exact wellFormedSlices_dupSlices.
  - intros svc Hsvc. vm_compute in Hsvc. injection Hsvc as <-. discriminate.
  - exists b. split; [exact Hb|]. split; [exact Hne|].
    apply Hsvc; [discriminate | reflexivity].
Defined.

(** ** main.go: path normalisation *)

Lemma HasSuffix_unfold (s suffix : string) :
  HasSuffix s suffix =
  if beq_string s suffix then true
  else match s with
       | EmptyString => false
       | String _ s' => HasSuffix s' suffix
       end.
Proof. by destruct s. Qed.

(** [HasSuffix] is what its name says. *)
Lemma HasSuffix_spec (s suffix : string) :
  HasSuffix s suffix = true <-> exists pre, s = pre +:+ suffix.
Proof.
  split.
  - induction s as [|a s IH]; rewrite HasSuffix_unfold; unfold beq_string;
      case_bool_decide as Heq; try discriminate.
    + intros _. exists "". by rewrite string_app_nil.
    + intros _. exists "". by rewrite string_app_nil.
    + intros (pre & ->)%IH. exists (String a pre). by rewrite string_app_cons.
  - intros [pre ->]. induction pre as [|a pre IH].
    + rewrite string_app_nil, HasSuffix_unfold. unfold beq_string.
      by rewrite bool_decide_eq_true_2.
    + rewrite string_app_cons, HasSuffix_unfold. rewrite IH.
      by destruct (beq_string _ _).
Qed.

(** X5: [normalizePrefixPath] always returns a path that ends with a
    slash, leaves a path that already ends with one as it is, and is
    idempotent. *)
Theorem normalizePrefixPath_slash (path : string) :
  (exists pre, normalizePrefixPath path = pre +:+ "/") /\
  ((exists pre, path = pre +:+ "/") -> normalizePrefixPath path = path) /\
  normalizePrefixPath (normalizePrefixPath path) = normalizePrefixPath path.
Proof.
  assert (Hends : exists pre, normalizePrefixPath path = pre +:+ "/").
  { unfold normalizePrefixPath, beq_string. case_bool_decide as Hroot.
    - exists "". by rewrite string_app_nil.
    - destruct (HasSuffix path "/") eqn:Hs; cbn [negb].
      + by apply HasSuffix_spec.
      + by exists path. }
  assert (Hfix : forall p, (exists pre, p = pre +:+ "/") -> normalizePrefixPath p = p).
  { intros p Hp%HasSuffix_spec. unfold normalizePrefixPath, beq_string.
    case_bool_decide as Hroot; [by rewrite Hroot|]. by rewrite Hp. }
  split; [exact Hends|]. split; [apply Hfix|]. by apply Hfix.
Qed.

Lemma normalizePrefixPath_slash_witness :
  (exists pre, "/api/" = pre +:+ "/") /\ normalizePrefixPath "/api/" = "/api/".
Proof.
  assert (Hends : exists pre, "/api/" = pre +:+ "/") by (by exists "/api").
  split; [exact Hends|].
  exact (proj1 (proj2 (normalizePrefixPath_slash "/api/")) Hends).
Defined.

(** ** main.go: [updateServerLocations] *)

Lemma foldGo_panics {A S} (f : S -> A -> Go S) (l : list A) (a : A) :
  a ∈ l -> (forall s, f s a = Panic) -> forall s, foldGo f l s = Panic.
Proof.
  intros Ha Hf. induction l as [|b l IH]; intros s; [inversion Ha|].
  cbn [foldGo]. apply elem_of_cons in Ha as [<-|Ha].
  - by rewrite Hf.
  - destruct (f s b); cbn; [by apply IH | reflexivity].
Qed.

(** A loop that appends what each element yields returns the
    concatenation of the pieces. *)
Lemma foldGo_concat {A B} (f : A -> Go (list B)) (l : list A) :
  forall acc out,
    foldGo (fun acc a => ls ← f a; Ret (acc ++ ls)) l acc = Ret out ->
    exists pieces, Forall2 (fun a p => f a = Ret p) l pieces /\
                   out = acc ++ concat pieces.
Proof.
  induction l as [|a l IH]; intros acc out; cbn [foldGo].
  - intros [= <-]. exists []. split; [constructor | by rewrite app_nil_r].
  - intros (acc1 & Hstep & Hrun)%bind_Ret.
    apply bind_Ret in Hstep as (p & Hp & [= <-]).
    destruct (IH _ _ Hrun) as (pieces & Hall & ->).
    exists (p :: pieces). split; [by constructor|]. cbn [concat]. by rewrite app_assoc.
Qed.

Lemma updateServerLocations_returns (locations : list Location) :
  Forall (fun l => PathType_ l <> None) locations ->
  returns (updateServerLocations locations).
Proof.
  intros Hpt. unfold updateServerLocations.
  destruct (exactLocations_spec locations Hpt ∅) as (exact & -> & Hexact). cbn.
  apply foldGo_returns. intros acc loc Hloc.
  destruct (updateLocation_spec locations exact loc) as (piece & -> & _).
  - intros p. rewrite Hexact. split; [intros [Hp|Hp]; [set_solver | done] | by right].
  - rewrite Forall_forall in Hpt. by apply Hpt.
  - by eexists.
Qed.

(** X6: [updateServerLocations] panics exactly when one of the locations
    has no path type (a nil [PathType] pointer), wherever it stands in the
    list and whatever its path, the root path included. *)
Theorem updateServerLocations_panics_iff (locations : list Location) :
  updateServerLocations locations = Panic <->
  exists l, l ∈ locations /\ PathType_ l = None.
Proof.
  split.
  - intros Hpanic.
    destruct (decide (Exists (fun l => PathType_ l = None) locations)) as [Hex|Hno].
    + apply Exists_exists in Hex as (l & Hl & Hnil). exists l. by split.
    + apply Forall_Exists_neg in Hno.
      destruct (updateServerLocations_returns locations Hno) as [out Hout]. congruence.
  - intros (l & Hl & Hnil). unfold updateServerLocations.
    rewrite (foldGo_panics exactLocationsStep locations l Hl); [reflexivity|].
    intros exact. unfold exactLocationsStep. by rewrite Hnil.
Qed.

Lemma location_withPath_self (l : Location) :
  l = location_withPath l (Path l) (PathType_ l) (IngressPath l).
Proof. by destruct l. Qed.

Lemma updateLocation_derived (exact : gset string) (loc : Location)
    (piece : list Location) :
  updateLocation exact loc = Ret piece ->
  Forall (derivedFrom loc) piece /\ (1 <= length piece <= 2)%nat.
Proof.
  unfold updateLocation, beq_string. case_bool_decide as Hroot.
  { intros [= <-]. split; [|cbn; lia]. constructor; [|constructor].
    split; [done|]. split; [apply location_withPath_self|]. split; [by left | done]. }
  destruct (PathType_ loc) as [pt|] eqn:Ept; [|discriminate].
  cbn [location_withPath PathType_ Path IngressPath loc_Rewrite deref mbind Go_bind].
  assert (Hsame : forall pt',
            derivedFrom loc (location_withPath loc (Path loc) pt' (Path loc))).
  { intros pt'. split; [done|]. split; [reflexivity|]. split; [by left | done]. }
  assert (Hnorm : forall pt',
            derivedFrom loc (location_withPath
                               (location_withPath loc (Path loc) (Some pt) (Path loc))
                               (normalizePrefixPath (Path loc)) pt' (Path loc))).
  { intros pt'. split; [done|]. split; [reflexivity|]. split; [|done].
    cbn [location_withPath Path]. unfold normalizePrefixPath, beq_string.
    rewrite bool_decide_eq_false_2 by exact Hroot.
    destruct (HasSuffix (Path loc) "/"); cbn [negb]; [by left | by right]. }
  repeat match goal with
         | |- context [if ?c then _ else _] => destruct c
         end;
    intros [= <-]; (split; [|cbn; lia]);
    repeat (constructor; try apply Hsame; try apply Hnorm).
Qed.

(** X7: [updateServerLocations] only renames.  Every location of the
    result is derived from a location of the input, every location of the
    input has a derived location in the result, and the result is at most
    twice as long: backend, service, port, ingress and annotations are
    never changed, the path is kept or gets one slash appended, and a
    non-root location records its original path in [IngressPath]. *)
Theorem updateServerLocations_derived (locations out : list Location) :
  updateServerLocations locations = Ret out ->
  Forall (fun o => exists l, l ∈ locations /\ derivedFrom l o) out /\
  (forall l, l ∈ locations -> exists o, o ∈ out /\ derivedFrom l o) /\
  (length locations <= length out <= 2 * length locations)%nat.
Proof.
  unfold updateServerLocations. intros (exact & _ & Hrun)%bind_Ret.
  apply foldGo_concat in Hrun as (pieces & Hall & ->). cbn [app].
  induction Hall as [|loc piece locs pieces Hstep Hall IH]; cbn [concat length].
  - split; [constructor|]. split; [intros l Hl; inversion Hl | lia].
  - destruct (updateLocation_derived _ _ _ Hstep) as [Hd Hlen].
    destruct IH as (IH1 & IH2 & IH3).
    split; [|split].
    + apply Forall_app. split.
      * eapply Forall_impl; [exact Hd|]. intros o Ho. exists loc. split; [left | done].
      * eapply Forall_impl; [exact IH1|]. intros o (l & Hl & Ho).
        exists l. split; [by right | done].
    + intros l [->|Hl]%elem_of_cons.
      * destruct piece as [|o piece]; [cbn in Hlen; lia|].
        exists o. split; [apply elem_of_app; left; left|]. by inversion Hd.
      * destruct (IH2 l Hl) as (o & Ho & Hdo). exists o.
        split; [apply elem_of_app; by right | done].
    + rewrite length_app. lia.
Qed.

Lemma updateServerLocations_derived_witness :
  exists out,
    updateServerLocations sampleLocations = Ret out /\
    (length sampleLocations <= length out <= 2 * length sampleLocations)%nat.
Proof.
  destruct (updateServerLocations sampleLocations) as [out|] eqn:Hrun;
    [|vm_compute in Hrun; discriminate Hrun].
  exists out. split; [reflexivity|].
  exact (proj2 (proj2 (updateServerLocations_derived sampleLocations out Hrun))).
Defined.

Lemma updateServerLocations_panics_iff_witness :
  (exists l, l ∈ [plainLocation "/" pathTypePrefix "ns-web-80"; untypedLocation "/"] /\
             PathType_ l = None) /\
  updateServerLocations
    [plainLocation "/" pathTypePrefix "ns-web-80"; untypedLocation "/"] = Panic.
Proof.
  assert (Hex : exists l,
            l ∈ [plainLocation "/" pathTypePrefix "ns-web-80"; untypedLocation "/"] /\
            PathType_ l = None).
  { exists (untypedLocation "/"). split; [right; left | reflexivity]. }
  split; [exact Hex|].
  exact (proj2 (updateServerLocations_panics_iff _) Hex).
Defined.

(** ** main.go: stream snippets *)

(** X8: [getStreamSnippets] panics exactly when an ingress has no parsed
    annotations; otherwise it returns the non-empty stream snippets of the
    ingresses, so the result never holds an empty snippet and is no longer
    than the ingress list. *)
Theorem getStreamSnippets_nonempty (ingresses : list Ingress) :
  (getStreamSnippets ingresses = Panic <->
   exists i, i ∈ ingresses /\ ParsedAnnotations i = None) /\
  (forall snippets, getStreamSnippets ingresses = Ret snippets ->
     ("" ∉ snippets) /\
     (length snippets <= length ingresses)%nat /\
     (forall x, x ∈ snippets <->
        exists i anns, i ∈ ingresses /\ ParsedAnnotations i = Some anns /\
                       a_StreamSnippet anns = x /\ x <> "")).
Proof.
  split.
  - split.
    + intros Hpanic.
      destruct (decide (Exists (fun i => ParsedAnnotations i = None) ingresses))
        as [Hex|Hno].
      * apply Exists_exists in Hex as (i & Hi & Hnil). exists i. by split.
      * apply Forall_Exists_neg in Hno.
        assert (Hret : returns (getStreamSnippets ingresses)); [|destruct Hret; congruence].
        apply foldGo_returns. intros acc i Hi. rewrite Forall_forall in Hno.
        specialize (Hno i Hi). destruct (ParsedAnnotations i); [|done]. cbn.
        destruct (beq_string _ _); by eexists.
    + intros (i & Hi & Hnil). unfold getStreamSnippets.
      apply (foldGo_panics _ ingresses i Hi). intros acc. by rewrite Hnil.
  - intros snippets ->%getStreamSnippets_spec.
    assert (Hmem : forall x, x ∈ omap snippetOf ingresses <->
              exists i anns, i ∈ ingresses /\ ParsedAnnotations i = Some anns /\
                             a_StreamSnippet anns = x /\ x <> "").
    { intros x. rewrite list_elem_of_omap. unfold snippetOf, beq_string. split.
      - intros (i & Hi & Hsn). destruct (ParsedAnnotations i) as [anns|] eqn:Ha; [|done].
        case_bool_decide as Hempty; [done|]. injection Hsn as <-. by exists i, anns.
      - intros (i & anns & Hi & Ha & <- & Hne). exists i. split; [done|].
        rewrite Ha. by rewrite bool_decide_eq_false_2. }
    split; [|split; [|exact Hmem]].
    + intros (i & anns & _ & _ & _ & Hne)%Hmem. done.
    + clear Hmem. induction ingresses as [|i ingresses IH]; cbn; [lia|].
      destruct (snippetOf i); cbn; lia.
Qed.

Lemma getStreamSnippets_nonempty_witness :
  getStreamSnippets [plainIngress; bareIngress] = Panic /\
  (forall snippets,
     getStreamSnippets [snippetIngressA; plainIngress; snippetIngressB] = Ret snippets ->
     "" ∉ snippets).
Proof.
  split.
  - apply (proj2 (proj1 (getStreamSnippets_nonempty [plainIngress; bareIngress]))).
    exists bareIngress. split; [right; left | reflexivity].
  - intros snippets Hrun.
    exact (proj1 (proj2 (getStreamSnippets_nonempty _) snippets Hrun)).
Defined.

(** ** main.go: stream services *)

Section StreamFlags.
Context (L : NetLib) (H : Helpers) (n : NGINXController).

Lemma streamEntry_resolved reserved proto port svcRef svc :
  streamEntry L H n reserved proto port svcRef = Ret (Some svc) ->
  resolvedFrom L H n proto (port, svcRef) svc.
Proof.
  unfold streamEntry, resolvedFrom. cbn [fst snd].
  destruct (Atoi port) as [externalPort|]; [|discriminate].
  case_bool_decide as Hres; [discriminate|].
  destruct (Split1 ":" svcRef) as [|nsName [|svcPort opts]]; try discriminate.
  destruct (ParseNameNS H nsName) as [[svcNs svcName]|] eqn:Hns; [|discriminate].
  destruct (GetService (store n) nsName) as [s|] eqn:Hsvc; [|discriminate].
  intros (endps & Hend & Hret)%bind_Ret.
  destruct endps as [|e endps]; cbn [length Nat.eqb] in Hret; [discriminate|].
  injection Hret as <-.
  exists nsName, svcPort, opts, svcNs, svcName, s.
  cbn [l4s_Port l4s_Service l4s_Backend l4s_Endpoints l4_Port l4_Name l4_Namespace
       l4_Protocol l4_ProxyProtocol Decode Encode].
  do 10 (split; [done|]). split; [done|].
  unfold beq_string. split.
  - destruct opts as [|o rest]; cbn [length Nat.leb Nat.eqb andb].
    + split; [done | by intros (_ & o & rest & [=] & _)].
    + case_bool_decide as Htcp; cbn [andb].
      * split; [intros Ho; split; [done | by exists o, rest]|].
        by intros (_ & o' & rest' & [= <- <-] & Ho).
      * split; [done | by intros [? _]].
  - destruct opts as [|o1 [|o2 [|o3 rest]]]; cbn [length Nat.leb Nat.eqb andb].
    + split; [done | by intros (_ & o & o' & [=] & _)].
    + rewrite andb_false_r. split; [done | by intros (_ & o & o' & [=] & _)].
    + case_bool_decide as Htcp; cbn [andb].
      * split; [intros Ho; split; [done | by exists o1, o2]|].
        by intros (_ & o & o' & [= <- <-] & Ho).
      * split; [done | by intros [? _]].
    + rewrite andb_false_r. split; [done | by intros (_ & o & o' & [=] & _)].
Qed.

(** X9: every L4Service [getStreamServices] returns is read off an entry
    of the configmap: its external port is the key of the entry as an
    integer; its backend carries the namespace and name of the service the
    entry refers to, the port token of the entry as a string and the
    protocol asked for; that service is found in the store and attached;
    the endpoints are those resolved for the service and the token, at
    least one; and the proxy-protocol flags are set exactly for TCP with
    the option PROXY in the third field (decode) and in the fourth of four
    fields (encode). *)
Theorem getStreamServices_wellFormed (configmapName : string) (proto : Protocol)
    (svcs : list L4Service) :
  getStreamServices L H n configmapName proto = Ret svcs ->
  Forall (fun s => exists data e,
            GetConfigMap (store n) configmapName = Some data /\ e ∈ data /\
            resolvedFrom L H n proto e s) svcs.
Proof.
  unfold getStreamServices.
  destruct (beq_string configmapName ""); [intros [= <-]; constructor|].
  destruct (ParseNameNS H configmapName); [|intros [= <-]; constructor].
  destruct (GetConfigMap (store n) configmapName) as [data|];
    [|intros [= <-]; constructor].
  intros (lp & _ & Hrun)%bind_Ret. apply bind_Ret in Hrun as (raw & Hloop & [= <-]).
  apply Forall_forall. intros svc Hsvc%SliceStable_elem_of. revert svc Hsvc.
  apply Forall_forall. revert Hloop.
  apply (foldGo_invariant
           (Forall (fun s => exists data0 e,
                      Some data = Some data0 /\ e ∈ data0 /\
                      resolvedFrom L H n proto e s))); [|constructor].
  intros acc e acc' He Hacc Hstep. unfold streamStep in Hstep.
  apply bind_Ret in Hstep as (r & Hentry & Hret).
  destruct r as [svc|]; injection Hret as <-; [|done].
  apply Forall_app. split; [done|]. constructor; [|constructor].
  exists data, e. split; [done|]. split; [done|].
  destruct e as [port svcRef]. by eapply streamEntry_resolved.
Qed.

End StreamFlags.

Lemma getStreamServices_wellFormed_witness :
  exists svcs,
    getStreamServices sampleNet (specHelpers "")
      (withConfigMap streamController "ns/udp" [("53", "ns/svc:80:PROXY:PROXY")])
      "ns/udp" ProtocolTCP = Ret svcs /\
    length svcs = 1%nat /\
    Forall (fun s => exists data e,
              GetConfigMap
                (store (withConfigMap streamController "ns/udp"
                          [("53", "ns/svc:80:PROXY:PROXY")])) "ns/udp" = Some data /\
              e ∈ data /\
              resolvedFrom sampleNet (specHelpers "")
                (withConfigMap streamController "ns/udp" [("53", "ns/svc:80:PROXY:PROXY")])
                ProtocolTCP e s) svcs.
Proof.
  destruct (getStreamServices sampleNet (specHelpers "")
              (withConfigMap streamController "ns/udp" [("53", "ns/svc:80:PROXY:PROXY")])
              "ns/udp" ProtocolTCP) as [svcs|] eqn:Hrun;
    [|vm_compute in Hrun; discriminate Hrun].
  exists svcs. split; [reflexivity|]. split.
  - vm_compute in Hrun. by injection Hrun as <-.
  - exact (getStreamServices_wellFormed sampleNet (specHelpers "") _ "ns/udp"
             ProtocolTCP svcs Hrun).
Defined.

(** ** main.go: stream services and the order of the configmap *)

Lemma NoDup_map_eq {A B} (f : A -> B) (l : list A) (x y : A) :
  NoDup (map f l) -> x ∈ l -> y ∈ l -> f x = f y -> x = y.
Proof.
  induction l as [|a l IH]; cbn [map]; intros Hnd Hx Hy Hf; [inversion Hx|].
  apply NoDup_cons in Hnd as [Hnin Hnd].
  apply elem_of_cons in Hx as [->|Hx]; apply elem_of_cons in Hy as [->|Hy].
  - reflexivity.
  - destruct Hnin. rewrite Hf. apply list_elem_of_In, in_map, list_elem_of_In, Hy.
  - destruct Hnin. rewrite <- Hf. apply list_elem_of_In, in_map, list_elem_of_In, Hx.
  - by apply IH.
Qed.

(** A stable sort by an integer key gives the same list for two orders
    of the same elements when no two elements share a key. *)
Lemma SliceStable_unique {A} (key : A -> Z) (l l' : list A) :
  Permutation l l' -> NoDup (map key l) ->
  SliceStable (fun a b => key a <? key b) l = SliceStable (fun a b => key a <? key b) l'.
Proof.
  intros Hperm Hnd.
  assert (Hsorted : forall k, StronglySorted (fun a b => key a <= key b)
                                (SliceStable (fun a b => key a <? key b) k)).
  { intros k. apply Sorted.Sorted_StronglySorted; [intros a b c; lia|].
    eapply Sorted_weaken; [|apply SliceStable_Sorted].
    - intros a b Hab. unfold notAfter in Hab. lia.
    - intros a b Hab. lia. }
  apply (sorting.StronglySorted_unique_strong (fun a b => key a <= key b)); [|done..|].
  - intros x1 x2 Hx1%SliceStable_elem_of Hx2%SliceStable_elem_of H12 H21.
    apply (NoDup_map_eq key l); [done..| |lia]. by rewrite Hperm.
  - by rewrite !SliceStable_Permutation.
Qed.

Section StreamOrder.
Context (L : NetLib) (H : Helpers) (n : NGINXController).

Lemma streamLoop_panics reserved proto data e :
  e ∈ data -> streamEntry L H n reserved proto e.1 e.2 = Panic ->
  forall acc, foldGo (streamStep L H n reserved proto) data acc = Panic.
Proof.
  intros He Hp. apply (foldGo_panics _ data e He).
  intros acc. unfold streamStep. by rewrite Hp.
Qed.

Lemma streamPorts_sublist reserved proto (data : GoMap string) :
  map l4s_Port
      (omap (fun e => entryResult (streamEntry L H n reserved proto e.1 e.2)) data)
    `sublist_of` omap (fun e : string * string => Atoi e.1) data.
Proof.
  induction data as [|e data IH]; cbn [omap list_omap map]; [constructor|].
  destruct (streamEntry L H n reserved proto e.1 e.2) as [[svc|]|] eqn:He;
    cbn [entryResult map].
  - destruct (streamEntry_Some L H n _ _ _ _ _ He) as (-> & _).
    by apply sublist_skip.
  - destruct (Atoi e.1); [by apply sublist_cons | done].
  - destruct (Atoi e.1); [by apply sublist_cons | done].
Qed.

(** X10: the result of [getStreamServices] does not depend on the order in
    which the entries of the configmap are visited, provided no two keys
    parse to the same external port: for two orders of the same entries the
    two runs return the same list, or both panic. *)
Theorem getStreamServices_order (configmapName : string) (proto : Protocol)
    (data data' : GoMap string) :
  Permutation data data' ->
  NoDup (omap (fun e : string * string => Atoi e.1) data) ->
  getStreamServices L H (withConfigMap n configmapName data) configmapName proto =
  getStreamServices L H (withConfigMap n configmapName data') configmapName proto.
Proof.
  intros Hperm Hnd. unfold getStreamServices.
  destruct (beq_string configmapName "") eqn:Hname; [reflexivity|].
  destruct (ParseNameNS H configmapName); [|reflexivity].
  assert (Hget : forall d,
            GetConfigMap (store (withConfigMap n configmapName d)) configmapName = Some d).
  { intros d. cbn. unfold beq_string. by rewrite bool_decide_eq_true_2. }
  rewrite !Hget. cbn [withConfigMap cfg].
  destruct (cfg_ListenPorts (cfg n)) as [lp|]; [|reflexivity]. cbn [deref mbind Go_bind].
  change (foldGo (streamStep L H (withConfigMap n configmapName data) (reservedPorts H lp) proto))
    with (foldGo (streamStep L H n (reservedPorts H lp) proto)).
  change (foldGo (streamStep L H (withConfigMap n configmapName data') (reservedPorts H lp) proto))
    with (foldGo (streamStep L H n (reservedPorts H lp) proto)).
  destruct (existsb (fun e => match streamEntry L H n (reservedPorts H lp) proto e.1 e.2 with
                              | Panic => true
                              | Ret _ => false
                              end) data) eqn:Hex.
  - apply existsb_exists in Hex as (e & He%list_elem_of_In & Hp).
    destruct (streamEntry L H n (reservedPorts H lp) proto e.1 e.2) eqn:Hentry;
      [discriminate|].
    rewrite (streamLoop_panics _ _ data e He Hentry).
    rewrite (streamLoop_panics _ _ data' e); [reflexivity| |exact Hentry].
    by rewrite <- Hperm.
  - assert (Hret : forall e, e ∈ data ->
              returns (streamEntry L H n (reservedPorts H lp) proto e.1 e.2)).
    { intros e He.
      destruct (streamEntry L H n (reservedPorts H lp) proto e.1 e.2) eqn:Hentry;
        [by eexists|].
      assert (existsb (fun e => match streamEntry L H n (reservedPorts H lp) proto e.1 e.2 with
                                | Panic => true
                                | Ret _ => false
                                end) data = true); [|congruence].
      apply existsb_exists. exists e. split; [by apply list_elem_of_In|].
      by rewrite Hentry. }
    rewrite (streamLoop_spec L H n _ _ data Hret).
    rewrite (streamLoop_spec L H n _ _ data')
      by (intros e He; apply Hret; by rewrite Hperm).
    cbn [mbind Go_bind app]. f_equal.
    apply (SliceStable_unique l4s_Port).
    + by rewrite Hperm.
    + eapply sublist_NoDup; [exact Hnd | apply streamPorts_sublist].
Qed.

End StreamOrder.

Lemma getStreamServices_order_witness :
  getStreamServices sampleNet (specHelpers "")
    (withConfigMap streamController "ns/tcp"
       [("9000", "ns/svc:80"); ("53", "ns/svc:http"); ("x", "ns/svc:80")])
    "ns/tcp" ProtocolTCP =
  getStreamServices sampleNet (specHelpers "")
    (withConfigMap streamController "ns/tcp"
       [("x", "ns/svc:80"); ("53", "ns/svc:http"); ("9000", "ns/svc:80")])
    "ns/tcp" ProtocolTCP.
Proof.
  apply getStreamServices_order.
  - apply (Permutation_rev [("9000", "ns/svc:80"); ("53", "ns/svc:http"); ("x", "ns/svc:80")]).
  - vm_compute. repeat constructor; set_solver.
Defined.

(** ** controller.go: the order of locations *)

Lemma string_lt_spec (a b : string) :
  string_lt a b = true <-> OrderedTypeEx.String_as_OT.lt a b.
Proof.
  unfold string_lt, String.ltb.
  rewrite <- OrderedTypeEx.String_as_OT.cmp_lt. unfold OrderedTypeEx.String_as_OT.cmp.
  destruct (String.compare a b); split; congruence.
Qed.

Lemma string_lt_irrefl (a : string) : string_lt a a = false.
Proof.
  destruct (string_lt a a) eqn:Hlt; [|reflexivity].
  apply string_lt_asym in Hlt as Hlt'. congruence.
Qed.

Lemma string_lt_total (a b : string) :
  string_lt a b = true \/ a = b \/ string_lt b a = true.
Proof.
  unfold string_lt, String.ltb. rewrite (String.compare_antisym b a).
  destruct (String.compare a b) eqn:Hc; cbn; auto.
  right. left. by apply String.compare_eq_iff.
Qed.

(** "Not smaller than" is transitive on strings. *)
Lemma string_ge_trans (a b c : string) :
  string_lt a b = false -> string_lt b c = false -> string_lt a c = false.
Proof.
  intros Hab Hbc. destruct (string_lt a c) eqn:Hac; [|reflexivity].
  destruct (string_lt_total a b) as [Hlt|[->|Hlt]]; [congruence..|].
  apply string_lt_spec in Hlt, Hac.
  assert (string_lt b c = true); [|congruence].
  apply string_lt_spec. by eapply OrderedTypeEx.String_as_OT.lt_trans.
Qed.

Section StableSortKeys.
Context {A : Type}.

(** A stable sort keeps the order of the elements of a class none of
    which is less than another. *)
Lemma insertStable_filter (less : A -> A -> bool) (P : A -> Prop)
    `{!forall a, Decision (P a)} (x : A) (l : list A) :
  (forall a b, P a -> P b -> less a b = false) ->
  filter P (insertStable less x l) = filter P (x :: l).
Proof.
  intros Hclass. induction l as [|y l IH]; cbn [insertStable]; [reflexivity|].
  destruct (less y x) eqn:Hyx; [|reflexivity].
  rewrite filter_cons, IH, !filter_cons.
  destruct (decide (P y)) as [Hy|]; destruct (decide (P x)) as [Hx|]; try reflexivity.
  rewrite (Hclass y x Hy Hx) in Hyx. discriminate.
Qed.

Lemma SliceStable_filter (less : A -> A -> bool) (P : A -> Prop)
    `{!forall a, Decision (P a)} (l : list A) :
  (forall a b, P a -> P b -> less a b = false) ->
  filter P (SliceStable less l) = filter P l.
Proof.
  intros Hclass. induction l as [|x l IH]; [reflexivity|].
  cbn [SliceStable foldr]. rewrite insertStable_filter by exact Hclass.
  rewrite !filter_cons. fold (SliceStable less l). by rewrite IH.
Qed.

Context (k : A -> nat) (R1 : A -> A -> Prop).

Lemma insertStable_byKeyThen (x : A) (l : list A) :
  StronglySorted (byKeyThen k R1) l -> Forall (R1 x) l ->
  StronglySorted (byKeyThen k R1) (insertStable (fun a b => (k b <? k a)%nat) x l).
Proof.
  induction 1 as [|y l Hs IH Hy]; intros Hx; cbn [insertStable].
  - repeat constructor.
  - apply Forall_cons in Hx as [Hxy Hxl].
    destruct (k x <? k y)%nat eqn:Hlt.
    + apply Nat.ltb_lt in Hlt. constructor; [by apply IH|].
      rewrite insertStable_Permutation. constructor; [|exact Hy].
      split; [lia|lia].
    + apply Nat.ltb_ge in Hlt. constructor; [by constructor|].
      constructor.
      * split; [lia | by intros _].
      * rewrite Forall_forall in Hy, Hxl |- *. intros z Hz.
        destruct (Hy z Hz) as [Hzy _]. split; [lia|]. intros _. by apply Hxl.
Qed.

Lemma SliceStable_byKeyThen (l : list A) :
  StronglySorted R1 l ->
  StronglySorted (byKeyThen k R1) (SliceStable (fun a b => (k b <? k a)%nat) l).
Proof.
  induction 1 as [|x l Hs IH Hx]; cbn [SliceStable foldr]; [constructor|].
  apply insertStable_byKeyThen; [exact IH|].
  fold (SliceStable (fun a b => (k b <? k a)%nat) l).
  by rewrite SliceStable_Permutation.
Qed.

End StableSortKeys.

(** X11: the two stable sorts of lines 419-425 leave the locations of a
    server with the longest paths first and, among paths of one length, in
    descending lexicographic order; no location is lost or added, and
    locations with the same path keep the order they had. *)
Theorem sortLocations_order (locs : list Location) :
  Permutation (sortLocations locs) locs /\
  StronglySorted longestFirst (sortLocations locs) /\
  (forall p, filter (fun l => Path l = p) (sortLocations locs) =
             filter (fun l => Path l = p) locs).
Proof.
  unfold sortLocations. split; [|split].
  - by rewrite !SliceStable_Permutation.
  - apply (SliceStable_byKeyThen (fun l => String.length (Path l))
             (fun a b => string_lt (Path a) (Path b) = false)).
    apply Sorted.Sorted_StronglySorted.
    + intros a b c. apply string_ge_trans.
    + apply (SliceStable_Sorted (fun a b => string_lt (Path b) (Path a))).
      intros a b. apply string_lt_asym.
  - intros p. rewrite !SliceStable_filter; [reflexivity| |].
    + intros a b -> <-. apply string_lt_irrefl.
    + intros a b -> <-. apply Nat.ltb_irrefl.
Qed.

(** ** main.go: hosts and passthrough routes *)

Lemma hosts_fold (aliases : list string) (hosts : gset string) (h : string) :
  h ∈ fold_left (fun hs alias => {[alias]} ∪ hs) aliases hosts <->
  h ∈ hosts \/ h ∈ aliases.
Proof.
  revert hosts. induction aliases as [|a aliases IH]; intros hosts; cbn [fold_left].
  - split; [by left | intros [?|Hh]; [done | inversion Hh]].
  - rewrite IH, elem_of_union, elem_of_singleton, elem_of_cons. tauto.
Qed.

Lemma passthroughOf_root (server : Server) (pb : SSLPassthroughBackend) :
  pb ∈ passthroughOf server ->
  pt_Hostname pb = Hostname server /\
  exists loc, loc ∈ Locations server /\ Path loc = rootLocation /\
              pt_Backend pb = loc_Backend loc /\ pt_Service pb = loc_Service loc /\
              pt_Port pb = loc_Port loc.
Proof.
  unfold passthroughOf.
  destruct (List.find _ _) as [loc|] eqn:Hfind; [|intros Hpb; inversion Hpb].
  intros ->%list_elem_of_singleton. cbn. split; [done|].
  apply find_some in Hfind as [Hin Hroot]. exists loc.
  split; [by apply list_elem_of_In|]. split; [|done].
  by apply bool_decide_eq_true in Hroot.
Qed.

Lemma configServerLoop_spec (servers : list Server) :
  forall hosts0 pass0 done0 hosts pass done,
    foldGo configServerStep servers (hosts0, pass0, done0) = Ret (hosts, pass, done) ->
    exists servers',
      done = done0 ++ servers' /\
      Forall2 (fun s s' => updateServerLocations (Locations s) = Ret (Locations s') /\
                           s' = server_withLocations s (Locations s')
                                  (RedirectFromToWWW s)) servers servers' /\
      (forall h, h ∈ hosts <->
         h ∈ hosts0 \/ exists s, s ∈ servers' /\ (h = Hostname s \/ h ∈ Aliases s)) /\
      pass = pass0 ++ flat_map passthroughRoutes servers'.
Proof.
  induction servers as [|s servers IH]; intros hosts0 pass0 done0 hosts pass done;
    cbn [foldGo].
  - intros [= <- <- <-]. exists []. split; [by rewrite app_nil_r|].
    split; [constructor|]. split; [|by rewrite app_nil_r].
    intros h. split; [by left | intros [?|(s & Hs & _)]; [done | inversion Hs]].
  - intros (st1 & Hstep & Hrun)%bind_Ret.
    unfold configServerStep in Hstep. apply bind_Ret in Hstep as (locs & Hlocs & Hstep).
    set (s' := server_withLocations s locs (RedirectFromToWWW s)) in *.
    assert (Hst1 : st1 = (fold_left (fun hs alias => {[alias]} ∪ hs) (Aliases s')
                            ({[Hostname s']} ∪ hosts0),
                          pass0 ++ passthroughRoutes s', done0 ++ [s'])).
    { unfold passthroughRoutes. destruct (SSLPassthrough s'); cbn [negb] in Hstep;
        injection Hstep as <-; [reflexivity | by rewrite app_nil_r]. }
    subst st1. destruct (IH _ _ _ _ _ _ Hrun) as (servers' & -> & Hall & Hhosts & ->).
    exists (s' :: servers'). split; [by rewrite <- app_assoc|]. split; [|split].
    + constructor; [|exact Hall]. by split.
    + intros h. rewrite Hhosts, hosts_fold, elem_of_union, elem_of_singleton. split.
      * intros [[[->|?]|?]|(s0 & Hs0 & Hh)].
        -- right. exists s'. split; [left | by left].
        -- by left.
        -- right. exists s'. split; [left | by right].
        -- right. exists s0. split; [by right | done].
      * intros [?|(s0 & [->|Hs0]%elem_of_cons & Hh)].
        -- left. left. by right.
        -- left. destruct Hh as [->|?]; [left; by left | by right].
        -- right. by exists s0.
    + cbn [flat_map]. by rewrite <- app_assoc.
Qed.

(** X12: for a pass that returns, the servers handed back are those of the
    Configuration; the host set holds exactly the hostnames and aliases of
    these servers; and the passthrough backends are, in server order, one
    route for each passthrough server that has a root location (the route
    of its first root location), and none for any other server. *)
Theorem getConfiguration_hosts (L : NetLib) (H : Helpers) (n : NGINXController)
    (ingresses : list Ingress) (hosts : gset string) (servers : list Server)
    (c : Configuration) :
  getConfiguration L H n ingresses = Ret (hosts, servers, c) ->
  Servers c = servers /\
  (forall h, h ∈ hosts <->
     exists s, s ∈ servers /\ (h = Hostname s \/ h ∈ Aliases s)) /\
  PassthroughBackends c = flat_map passthroughRoutes servers /\
  (forall pb, pb ∈ PassthroughBackends c ->
     exists s loc, s ∈ servers /\ SSLPassthrough s = true /\
       pt_Hostname pb = Hostname s /\ loc ∈ Locations s /\ Path loc = rootLocation /\
       pt_Backend pb = loc_Backend loc).
Proof.
  unfold getConfiguration. intros (r0 & _ & Hrun)%bind_Ret.
  destruct r0 as [[upstreams servers0] ings].
  apply bind_Ret in Hrun as (st & Hloop & Hrun). destruct st as [[hosts1 pass] servers1].
  apply bind_Ret in Hrun as (tcp & _ & Hrun).
  apply bind_Ret in Hrun as (udp & _ & Hrun).
  apply bind_Ret in Hrun as (snippets & _ & [= <- <- <-]).
  cbn [Servers PassthroughBackends].
  destruct (configServerLoop_spec _ _ _ _ _ _ _ Hloop) as (servers' & -> & _ & Hhosts & ->).
  cbn [app]. split; [done|]. split; [|split; [done|]].
  - intros h. rewrite Hhosts. split; [intros [Hh|?]; [set_solver | done] | by right].
  - intros pb (s & Hs & Hpb)%list_elem_of_In%in_flat_map.
    unfold passthroughRoutes in Hpb. destruct (SSLPassthrough s) eqn:Hpass; [|done].
    apply list_elem_of_In, passthroughOf_root in Hpb as (Hhost & loc & Hloc & Hroot & Hb & _).
    exists s, loc. split; [by apply list_elem_of_In|]. done.
Qed.

Lemma getConfiguration_hosts_witness :
  exists hosts servers c,
    getConfiguration sampleNet (specHelpers "") plainController [passthroughIngress] =
      Ret (hosts, servers, c) /\
    PassthroughBackends c = flat_map passthroughRoutes servers /\
    length (PassthroughBackends c) = 1%nat.
Proof.
  assert (Hlen : match getConfiguration sampleNet (specHelpers "") plainController
                         [passthroughIngress] with
                 | Ret (_, _, c) => length (PassthroughBackends c)
                 | Panic => 0%nat
                 end = 1%nat) by (vm_compute; reflexivity).
  destruct (getConfiguration sampleNet (specHelpers "") plainController
              [passthroughIngress]) as [[[hosts servers] c]|] eqn:Hrun;
    [|discriminate Hlen].
  exists hosts, servers, c. split; [reflexivity|].
  destruct (getConfiguration_hosts _ _ _ _ _ _ _ Hrun) as (_ & _ & Hpass & _).
  by split.
Defined.

(** ** controller.go: what the merge loop keeps *)

Lemma registryRel_refl {V} (R : V -> V -> Prop) (m : GoMap V) :
  (forall v, R v v) -> registryRel R m m.
Proof. intros HR. induction m; constructor; auto. Qed.

Lemma registryRel_trans {V} (R : V -> V -> Prop) (m1 m2 m3 : GoMap V) :
  (forall a b c, R a b -> R b c -> R a c) ->
  registryRel R m1 m2 -> registryRel R m2 m3 -> registryRel R m1 m3.
Proof.
  intros HR H12. revert m3. induction H12 as [|e1 e2 m1 m2 [Hk Hv] _ IH]; intros m3 H23.
  - inversion H23. constructor.
  - inversion H23 as [|? e3 ? m3' [Hk' Hv'] Hrest]; subst. constructor.
    + split; [congruence | by eapply HR].
    + by apply IH.
Qed.

Lemma registryRel_mapSet {V} (R : V -> V -> Prop) (m : GoMap V) (k : string) (v v' : V) :
  (forall x, R x x) -> mapGet m k = Some v -> R v v' ->
  registryRel R m (mapSet m k v').
Proof.
  intros HR. induction m as [|[k0 v0] m IH]; cbn [mapGet mapSet]; [discriminate|].
  destruct (beq_string k0 k).
  - intros [= ->] Hv. constructor; [by split|]. by apply registryRel_refl.
  - intros Hget Hv. constructor; [by split|]. by apply IH.
Qed.

Lemma registryRel_mapGet {V} (R : V -> V -> Prop) (m m' : GoMap V) (k : string) (v : V) :
  registryRel R m m' -> mapGet m k = Some v ->
  exists v', mapGet m' k = Some v' /\ R v v'.
Proof.
  induction 1 as [|[k0 v0] [k0' v0'] m m' [Hk Hv] _ IH]; cbn [mapGet]; [discriminate|].
  cbn in Hk, Hv. subst k0'. destruct (beq_string k0 k).
  - intros [= ->]. by exists v0'.
  - exact IH.
Qed.

Lemma enriches_refl (s : Server) : enriches s s.
Proof. unfold enriches. repeat split; auto. Qed.

Lemma enriches_trans (a b c : Server) : enriches a b -> enriches b c -> enriches a c.
Proof.
  intros (H1 & H2 & H3 & H4 & H5 & H6 & H7 & H8 & H9 & H10 & H11)
         (G1 & G2 & G3 & G4 & G5 & G6 & G7 & G8 & G9 & G10 & G11).
  unfold enriches. repeat split; try congruence; try lia.
  - auto.
  - intros Hne. rewrite <- (H7 Hne). apply G7. by rewrite (H7 Hne).
  - intros Hne. rewrite <- (H8 Hne). apply G8. by rewrite (H8 Hne).
  - intros Hne. rewrite <- (H9 Hne). apply G9. by rewrite (H9 Hne).
  - intros i loc Hi Hd. apply G11; [|done]. by apply H11.
Qed.

Lemma affinityOnly_refl (b : Backend) : affinityOnly b b.
Proof.
  unfold affinityOnly. split; [by destruct b|]. split; [done|]. split; [done|].
  intros locs key paths Hl Hk. exists locs, []. by rewrite app_nil_r.
Qed.

Lemma affinityOnly_trans (a b c : Backend) :
  affinityOnly a b -> affinityOnly b c -> affinityOnly a c.
Proof.
  intros (H1 & H2 & H3 & H4) (G1 & G2 & G3 & G4). unfold affinityOnly.
  split; [rewrite G1, H1 at 1; reflexivity|]. split; [|split].
  - intros Hne. rewrite <- (H2 Hne). apply G2. by rewrite (H2 Hne).
  - intros Hne. rewrite <- (H3 Hne). apply G3. by rewrite (H3 Hne).
  - intros locs key paths Hl Hk.
    destruct (H4 locs key paths Hl Hk) as (locs1 & more1 & Hl1 & Hk1).
    destruct (G4 locs1 key _ Hl1 Hk1) as (locs2 & more2 & Hl2 & Hk2).
    exists locs2, (more1 ++ more2). by rewrite app_assoc.
Qed.

Section MergeLoop.
Context (H : Helpers) (n : NGINXController).

Lemma mergeLocation_keeps (ups : Backend) (ing : Ingress) (anns : AnnotationsIngress)
    (nginxPath : string) (pathType : option PathType) (locs : list Location) :
  length (mergeLocation H ups ing anns nginxPath pathType locs).1.1 = length locs /\
  (forall i loc, locs !! i = Some loc -> IsDefBackend loc = false ->
     (mergeLocation H ups ing anns nginxPath pathType locs).1.1 !! i = Some loc).
Proof.
  induction locs as [|l locs [IHlen IHkeep]]; cbn [mergeLocation]; [by split|].
  destruct (negb (beq_string (Path l) nginxPath)).
  - destruct (mergeLocation H ups ing anns nginxPath pathType locs) as [[rest' a] w].
    cbn [fst] in *. split; [cbn; by rewrite IHlen|].
    intros [|i] loc Hi Hd; cbn in *; [done | by apply IHkeep].
  - destruct (negb (bool_decide (PathType_ l = pathType))); [by split|].
    destruct (negb (IsDefBackend l)) eqn:Hdef; [by split|].
    cbn [fst]. split; [reflexivity|].
    intros [|i] loc Hi Hd; cbn in *; [|done].
    injection Hi as ->. rewrite Hd in Hdef. discriminate.
Qed.

Lemma cookie_fold_extends (path : string) (keys : list string)
    (locs : gmap string (list string)) (key : string) (paths : list string) :
  locs !! key = Some paths ->
  exists more, fold_left (cookieAddPath path) keys locs !! key = Some (paths ++ more).
Proof.
  revert locs paths. induction keys as [|k keys IH]; intros locs paths Hk; cbn [fold_left].
  - exists []. by rewrite app_nil_r.
  - unfold cookieAddPath at 2. destruct (decide (k = key)) as [->|Hne].
    + destruct (IH (<[key := default [] (locs !! key) ++ [path]]> locs) (paths ++ [path]))
        as [more Hmore].
      { rewrite lookup_insert_eq. by rewrite Hk. }
      exists ([path] ++ more). by rewrite app_assoc.
    + apply IH. by rewrite lookup_insert_ne.
Qed.

Lemma applySessionAffinity_affinityOnly (anns : AnnotationsIngress) (host : string)
    (server : Server) (path : HTTPIngressPath) (ups ups' : Backend) :
  applySessionAffinity anns host server path ups = Ret ups' ->
  affinityOnly ups ups'.
Proof.
  unfold applySessionAffinity, affinityOnly, beq_string.
  assert (Hty : forall v, AffinityType (b_SessionAffinity ups) <> "" ->
            (if bool_decide (AffinityType (b_SessionAffinity ups) = "") then v
             else AffinityType (b_SessionAffinity ups)) =
            AffinityType (b_SessionAffinity ups)).
  { intros v Hne. by rewrite bool_decide_eq_false_2. }
  assert (Hmode : forall v, AffinityMode (b_SessionAffinity ups) <> "" ->
            (if bool_decide (AffinityMode (b_SessionAffinity ups) = "") then v
             else AffinityMode (b_SessionAffinity ups)) =
            AffinityMode (b_SessionAffinity ups)).
  { intros v Hne. by rewrite bool_decide_eq_false_2. }
  destruct (bool_decide (sa_Type (a_SessionAffinity anns) = "cookie")).
  - destruct (cookie_Locations _) as [locs0|] eqn:Hlocs; cbn [deref mbind Go_bind];
      [|discriminate].
    intros [= <-]. cbn.
    split; [reflexivity|]. split; [apply Hty|]. split; [apply Hmode|].
    intros locs key paths [= <-] Hk.
    destruct (cookie_fold_extends (hp_Path path) (host :: Aliases server) locs0 key paths Hk)
      as [more Hmore].
    by eexists _, more.
  - intros [= <-]. cbn. split; [reflexivity|]. split; [apply Hty|]. split; [apply Hmode|].
    intros locs key paths Hl Hk. exists locs, []. by rewrite app_nil_r.
Qed.

Lemma pathStep_keeps (ing : Ingress) (anns : AnnotationsIngress) (host : string)
    (server server' : Server) (ups ups' : GoMap Backend) (path : HTTPIngressPath) :
  pathStep H ing anns host (server, ups) path = Ret (server', ups') ->
  enriches server server' /\ registryRel affinityOnly ups ups'.
Proof.
  unfold pathStep.
  destruct (hp_BackendService path) as [svcb|].
  2: { intros [= <- <-]. split; [apply enriches_refl|].
       apply registryRel_refl, affinityOnly_refl. }
  destruct (mapGet ups _) as [u|] eqn:Hget; cbn [deref mbind Go_bind]; [|discriminate].
  destruct (b_NoServer u).
  { intros [= <- <-]. split; [apply enriches_refl|].
    apply registryRel_refl, affinityOnly_refl. }
  set (nginxPath := if negb (beq_string (hp_Path path) "") then hp_Path path
                    else rootLocation).
  destruct (mergeLocation_keeps u ing anns nginxPath (hp_PathType path) (Locations server))
    as [Hlen Hkeep].
  destruct (mergeLocation H u ing anns nginxPath (hp_PathType path) (Locations server))
    as [[locs addLoc] www].
  cbn [fst] in Hlen, Hkeep.
  intros (u' & Haff & [= <- <-])%bind_Ret. split.
  - unfold enriches. destruct addLoc; cbn.
    + repeat split; try done.
      * intros ->. by destruct (FromToWWW _), www.
      * rewrite length_app. lia.
      * intros i loc Hi Hd. apply lookup_app_l_Some. by apply Hkeep.
    + repeat split; try done.
      * intros ->. by destruct www.
      * lia.
  - eapply registryRel_mapSet; [apply affinityOnly_refl | exact Hget|].
    by eapply applySessionAffinity_affinityOnly.
Qed.

Lemma ruleStep_keeps (ing : Ingress) (anns : AnnotationsIngress)
    (servers servers' : GoMap Server) (ups ups' : GoMap Backend) (rule : IngressRule) :
  ruleStep H n ing anns (servers, ups) rule = Ret (servers', ups') ->
  registryRel enriches servers servers' /\ registryRel affinityOnly ups ups'.
Proof.
  unfold ruleStep.
  destruct (bool_decide (HTTP rule = None) && negb (beq_string _ _)).
  { intros [= <- <-]. split; apply registryRel_refl;
      [apply enriches_refl | apply affinityOnly_refl]. }
  match goal with
  | |- context [deref (mapGet servers ?k)] => generalize k; intros srvKey
  end.
  destruct (mapGet servers srvKey) as [server|] eqn:Hget; cbn [deref mbind Go_bind];
    [|discriminate].
  match goal with
  | |- context [server_withAuth server ?err ?ca ?pssl] =>
      assert (Hauth : enriches server (server_withAuth server err ca pssl))
  end.
  { unfold enriches, beq_string. cbn. repeat split; try done.
    - intros Hne. by rewrite bool_decide_eq_false_2.
    - intros Hne. by rewrite bool_decide_eq_false_2.
    - intros Hne. destruct (negb (ProxySSLLocationOnly _)); [|done].
      by rewrite bool_decide_eq_false_2. }
  destruct (HTTP rule) as [paths|].
  - intros (r & Hrun & [= <- <-])%bind_Ret.
    assert (Hinv : enriches server r.1 /\ registryRel affinityOnly ups r.2).
    { revert Hrun.
      apply (foldGo_invariant
               (fun st : Server * GoMap Backend =>
                  enriches server st.1 /\ registryRel affinityOnly ups st.2)).
      - intros [s0 u0] path [s1 u1] _ [Hs Hu] Hstep. cbn [fst snd] in *.
        destruct (pathStep_keeps _ _ _ _ _ _ _ _ Hstep) as [Hs' Hu'].
        split; [by eapply enriches_trans|].
        eapply registryRel_trans; [apply affinityOnly_trans | exact Hu | exact Hu'].
      - split; [exact Hauth|]. apply registryRel_refl, affinityOnly_refl. }
    destruct Hinv as [Hs Hu]. split; [|exact Hu].
    eapply registryRel_mapSet; [apply enriches_refl | exact Hget | exact Hs].
  - intros [= <- <-]. split; [|apply registryRel_refl, affinityOnly_refl].
    eapply registryRel_mapSet; [apply enriches_refl | exact Hget | exact Hauth].
Qed.

Lemma ingressStep_keeps (st st' : AssemblerState) (ing : Ingress) :
  ingressStep H n st ing = Ret st' ->
  registryRel enriches (as_servers st) (as_servers st') /\
  registryRel affinityOnly (as_upstreams st) (as_upstreams st').
Proof.
  unfold ingressStep. intros (anns & _ & Hrun)%bind_Ret.
  apply bind_Ret in Hrun as (r & Hrun & [= <-]). cbn [as_servers as_upstreams].
  revert Hrun.
  apply (foldGo_invariant
           (fun s : GoMap Server * GoMap Backend =>
              registryRel enriches (as_servers st) s.1 /\
              registryRel affinityOnly (as_upstreams st) s.2)).
  - intros [s0 u0] rule [s1 u1] _ [Hs Hu] Hstep. cbn [fst snd] in *.
    destruct (ruleStep_keeps _ _ _ _ _ _ _ Hstep) as [Hs' Hu'].
    split; (eapply registryRel_trans; [|eassumption|eassumption]);
      [apply enriches_trans | apply affinityOnly_trans].
  - split; apply registryRel_refl; [apply enriches_refl | apply affinityOnly_refl].
Qed.

Lemma ingressLoop_keeps (ingresses : list Ingress) (st st' : AssemblerState) :
  foldGo (ingressStep H n) ingresses st = Ret st' ->
  registryRel enriches (as_servers st) (as_servers st') /\
  registryRel affinityOnly (as_upstreams st) (as_upstreams st').
Proof.
  apply (foldGo_invariant
           (fun s => registryRel enriches (as_servers st) (as_servers s) /\
                     registryRel affinityOnly (as_upstreams st) (as_upstreams s))).
  - intros s0 ing s1 _ [Hs Hu] Hstep.
    destruct (ingressStep_keeps _ _ _ Hstep) as [Hs' Hu'].
    split; (eapply registryRel_trans; [|eassumption|eassumption]);
      [apply enriches_trans | apply affinityOnly_trans].
  - split; apply registryRel_refl; [apply enriches_refl | apply affinityOnly_refl].
Qed.

(** X13: the merge loop of [getBackendServers] enriches Servers and never
    replaces them.  After the loop the server registry has the same keys in
    the same order; every Server keeps its hostname, passthrough flag,
    certificate, aliases and snippet; its redirect flag is only ever set;
    its TLS error, mutual-TLS and backend-TLS settings are kept once set
    (first writer wins); locations are only added, and a location bound to
    a backend other than the default is still there, unchanged, at the same
    position. *)
Theorem mergeLoop_enriches_servers (ingresses : list Ingress) (st st' : AssemblerState) :
  foldGo (ingressStep H n) ingresses st = Ret st' ->
  registryRel enriches (as_servers st) (as_servers st').
Proof. intros Hrun. exact (proj1 (ingressLoop_keeps ingresses st st' Hrun)). Qed.

(** X14: the merge loop changes nothing of a Backend but its session
    affinity.  After the loop the Backend registry has the same keys in the
    same order; name, service, port, endpoints and flags of every Backend
    are as before; affinity type and mode are kept once set; and the paths
    recorded for a host in the cookie map are only extended. *)
Theorem mergeLoop_affinity_only (ingresses : list Ingress) (st st' : AssemblerState) :
  foldGo (ingressStep H n) ingresses st = Ret st' ->
  registryRel affinityOnly (as_upstreams st) (as_upstreams st').
Proof. intros Hrun. exact (proj2 (ingressLoop_keeps ingresses st st' Hrun)). Qed.

End MergeLoop.

Lemma mergeLoop_enriches_servers_witness :
  exists st',
    foldGo (ingressStep (specHelpers "") plainController) [firstIngress; secondIngress]
      (initialState (specHelpers "") plainController [firstIngress; secondIngress]
         plainDefaultUpstream) = Ret st' /\
    registryRel enriches
      (as_servers (initialState (specHelpers "") plainController
                     [firstIngress; secondIngress] plainDefaultUpstream))
      (as_servers st').
Proof.
  eexists. split; [vm_compute; reflexivity|].
  apply (mergeLoop_enriches_servers (specHelpers "") plainController
           [firstIngress; secondIngress]).
  vm_compute. reflexivity.
Defined.

Lemma mergeLoop_affinity_only_witness :
  exists st',
    foldGo (ingressStep (specHelpers "") plainController) cookieIngresses
      (initialState (specHelpers "") plainController cookieIngresses
         plainDefaultUpstream) = Ret st' /\
    registryRel affinityOnly
      (as_upstreams (initialState (specHelpers "") plainController cookieIngresses
                       plainDefaultUpstream))
      (as_upstreams st').
Proof.
  eexists. split; [vm_compute; reflexivity|].
  apply (mergeLoop_affinity_only (specHelpers "") plainController cookieIngresses).
  vm_compute. reflexivity.
Defined.

(** ** controller.go: the pass over the Backends after the merge *)

Lemma foldGo_prefix {A S} (P : list A -> S -> Prop) (f : S -> A -> Go S) (l : list A) :
  (forall pre a s s', P pre s -> f s a = Ret s' -> P (pre ++ [a]) s') ->
  forall s s', P [] s -> foldGo f l s = Ret s' -> P l s'.
Proof.
  intros Hstep.
  assert (Hgen : forall pre s s', P pre s -> foldGo f l s = Ret s' -> P (pre ++ l) s').
  { induction l as [|a l IH]; intros pre s s' Hs Hrun; simpl in Hrun.
    - rewrite app_nil_r. congruence.
    - apply bind_Ret in Hrun as (s1 & H1 & H2).
      replace (pre ++ a :: l) with ((pre ++ [a]) ++ l) by (by rewrite <- app_assoc).
      eapply IH; [|exact H2]. by eapply Hstep. }
  intros s s'. apply (Hgen []).
Qed.

Lemma usable_mono (bs bs' : list Backend) (name : string) :
  bs ⊆ bs' -> usable bs name -> usable bs' name.
Proof. intros Hsub (c & Hc & Hn & He). exists c. split; [by apply Hsub | done]. Qed.

Lemma rerouted_refl (bs : list Backend) (l : Location) : rerouted bs l l.
Proof. split; [by destruct l | by split; left]. Qed.

Lemma rerouted_mono (bs bs' : list Backend) (l l' : Location) :
  bs ⊆ bs' -> rerouted bs l l' -> rerouted bs' l l'.
Proof.
  intros Hsub (Heq & Hb & Hd). split; [exact Heq|].
  split; [destruct Hb as [Hb|Hb] | destruct Hd as [Hd|Hd]];
    (by left) || (right; by eapply usable_mono).
Qed.

Lemma rerouted_trans (bs : list Backend) (l1 l2 l3 : Location) :
  rerouted bs l1 l2 -> rerouted bs l2 l3 -> rerouted bs l1 l3.
Proof.
  intros (Heq & Hb & Hd) (Heq' & Hb' & Hd'). split.
  - rewrite Heq'. rewrite Heq at 1. reflexivity.
  - split.
    + destruct Hb' as [Hb'|Hb']; [|by right].
      rewrite Hb'. exact Hb.
    + destruct Hd' as [Hd'|Hd']; [|by right].
      rewrite Hd'. exact Hd.
Qed.

Lemma repointed_refl (bs : list Backend) (s : Server) : repointed bs s s.
Proof.
  split; [by destruct s|].
  induction (Locations s); constructor; [apply rerouted_refl | done].
Qed.

Lemma repointed_mono (bs bs' : list Backend) (s s' : Server) :
  bs ⊆ bs' -> repointed bs s s' -> repointed bs' s s'.
Proof.
  intros Hsub [Heq Hl]. split; [exact Heq|].
  eapply Forall2_impl; [exact Hl|]. intros l l'. by apply rerouted_mono.
Qed.

Lemma repointed_trans (bs : list Backend) (s1 s2 s3 : Server) :
  repointed bs s1 s2 -> repointed bs s2 s3 -> repointed bs s1 s3.
Proof.
  intros [Heq Hl] [Heq' Hl']. split.
  - rewrite Heq', Heq. reflexivity.
  - revert Hl'. generalize (Locations s3). clear Heq Heq'.
    induction Hl as [|l1 l2 ls1 ls2 H12 _ IH]; intros ls3 H23.
    + inversion H23. constructor.
    + inversion H23 as [|? l3 ? ls3' H23' Hrest]; subst. constructor.
      * by eapply rerouted_trans.
      * by apply IH.
Qed.

Lemma registryRel_impl {V} (R R' : V -> V -> Prop) (m m' : GoMap V) :
  (forall a b, R a b -> R' a b) -> registryRel R m m' -> registryRel R' m m'.
Proof.
  intros HR Hm. eapply Forall2_impl; [exact Hm|].
  intros e e' [Hk Hv]. split; [exact Hk | by apply HR].
Qed.

Lemma registryRel_snoc {V} (R : V -> V -> Prop) (m m' : GoMap V) (k : string) (v v' : V) :
  registryRel R m m' -> R v v' -> registryRel R (m ++ [(k, v)]) (m' ++ [(k, v')]).
Proof.
  intros Hm Hv. apply Forall2_app; [exact Hm|]. constructor; [by split | constructor].
Qed.

Section PostMerge.
Context (L : NetLib) (H : Helpers) (n : NGINXController).

Lemma defaultBackendStep_reroutes (upstream : Backend) (server : Server)
    (acc acc' : DefaultBackendAcc) (location : Location) :
  defaultBackendStep L H n upstream server acc location = Ret acc' ->
  Forall (cloneOf upstream) (acc_clones acc) ->
  Forall (cloneOf upstream) (acc_clones acc') /\
  acc_clones acc ⊆ acc_clones acc' /\
  exists location',
    acc_locations acc' = acc_locations acc ++ [location'] /\
    rerouted (acc_clones acc') location location'.
Proof.
  intros Hstep Hclones.
  assert (Hskip : forall a,
            a = {| acc_clones := acc_clones acc; acc_isHTTPSfrom := acc_isHTTPSfrom a;
                   acc_locations := acc_locations acc ++ [location] |} ->
            Forall (cloneOf upstream) (acc_clones a) /\
            acc_clones acc ⊆ acc_clones a /\
            exists location',
              acc_locations a = acc_locations acc ++ [location'] /\
              rerouted (acc_clones a) location location').
  { intros a ->. cbn. split; [exact Hclones|]. split; [done|].
    exists location. split; [done | apply rerouted_refl]. }
  revert Hstep. unfold defaultBackendStep.
  destruct (negb (shouldCreateUpstreamForLocationDefaultBackend H upstream location)).
  { intros [= <-]. by apply Hskip. }
  destruct (loc_DefaultBackend location) as [db|]; cbn [deref mbind Go_bind];
    [|discriminate].
  destruct (Ports (Spec db)) as [|sp ports].
  { intros [= <-]. by apply Hskip. }
  intros (endps & _ & [= <-])%bind_Ret.
  destruct (0 <? length endps)%nat eqn:Hlen.
  2: { by apply Hskip. }
  apply Nat.ltb_lt in Hlen. cbn [acc_clones acc_locations].
  set (name := "custom-default-backend-" +:+ svc_Namespace db +:+ "-" +:+ svc_Name db).
  set (clone := backend_withEndpoints upstream name endps (b_Service upstream)).
  assert (Huse : usable (acc_clones acc ++ [clone]) name).
  { exists clone. split; [apply elem_of_app; right; apply list_elem_of_here|].
    split; [done|]. cbn. by destruct endps; [cbn in Hlen; lia|]. }
  split.
  - apply Forall_app. split; [exact Hclones|]. constructor; [|constructor].
    split; [done|]. split; [cbn; by destruct endps; [cbn in Hlen; lia|]|].
    by exists (svc_Namespace db), (svc_Name db).
  - split; [intros c Hc; apply elem_of_app; by left|].
    eexists. split; [reflexivity|]. split; [done|]. cbn. split; [|by right].
    destruct (length (b_Endpoints upstream) =? 0)%nat; [by right | by left].
Qed.

Lemma defaultBackendServerStep_reroutes (upstream : Backend)
    (clones clones' : list Backend) (https https' : list Server)
    (done done' : GoMap Server) (entry : string * Server) :
  defaultBackendServerStep L H n upstream (clones, https, done) entry =
    Ret (clones', https', done') ->
  Forall (cloneOf upstream) clones ->
  Forall (cloneOf upstream) clones' /\ clones ⊆ clones' /\
  exists s', done' = done ++ [(entry.1, s')] /\ repointed clones' entry.2 s'.
Proof.
  unfold defaultBackendServerStep. intros (acc & Hrun & [= <- <- <-])%bind_Ret Hclones.
  assert (Hinv : Forall (cloneOf upstream) (acc_clones acc) /\
                 clones ⊆ acc_clones acc /\
                 Forall2 (rerouted (acc_clones acc)) (Locations entry.2)
                   (acc_locations acc)).
  { revert Hrun.
    apply (foldGo_prefix
             (fun pre a => Forall (cloneOf upstream) (acc_clones a) /\
                           clones ⊆ acc_clones a /\
                           Forall2 (rerouted (acc_clones a)) pre (acc_locations a))).
    - intros pre l a a' (Hc & Hsub & Hl) Hstep.
      destruct (defaultBackendStep_reroutes _ _ _ _ _ Hstep Hc)
        as (Hc' & Hsub' & l' & -> & Hl').
      split; [exact Hc'|]. split; [by etrans|].
      apply Forall2_app; [|by constructor].
      eapply Forall2_impl; [exact Hl|]. intros x y. by apply rerouted_mono.
    - cbn. split; [exact Hclones|]. split; [done | constructor]. }
  destruct Hinv as (Hc & Hsub & Hl). split; [exact Hc|]. split; [exact Hsub|].
  eexists. split; [reflexivity|]. split; [reflexivity | exact Hl].
Qed.

Lemma upstreamStep_reroutes (aUpstreams aUpstreams' : list Backend)
    (servers servers' : GoMap Server) (entry : string * Backend) :
  upstreamStep L H n (aUpstreams, servers) entry = Ret (aUpstreams', servers') ->
  exists u' clones,
    aUpstreams' = aUpstreams ++ u' :: clones /\
    marked (defUpstreamName H) entry.2 u' /\
    Forall (cloneOf entry.2) clones /\
    registryRel (repointed clones) servers servers'.
Proof.
  unfold upstreamStep, beq_string. case_bool_decide as Hname.
  { intros [= <- <-]. exists entry.2, []. split; [done|]. split; [by left|].
    split; [constructor|]. apply registryRel_refl, repointed_refl. }
  intros (r & Hrun & Hret)%bind_Ret.
  assert (Hinv : Forall (cloneOf entry.2) r.1.1 /\ registryRel (repointed r.1.1) servers r.2).
  { revert Hrun.
    apply (foldGo_prefix
             (fun pre (st : list Backend * list Server * GoMap Server) =>
                Forall (cloneOf entry.2) st.1.1 /\ registryRel (repointed st.1.1) pre st.2)).
    - intros pre e [[c h] d] [[c' h'] d'] [Hc Hd] Hstep. cbn [fst snd] in *.
      destruct (defaultBackendServerStep_reroutes _ _ _ _ _ _ _ _ Hstep Hc)
        as (Hc' & Hsub & s' & -> & Hs').
      split; [exact Hc'|]. destruct e as [k s]. apply registryRel_snoc; [|exact Hs'].
      eapply registryRel_impl; [|exact Hd]. intros a b. by apply repointed_mono.
    - split; constructor. }
  destruct r as [[clones https] srvs]. cbn [fst snd] in Hinv. destruct Hinv as [Hc Hs].
  cbn in Hret. injection Hret as <- <-.
  eexists _, clones. split; [reflexivity|]. split; [|by split].
  destruct https; cbn [length]; [by left | right; by split].
Qed.

Lemma upstreamLoop_reroutes (upstreams : GoMap Backend) (aUpstreams0 aUpstreams : list Backend)
    (servers servers' : GoMap Server) :
  foldGo (upstreamStep L H n) upstreams (aUpstreams0, servers) = Ret (aUpstreams, servers') ->
  (exists groups : list (Backend * list Backend),
     aUpstreams = aUpstreams0 ++ flat_map (fun g => g.1 :: g.2) groups /\
     Forall2 (fun (e : string * Backend) g =>
                marked (defUpstreamName H) e.2 g.1 /\ Forall (cloneOf e.2) g.2)
       upstreams groups) /\
  registryRel (repointed aUpstreams) servers servers'.
Proof.
  revert aUpstreams0 servers.
  induction upstreams as [|e upstreams IH]; intros a0 servers; cbn [foldGo].
  - intros [= <- <-]. split.
    + exists []. split; [by rewrite app_nil_r | constructor].
    + apply registryRel_refl, repointed_refl.
  - intros ([a1 s1] & Hstep & Hrest)%bind_Ret.
    destruct (upstreamStep_reroutes _ _ _ _ _ Hstep) as (u' & clones & -> & Hm & Hc & Hs).
    destruct (IH _ _ Hrest) as [(groups & -> & Hgroups) Hs']. split.
    + exists ((u', clones) :: groups). split; [by rewrite <- app_assoc|].
      constructor; [by split | exact Hgroups].
    + eapply registryRel_trans; [apply repointed_trans | | exact Hs'].
      eapply registryRel_impl; [|exact Hs]. intros a b. apply repointed_mono.
      intros c Hc'. rewrite !elem_of_app. left. right. by right.
Qed.

(** X15: the shape of the Backend list the pass after the merge builds
    (before it is sorted).  Every Backend of the registry is in the list, in
    registry order, unchanged or marked for SSL passthrough (the default
    Backend is never marked); each is followed by the clones made from it,
    and nothing else is in the list.  A clone copies its Backend, has a
    name of the form custom-default-backend-<namespace>-<name> and at least
    one endpoint. *)
Theorem upstreamLoop_output (upstreams : GoMap Backend) (aUpstreams : list Backend)
    (servers servers' : GoMap Server) :
  foldGo (upstreamStep L H n) upstreams ([], servers) = Ret (aUpstreams, servers') ->
  exists groups : list (Backend * list Backend),
    aUpstreams = flat_map (fun g => g.1 :: g.2) groups /\
    Forall2 (fun (e : string * Backend) g =>
               marked (defUpstreamName H) e.2 g.1 /\ Forall (cloneOf e.2) g.2)
      upstreams groups.
Proof.
  intros Hrun. exact (proj1 (upstreamLoop_reroutes upstreams [] aUpstreams servers servers' Hrun)).
Qed.

(** X16: the pass after the merge repoints a Location only to a Backend
    it emits.  The server registry keeps its keys and order;
    a Server changes in its locations only, and a Location in its
    [Backend] and [DefaultBackendUpstreamName] only; each of the two is
    either as before or the name of a Backend of the output list that has
    at least one endpoint. *)
Theorem upstreamLoop_repoints (upstreams : GoMap Backend) (aUpstreams : list Backend)
    (servers servers' : GoMap Server) :
  foldGo (upstreamStep L H n) upstreams ([], servers) = Ret (aUpstreams, servers') ->
  registryRel (repointed aUpstreams) servers servers'.
Proof.
  intros Hrun. exact (proj2 (upstreamLoop_reroutes upstreams [] aUpstreams servers servers' Hrun)).
Qed.

End PostMerge.

Lemma upstreamLoop_output_witness :
  exists aUpstreams servers' groups,
    foldGo (upstreamStep sampleNet (specHelpers "") defaultServiceController)
      overrideUpstreams ([], overrideServers) = Ret (aUpstreams, servers') /\
    length aUpstreams = 3%nat /\
    aUpstreams = flat_map (fun g => g.1 :: g.2) groups /\
    Forall2 (fun (e : string * Backend) g =>
               marked "upstream-default-backend" e.2 g.1 /\ Forall (cloneOf e.2) g.2)
      overrideUpstreams groups.
Proof.
  assert (Hlen : match foldGo (upstreamStep sampleNet (specHelpers "")
                                 defaultServiceController)
                         overrideUpstreams ([], overrideServers) with
                 | Ret r => length r.1
                 | Panic => 0%nat
                 end = 3%nat) by (vm_compute; reflexivity).
  destruct (foldGo (upstreamStep sampleNet (specHelpers "") defaultServiceController)
              overrideUpstreams ([], overrideServers)) as [[aUpstreams servers']|] eqn:Hrun;
    [|discriminate Hlen].
  destruct (upstreamLoop_output sampleNet (specHelpers "") defaultServiceController
              _ _ _ _ Hrun) as (groups & Heq & Hgroups).
  exists aUpstreams, servers', groups. split; [reflexivity|].
  split; [exact Hlen|]. split; [exact Heq | exact Hgroups].
Defined.

Lemma upstreamLoop_repoints_witness :
  exists aUpstreams servers',
    foldGo (upstreamStep sampleNet (specHelpers "") defaultServiceController)
      overrideUpstreams ([], overrideServers) = Ret (aUpstreams, servers') /\
    map (fun e : string * Server => map loc_Backend (Locations e.2)) servers' =
      [["custom-default-backend-ns-svc"; "ns-web-80"]] /\
    registryRel (repointed aUpstreams) overrideServers servers'.
Proof.
  assert (Hlocs : match foldGo (upstreamStep sampleNet (specHelpers "")
                                  defaultServiceController)
                          overrideUpstreams ([], overrideServers) with
                  | Ret r => map (fun e : string * Server =>
                                    map loc_Backend (Locations e.2)) r.2
                  | Panic => []
                  end = [["custom-default-backend-ns-svc"; "ns-web-80"]])
    by (vm_compute; reflexivity).
  destruct (foldGo (upstreamStep sampleNet (specHelpers "") defaultServiceController)
              overrideUpstreams ([], overrideServers)) as [[aUpstreams servers']|] eqn:Hrun;
    [|discriminate Hlocs].
  exists aUpstreams, servers'. split; [reflexivity|]. split; [exact Hlocs|].
  exact (upstreamLoop_repoints sampleNet (specHelpers "") defaultServiceController
           _ _ _ _ Hrun).
Defined.

(** ** controller.go: the whole pass *)

Lemma sortLocations_sorted (locs : list Location) :
  StronglySorted longestFirst (sortLocations locs).
Proof.
  unfold sortLocations.
  apply (SliceStable_byKeyThen (fun l => String.length (Path l))
           (fun a b => string_lt (Path a) (Path b) = false)).
  apply Sorted.Sorted_StronglySorted.
  - intros a b c. apply string_ge_trans.
  - apply (SliceStable_Sorted (fun a b => string_lt (Path b) (Path a))).
    intros a b. apply string_lt_asym.
Qed.

Lemma ingressStep_unparsed (H : Helpers) (n : NGINXController) (st : AssemblerState)
    (ing : Ingress) :
  ParsedAnnotations ing = None -> ingressStep H n st ing = Panic.
Proof. intros Hnone. unfold ingressStep. by rewrite Hnone. Qed.

Section WholePass.
Context (L : NetLib) (H : Helpers) (n : NGINXController).

(** X17: what [getBackendServers] returns is in a fixed order.  The
    Backends are in ascending order of their names, the Servers in ascending
    order of their hostnames, and the locations of every Server are in the
    order of the two sorts: longest path first and, among paths of one
    length, descending. *)
Theorem getBackendServers_ordered (ingresses : list Ingress)
    (upstreams : list Backend) (servers : list Server) (settled : list Ingress) :
  getBackendServers L H n ingresses = Ret (upstreams, servers, settled) ->
  StronglySorted (fun a b => string_lt (b_Name b) (b_Name a) = false) upstreams /\
  StronglySorted (fun a b => string_lt (Hostname b) (Hostname a) = false) servers /\
  Forall (fun s => StronglySorted longestFirst (Locations s)) servers.
Proof.
  intros Hrun.
  destruct (getBackendServers_sorted L H n ingresses _ Hrun) as (Hups & Hsrv & _).
  cbn [fst snd] in Hups, Hsrv.
  split; [|split].
  - apply Sorted.Sorted_StronglySorted; [|exact Hups].
    intros a b c Hab Hbc. exact (string_ge_trans _ _ _ Hbc Hab).
  - apply Sorted.Sorted_StronglySorted; [|exact Hsrv].
    intros a b c Hab Hbc. exact (string_ge_trans _ _ _ Hbc Hab).
  - revert Hrun. unfold getBackendServers.
    intros (du & _ & Hrun)%bind_Ret.
    apply bind_Ret in Hrun as (st & _ & Hrun).
    destruct (if nonCanaryIngressExists H _ _ then _ else _) as [ups srvs].
    apply bind_Ret in Hrun as (r0 & _ & [= _ <- _]).
    apply Forall_forall. intros s Hs.
    apply SliceStable_elem_of, list_elem_of_fmap in Hs as (e & -> & _).
    cbn [Locations server_withLocations]. apply sortLocations_sorted.
Qed.

(** X18: one ingress whose annotations were not parsed makes the whole
    pass panic: [getBackendServers] dereferences [ParsedAnnotations] of
    every ingress, and [getConfiguration] starts with
    [getBackendServers]. *)
Theorem getConfiguration_unparsed (ingresses : list Ingress) (ing : Ingress) :
  ing ∈ ingresses -> ParsedAnnotations ing = None ->
  getBackendServers L H n ingresses = Panic /\
  getConfiguration L H n ingresses = Panic.
Proof.
  intros Hin Hnone.
  assert (Hpanic : getBackendServers L H n ingresses = Panic).
  { unfold getBackendServers. destruct (getDefaultUpstream L H n) as [du|]; [|reflexivity].
    cbn [mbind Go_bind].
    rewrite (foldGo_panics (ingressStep H n) ingresses ing Hin); [reflexivity|].
    intros st. by apply ingressStep_unparsed. }
  split; [exact Hpanic|]. unfold getConfiguration. by rewrite Hpanic.
Qed.

End WholePass.

Lemma getBackendServers_ordered_witness :
  exists upstreams servers settled,
    getBackendServers sampleNet (specHelpers "") plainController
      [secondIngress; firstIngress] = Ret (upstreams, servers, settled) /\
    map b_Name upstreams = ["ns-svc1-80"; "ns-svc2-80"; "upstream-default-backend"] /\
    StronglySorted (fun a b => string_lt (b_Name b) (b_Name a) = false) upstreams /\
    StronglySorted (fun a b => string_lt (Hostname b) (Hostname a) = false) servers /\
    Forall (fun s => StronglySorted longestFirst (Locations s)) servers.
Proof.
  assert (Hnames : match getBackendServers sampleNet (specHelpers "") plainController
                           [secondIngress; firstIngress] with
                   | Ret r => map b_Name r.1.1
                   | Panic => []
                   end = ["ns-svc1-80"; "ns-svc2-80"; "upstream-default-backend"])
    by (vm_compute; reflexivity).
  destruct (getBackendServers sampleNet (specHelpers "") plainController
              [secondIngress; firstIngress]) as [[[upstreams servers] settled]|] eqn:Hrun;
    [|discriminate Hnames].
  exists upstreams, servers, settled. split; [reflexivity|]. split; [exact Hnames|].
  exact (getBackendServers_ordered sampleNet (specHelpers "") plainController _ _ _ _ Hrun).
Defined.

Lemma getConfiguration_unparsed_witness :
  getBackendServers sampleNet (specHelpers "") plainController
    [firstIngress; bareIngress] = Panic /\
  getConfiguration sampleNet (specHelpers "") plainController
    [firstIngress; bareIngress] = Panic.
Proof.
  apply (getConfiguration_unparsed sampleNet (specHelpers "") plainController
           [firstIngress; bareIngress] bareIngress).
  - apply list_elem_of_further, list_elem_of_here.
  - reflexivity.
Defined.

(** ** Two passes over one snapshot *)

Lemma omap_ext_fun {A B} (f g : A -> option B) (l : list A) :
  (forall x, f x = g x) -> omap f l = omap g l.
Proof.
  intros Hfg. induction l as [|a l IH]; cbn [omap list_omap]; [reflexivity|].
  by rewrite Hfg, IH.
Qed.

Section TwoPasses.
Context (L : NetLib) (H : Helpers) (n n' : NGINXController).
Hypothesis Hsame : sameSnapshot n n'.

Lemma sameSnapshot_streamEntry reserved proto port svcRef :
  streamEntry L H n' reserved proto port svcRef =
  streamEntry L H n reserved proto port svcRef.
Proof.
  destruct Hsame as (Hcfg & Hsvc & Hsl & _).
  unfold streamEntry, streamEndpoints, zoneOf. by rewrite Hcfg, Hsvc, Hsl.
Qed.

Lemma sameSnapshot_settleIngress (ing : Ingress) :
  settleIngress H n' ing = settleIngress H n ing.
Proof.
  destruct Hsame as (_ & _ & _ & _ & Hbc & _).
  unfold settleIngress. by rewrite Hbc.
Qed.

Lemma sameSnapshot_certificate :
  getDefaultSSLCertificate n' = getDefaultSSLCertificate n.
Proof.
  destruct Hsame as (Hcfg & _ & _ & Hcert & _).
  unfold getDefaultSSLCertificate. by rewrite Hcfg, Hcert.
Qed.

(** What the loop over the configmap returns, when it returns. *)
Lemma streamLoop_result (m : NGINXController) reserved proto (data : GoMap string) :
  forall acc svcs,
    foldGo (streamStep L H m reserved proto) data acc = Ret svcs ->
    svcs = acc ++ omap (fun e => entryResult (streamEntry L H m reserved proto e.1 e.2)) data.
Proof.
  induction data as [|e data IH]; intros acc svcs; cbn [foldGo omap list_omap].
  - intros [= <-]. by rewrite app_nil_r.
  - intros (acc1 & Hstep & Hrest)%bind_Ret. rewrite (IH _ _ Hrest).
    unfold streamStep in Hstep. apply bind_Ret in Hstep as (o & -> & Hret).
    cbn [entryResult]. destruct o as [svc|]; injection Hret as <-.
    + by rewrite <- app_assoc.
    + reflexivity.
Qed.

(** The stream services of two passes over one snapshot are the same
    services; the stable sort compares external ports only, so the two lists
    are equal when no two services share an external port. *)
Lemma getStreamServices_reordered (configmapName : string) (proto : Protocol)
    (svcs svcs' : list L4Service) :
  getStreamServices L H n configmapName proto = Ret svcs ->
  getStreamServices L H n' configmapName proto = Ret svcs' ->
  Permutation svcs svcs' /\ (NoDup (map l4s_Port svcs) -> svcs = svcs').
Proof.
  pose proof Hsame as (Hcfg & _ & _ & _ & _ & Hcm).
  unfold getStreamServices. rewrite Hcfg.
  destruct (beq_string configmapName ""); [by intros [= <-] [= <-]|].
  destruct (ParseNameNS H configmapName); [|by intros [= <-] [= <-]].
  specialize (Hcm configmapName).
  destruct (GetConfigMap (store n) configmapName) as [data|],
           (GetConfigMap (store n') configmapName) as [data'|];
    cbn [sameEntries] in Hcm; try done; [|by intros [= <-] [= <-]].
  intros (lp & Hlp & Hrun)%bind_Ret (lp' & Hlp' & Hrun')%bind_Ret.
  assert (lp' = lp) as -> by congruence.
  apply bind_Ret in Hrun as (raw & Hraw & [= <-]).
  apply bind_Ret in Hrun' as (raw' & Hraw' & [= <-]).
  apply streamLoop_result in Hraw, Hraw'. cbn [app] in Hraw, Hraw'.
  rewrite (omap_ext_fun _
             (fun e => entryResult (streamEntry L H n (reservedPorts H lp) proto e.1 e.2)))
    in Hraw' by (intros e; by rewrite sameSnapshot_streamEntry).
  assert (Hperm : Permutation raw raw') by (subst raw raw'; by rewrite Hcm).
  split.
  - by rewrite !SliceStable_Permutation.
  - intros Hnd. apply (SliceStable_unique l4s_Port); [exact Hperm|].
    by rewrite SliceStable_Permutation in Hnd.
Qed.

End TwoPasses.

(** C1 (as amended): for two passes over the same snapshot, in which the
    range statements may visit the entries of the configmaps in different
    orders, one on an ingress list and one on a permutation of it, that
    both return: the checksum and the default certificate are equal; the
    TCP and UDP endpoints are the same services, and the same lists when no
    two of them share an external port; in the pass, Backends are sorted by
    name, Servers by hostname and stream services by external port; the
    stream snippets are the non-empty snippets of the ingresses in the order
    of the ingress list, so the two passes agree on them up to order. *)
Theorem getConfiguration_permutation (L : NetLib) (H : Helpers) (n n' : NGINXController)
    (ingresses ingresses' : list Ingress)
    (r r' : gset string * list Server * Configuration) :
  sameSnapshot n n' ->
  Permutation ingresses ingresses' ->
  getConfiguration L H n ingresses = Ret r ->
  getConfiguration L H n' ingresses' = Ret r' ->
  StreamSnippets r.2 = omap snippetOf (omap (settleIngress H n) ingresses) /\
  Permutation (StreamSnippets r.2) (StreamSnippets r'.2) /\
  Permutation (TCPEndpoints r.2) (TCPEndpoints r'.2) /\
  (NoDup (map l4s_Port (TCPEndpoints r.2)) -> TCPEndpoints r.2 = TCPEndpoints r'.2) /\
  Permutation (UDPEndpoints r.2) (UDPEndpoints r'.2) /\
  (NoDup (map l4s_Port (UDPEndpoints r.2)) -> UDPEndpoints r.2 = UDPEndpoints r'.2) /\
  BackendConfigChecksum r.2 = BackendConfigChecksum r'.2 /\
  DefaultSSLCertificate r.2 = DefaultSSLCertificate r'.2 /\
  Sorted (fun a b => string_lt (b_Name b) (b_Name a) = false) (Backends r.2) /\
  Sorted (fun a b => string_lt (Hostname b) (Hostname a) = false) (Servers r.2) /\
  Sorted (fun a b => l4s_Port a <= l4s_Port b) (TCPEndpoints r.2) /\
  Sorted (fun a b => l4s_Port a <= l4s_Port b) (UDPEndpoints r.2).
Proof.
  intros Hsame Hperm Hrun Hrun'.
  destruct (getConfiguration_parts L H n _ _ Hrun)
    as (Hsn & Htcp & Hudp & Hck & Hcert & Hb & Hs).
  destruct (getConfiguration_parts L H n' _ _ Hrun')
    as (Hsn' & Htcp' & Hudp' & Hck' & Hcert' & _ & _).
  pose proof Hsame as (Hcfg & _ & _ & _ & Hbc & _).
  rewrite Hcfg in Htcp', Hudp'.
  destruct (getStreamServices_reordered L H n n' Hsame _ _ _ _ Htcp Htcp') as [Ptcp Etcp].
  destruct (getStreamServices_reordered L H n n' Hsame _ _ _ _ Hudp Hudp') as [Pudp Eudp].
  split; [exact Hsn|].
  split.
  { rewrite Hsn, Hsn'.
    rewrite (omap_ext_fun (settleIngress H n') (settleIngress H n))
      by (intros ing; by apply sameSnapshot_settleIngress).
    by rewrite Hperm. }
  split; [exact Ptcp|]. split; [exact Etcp|]. split; [exact Pudp|]. split; [exact Eudp|].
  split; [by rewrite Hck, Hck', Hbc|].
  split; [by rewrite Hcert, Hcert', (sameSnapshot_certificate n n' Hsame)|].
  split; [exact Hb|]. split; [exact Hs|].
  split; eapply getStreamServices_is_sorted; eassumption.
Qed.

(** C1 as stated fails: the two orders of two ingresses with stream
    snippets give different Configurations. *)
Lemma getConfiguration_order_dependent :
  Permutation [snippetIngressA; snippetIngressB] [snippetIngressB; snippetIngressA] /\
  snippetsOf (getConfiguration sampleNet (specHelpers "") plainController
                [snippetIngressA; snippetIngressB]) =
    ["server { listen 7000; }"; "server { listen 7001; }"] /\
  snippetsOf (getConfiguration sampleNet (specHelpers "") plainController
                [snippetIngressB; snippetIngressA]) =
    ["server { listen 7001; }"; "server { listen 7000; }"] /\
  getConfiguration sampleNet (specHelpers "") plainController
    [snippetIngressA; snippetIngressB] <>
  getConfiguration sampleNet (specHelpers "") plainController
    [snippetIngressB; snippetIngressA].
Proof.
  assert (HAB : snippetsOf (getConfiguration sampleNet (specHelpers "") plainController
                              [snippetIngressA; snippetIngressB]) =
                ["server { listen 7000; }"; "server { listen 7001; }"])
    by (vm_compute; reflexivity).
  assert (HBA : snippetsOf (getConfiguration sampleNet (specHelpers "") plainController
                              [snippetIngressB; snippetIngressA]) =
                ["server { listen 7001; }"; "server { listen 7000; }"])
    by (vm_compute; reflexivity).
  split; [apply perm_swap|]. split; [exact HAB|]. split; [exact HBA|].
  intros Heq. rewrite Heq in HAB. rewrite HAB in HBA. discriminate HBA.
Qed.

(** The endpoints of the amended C1 are the same services and not the
    same list in general: two keys of the TCP configmap that parse to the
    same external port come out in the order in which the range statement
    visits them. *)
Example getConfiguration_range_order :
  sameSnapshot twinPortsController twinPortsReversed /\
  tcpSummary (getConfiguration sampleNet (specHelpers "") twinPortsController []) =
    [(9000, false); (9000, true)] /\
  tcpSummary (getConfiguration sampleNet (specHelpers "") twinPortsReversed []) =
    [(9000, true); (9000, false)].
Proof.
  split; [|split; vm_compute; reflexivity].
  unfold sameSnapshot. do 5 (split; [reflexivity|]).
  intros name. unfold twinPortsController, twinPortsReversed, withConfigMap.
  cbn [store GetConfigMap]. destruct (beq_string name "ns/tcp"); cbn [sameEntries].
  - apply perm_swap.
  - destruct (GetConfigMap (store streamController) name); cbn [sameEntries];
      [reflexivity | exact I].
Qed.

Lemma getConfiguration_permutation_witness :
  exists r r',
    getConfiguration sampleNet (specHelpers "") twinPortsController
      [snippetIngressA; snippetIngressB] = Ret r /\
    getConfiguration sampleNet (specHelpers "") twinPortsReversed
      [snippetIngressB; snippetIngressA] = Ret r' /\
    Permutation (StreamSnippets r.2) (StreamSnippets r'.2) /\
    Permutation (TCPEndpoints r.2) (TCPEndpoints r'.2) /\
    UDPEndpoints r.2 = UDPEndpoints r'.2.
Proof.
  assert (Hsame : sameSnapshot twinPortsController twinPortsReversed).
  { unfold sameSnapshot. do 5 (split; [reflexivity|]).
    intros name. unfold twinPortsController, twinPortsReversed, withConfigMap.
    cbn [store GetConfigMap]. destruct (beq_string name "ns/tcp"); cbn [sameEntries].
    - apply perm_swap.
    - destruct (GetConfigMap (store streamController) name); cbn [sameEntries];
      [reflexivity | exact I]. }
  assert (Hudp : match getConfiguration sampleNet (specHelpers "") twinPortsController
                         [snippetIngressA; snippetIngressB] with
                 | Ret r => UDPEndpoints r.2
                 | Panic => []
                 end = []) by (vm_compute; reflexivity).
  destruct (getConfiguration sampleNet (specHelpers "") twinPortsController
              [snippetIngressA; snippetIngressB]) as [r|] eqn:Hrun;
    [|vm_compute in Hrun; discriminate Hrun].
  destruct (getConfiguration sampleNet (specHelpers "") twinPortsReversed
              [snippetIngressB; snippetIngressA]) as [r'|] eqn:Hrun';
    [|vm_compute in Hrun'; discriminate Hrun'].
  exists r, r'. split; [reflexivity|]. split; [reflexivity|].
  destruct (getConfiguration_permutation sampleNet (specHelpers "")
              twinPortsController twinPortsReversed
              [snippetIngressA; snippetIngressB] [snippetIngressB; snippetIngressA]
              r r' Hsame (perm_swap _ _ _) Hrun Hrun')
    as (_ & Hperm & Ptcp & _ & _ & Eudp & _).
  split; [exact Hperm|]. split; [exact Ptcp|].
  apply Eudp. rewrite Hudp. constructor.
Defined.
